(** * Forecast-period relabeling and corruption detection

    A shallow embedding of [scripts/processing/process_forecast_data.py]:
    the [ForecastCorruptionDetector], the [ForecastPeriodConverter] and the
    block loop of [NWSForecastProcessor].

    Texts are Python [str] values restricted to code points below 256, so a
    character is an [ascii] and a text is a [string].  The regular
    expressions of the script are written as abstract syntax and run by a
    backtracking matcher that follows the priorities of Python's [re]
    (leftmost match, greedy and lazy repetition, look-ahead, groups). *)

From Stdlib Require Import List ZArith Lia Bool Arith Sorted.
From Stdlib Require Import DecimalString Ascii String.
From Stdlib Require DecimalNat.
Import ListNotations.
Open Scope string_scope.
Open Scope nat_scope.

(** ** Python string operations *)

Module PyStr.

Definition nl : string := String "010"%char "".

Definition code (c : ascii) : nat := nat_of_ascii c.

Definition between (lo hi : nat) (c : ascii) : bool :=
  (lo <=? code c) && (code c <=? hi).

(** [str.isspace] on the code points below 256; also what [\s] matches. *)
Definition is_space (c : ascii) : bool :=
  between 9 13 c || between 28 32 c || (code c =? 133) || (code c =? 160).

(** [\d]: the decimal digits (category Nd) below 256. *)
Definition is_digit (c : ascii) : bool := between 48 57 c.

(** [[A-Z]] *)
Definition is_upper (c : ascii) : bool := between 65 90 c.

Fixpoint rev_onto (s acc : string) : string :=
  match s with
  | EmptyString => acc
  | String c r => rev_onto r (String c acc)
  end.

Definition rev (s : string) : string := rev_onto s "".

Fixpoint lstrip (s : string) : string :=
  match s with
  | String c r => if is_space c then lstrip r else s
  | EmptyString => ""
  end.

Definition rstrip (s : string) : string := rev (lstrip (rev s)).

(** [s.strip()] *)
Definition strip (s : string) : string := rstrip (lstrip s).

(** [s.startswith(p)] *)
Definition startswith (s p : string) : bool := prefix p s.

(** [s.endswith(p)] *)
Definition endswith (s p : string) : bool := prefix (rev p) (rev s).

(** [s[n:]] *)
Fixpoint drop (n : nat) (s : string) : string :=
  match n, s with
  | S n', String _ r => drop n' r
  | _, _ => s
  end.

(** [s[:n]] *)
Fixpoint take (n : nat) (s : string) : string :=
  match n, s with
  | S n', String c r => String c (take n' r)
  | _, _ => ""
  end.

(** [s.find(sub)]; [None] stands for Python's [-1]. *)
Fixpoint find (s sub : string) : option nat :=
  if prefix sub s then Some 0
  else match s with
       | EmptyString => None
       | String _ r => option_map S (find r sub)
       end.

(** [sub in s] *)
Definition contains (s sub : string) : bool :=
  match find s sub with Some _ => true | None => false end.

(** [s.replace(old, new)] for a non-empty [old]: the occurrences are
    replaced from left to right without overlap. *)
Fixpoint replace_from (fuel : nat) (old new s : string) : string :=
  match fuel with
  | O => s
  | S f =>
      match s with
      | EmptyString => ""
      | String c r =>
          if prefix old s
          then new ++ replace_from f old new (drop (length old) s)
          else String c (replace_from f old new r)
      end
  end.

Definition replace (s old new : string) : string :=
  replace_from (S (length s)) old new s.

(** [s.split(sep)] for a non-empty [sep]. *)
Fixpoint split_from (fuel : nat) (sep s cur : string) : list string :=
  match fuel with
  | O => [rev cur]
  | S f =>
      match s with
      | EmptyString => [rev cur]
      | String c r =>
          if prefix sep s
          then rev cur :: split_from f sep (drop (length sep) s) ""
          else split_from f sep r (String c cur)
      end
  end.

Definition split (s sep : string) : list string :=
  split_from (S (length s)) sep s "".

(** [sep.join(l)] *)
Fixpoint join (sep : string) (l : list string) : string :=
  match l with
  | [] => ""
  | [x] => x
  | x :: r => x ++ sep ++ join sep r
  end.

(** [str.lower] on the code points below 256: the letters A-Z and the
    accented capitals 192-222 except the multiplication sign 215. *)
Definition lower_char (c : ascii) : ascii :=
  if between 65 90 c || (between 192 222 c && negb (code c =? 215))
  then ascii_of_nat (code c + 32) else c.

Fixpoint lower (s : string) : string :=
  match s with
  | EmptyString => ""
  | String c r => String (lower_char c) (lower r)
  end.

(** [str(n)] for a non-negative integer. *)
Definition of_nat (n : nat) : string := NilEmpty.string_of_uint (Nat.to_uint n).

(** ["%0{w}d" % n] for a non-negative integer. *)
Fixpoint zeros (n : nat) : string :=
  match n with O => "" | S n' => String "0"%char (zeros n') end.

Definition zero_pad (w n : nat) : string :=
  let s := of_nat n in zeros (w - length s) ++ s.

(** [int(s)] for a string of decimal digits. *)
Fixpoint digits_value (acc : nat) (s : string) : nat :=
  match s with
  | EmptyString => acc
  | String c r => digits_value (10 * acc + (code c - 48)) r
  end.

End PyStr.

(** ** Regular expressions, as Python's [re] runs them *)

Module Re.

Import PyStr.

Inductive regex : Type :=
| Eps
| Chr (c : ascii)
| Cls (p : ascii -> bool)
| Dot
| Seq (r1 r2 : regex)
| Alt (r1 r2 : regex)
| Rep (greedy : bool) (lo : nat) (hi : option nat) (r : regex)
| Grp (n : nat) (r : regex)
| Look (positive : bool) (r : regex)
| Bol
| Eol
| EndZ.

(** The flags that the script passes to [re.findall]. *)
Record flags : Type := { MULTILINE : bool; DOTALL : bool }.

Definition no_flags : flags := {| MULTILINE := false; DOTALL := false |}.
Definition f_multiline : flags := {| MULTILINE := true; DOTALL := false |}.
Definition f_dotall : flags := {| MULTILINE := false; DOTALL := true |}.
Definition f_multiline_dotall : flags := {| MULTILINE := true; DOTALL := true |}.

(** A position in the subject: the index, the character before it, the text
    from it on, and the groups captured so far. *)
Record mstate : Type := {
  pos : nat;
  prev : option ascii;
  rest : string;
  caps : list (nat * string)
}.

Definition start_of (s : string) : mstate :=
  {| pos := 0; prev := None; rest := s; caps := [] |}.

Definition advance (st : mstate) : option (ascii * mstate) :=
  match rest st with
  | EmptyString => None
  | String a t =>
      Some (a, {| pos := S (pos st); prev := Some a; rest := t; caps := caps st |})
  end.

Definition set_cap (n : nat) (v : string) (st : mstate) : mstate :=
  {| pos := pos st; prev := prev st; rest := rest st; caps := (n, v) :: caps st |}.

Definition with_caps (st : mstate) (c : list (nat * string)) : mstate :=
  {| pos := pos st; prev := prev st; rest := rest st; caps := c |}.

Fixpoint cap (n : nat) (c : list (nat * string)) : option string :=
  match c with
  | [] => None
  | (i, v) :: r => if i =? n then Some v else cap n r
  end.

Definition is_nl (c : ascii) : bool := code c =? 10.

Definition at_bol (fl : flags) (st : mstate) : bool :=
  match prev st with
  | None => true
  | Some c => MULTILINE fl && is_nl c
  end.

Definition at_eol (fl : flags) (st : mstate) : bool :=
  match rest st with
  | EmptyString => true
  | String c EmptyString => is_nl c
  | String c _ => MULTILINE fl && is_nl c
  end.

Definition at_end (st : mstate) : bool :=
  match rest st with EmptyString => true | _ => false end.

Definition cont : Type := mstate -> option mstate.

Definition one_char (ok : ascii -> bool) (st : mstate) (k : cont) : option mstate :=
  match advance st with
  | Some (a, st') => if ok a then k st' else None
  | None => None
  end.

(** Repetition [r{lo,hi}], greedy or lazy.  An iteration that consumes
    nothing ends the loop, so [S (length (rest st))] rounds always suffice. *)
Fixpoint rep_loop (step : mstate -> cont -> option mstate) (greedy : bool)
    (lo : nat) (hi : option nat) (fuel : nat) (st : mstate) (k : cont)
    : option mstate :=
  match fuel with
  | O => None
  | S f =>
      let more (_ : unit) :=
        match hi with
        | Some O => None
        | _ =>
            step st (fun st' =>
              if pos st <? pos st'
              then rep_loop step greedy (Nat.pred lo) (option_map Nat.pred hi) f st' k
              else None)
        end in
      match lo with
      | S _ => more tt
      | O =>
          if greedy
          then match more tt with Some r => Some r | None => k st end
          else match k st with Some r => Some r | None => more tt end
      end
  end.

Fixpoint rmatch (fl : flags) (r : regex) (st : mstate) (k : cont) {struct r}
    : option mstate :=
  match r with
  | Eps => k st
  | Chr c => one_char (Ascii.eqb c) st k
  | Cls p => one_char p st k
  | Dot => one_char (fun a => DOTALL fl || negb (is_nl a)) st k
  | Seq r1 r2 => rmatch fl r1 st (fun st1 => rmatch fl r2 st1 k)
  | Alt r1 r2 =>
      match rmatch fl r1 st k with
      | Some x => Some x
      | None => rmatch fl r2 st k
      end
  | Rep g lo hi r1 => rep_loop (rmatch fl r1) g lo hi (S (length (rest st))) st k
  | Grp n r1 =>
      rmatch fl r1 st (fun st1 => k (set_cap n (take (pos st1 - pos st) (rest st)) st1))
  | Look b r1 =>
      match rmatch fl r1 st Some with
      | Some st1 => if b then k (with_caps st (caps st1)) else None
      | None => if b then None else k st
      end
  | Bol => if at_bol fl st then k st else None
  | Eol => if at_eol fl st then k st else None
  | EndZ => if at_end st then k st else None
  end.

(** The number of capturing groups of a pattern. *)
Fixpoint ngroups (r : regex) : nat :=
  match r with
  | Seq r1 r2 | Alt r1 r2 => ngroups r1 + ngroups r2
  | Rep _ _ _ r1 | Look _ r1 => ngroups r1
  | Grp _ r1 => S (ngroups r1)
  | _ => 0
  end.

(** A match object: its span, [group(0)] and [groups(default='')]. *)
Record match_obj : Type := {
  m_start : nat;
  m_end : nat;
  group0 : string;
  groups : list string
}.

Definition group_or_empty (c : list (nat * string)) (n : nat) : string :=
  match cap n c with Some v => v | None => "" end.

Definition mk_match (r : regex) (st st' : mstate) : match_obj :=
  {| m_start := pos st;
     m_end := pos st';
     group0 := take (pos st' - pos st) (rest st);
     groups := map (group_or_empty (caps st')) (seq 1 (ngroups r)) |}.

(** One attempt at the position [st]; after an empty match the next attempt
    at the same position must consume something. *)
Definition match_here (fl : flags) (r : regex) (must_advance : bool) (st : mstate)
    : option mstate :=
  rmatch fl r (with_caps st [])
    (fun st' => if must_advance && (pos st' =? pos st) then None else Some st').

(** The successive non-overlapping matches, scanning from left to right. *)
Fixpoint scan (fl : flags) (r : regex) (fuel : nat) (must_advance : bool)
    (st : mstate) : list match_obj :=
  match fuel with
  | O => []
  | S f =>
      match match_here fl r must_advance st with
      | Some st' => mk_match r st st' :: scan fl r f (pos st' =? pos st) st'
      | None =>
          match advance st with
          | Some (_, st1) => scan fl r f false st1
          | None => []
          end
      end
  end.

Definition finditer (r : regex) (s : string) (fl : flags) : list match_obj :=
  scan fl r (2 * length s + 2) false (start_of s).

(** [re.search]: the first match. *)
Definition search (r : regex) (s : string) (fl : flags) : option match_obj :=
  hd_error (finditer r s fl).

(** What [re.findall] puts in its list: the whole match for a pattern
    without groups, the group for a pattern with one, a tuple otherwise. *)
Inductive item : Type :=
| Str (s : string)
| Tuple (l : list string).

Definition findall_item (r : regex) (m : match_obj) : item :=
  match groups m with
  | [] => Str (group0 m)
  | [g] => Str g
  | l => Tuple l
  end.

Definition findall (r : regex) (s : string) (fl : flags) : list item :=
  map (findall_item r) (finditer r s fl).

(** [re.sub(r, repl, s)] for a replacement text without back-references. *)
Fixpoint sub_from (ms : list match_obj) (repl : string) (at_ : nat) (s : string)
    : string :=
  match ms with
  | [] => s
  | m :: ms' =>
      take (m_start m - at_) s ++ repl
        ++ sub_from ms' repl (m_end m) (drop (m_end m - at_) s)
  end.

Definition sub (r : regex) (repl s : string) (fl : flags) : string :=
  sub_from (finditer r s fl) repl 0 s.

(** Pattern syntax. *)
Fixpoint lit (s : string) : regex :=
  match s with
  | EmptyString => Eps
  | String c EmptyString => Chr c
  | String c r => Seq (Chr c) (lit r)
  end.

Fixpoint seqs (l : list regex) : regex :=
  match l with
  | [] => Eps
  | [r] => r
  | r :: l' => Seq r (seqs l')
  end.

Definition d : regex := Cls is_digit.
Definition s_ : regex := Cls is_space.
Definition AZ : regex := Cls is_upper.
Definition plus (r : regex) : regex := Rep true 1 None r.
Definition star (r : regex) : regex := Rep true 0 None r.
Definition lazy_star (r : regex) : regex := Rep false 0 None r.
Definition opt (r : regex) : regex := Rep true 0 (Some 1) r.
Definition times (n : nat) (r : regex) : regex := Rep true n (Some n) r.
Definition range (lo hi : nat) (r : regex) : regex := Rep true lo (Some hi) r.

End Re.

(** ** Dates, as Python's [datetime] module computes them *)

Module PyDate.

Import PyStr.
Local Open Scope Z_scope.

(** [date.max.toordinal()], the ordinal of 9999-12-31. *)
Definition _MAXORDINAL : Z := 3652059.

(** A [date], held by its proleptic Gregorian ordinal (0001-01-01 is 1);
    comparison of dates is comparison of ordinals. *)
Record date : Type := { toordinal : Z }.

Definition valid_date (dt : date) : Prop := 1 <= toordinal dt <= _MAXORDINAL.

Definition date_le (a b : date) : Prop := toordinal a <= toordinal b.

Definition _is_leap (y : Z) : bool :=
  (y mod 4 =? 0) && (negb (y mod 100 =? 0) || (y mod 400 =? 0)).

Definition _days_before_year (year : Z) : Z :=
  let y := year - 1 in y * 365 + y / 4 - y / 100 + y / 400.

Definition _DAYS_IN_MONTH : list Z := [-1; 31; 28; 31; 30; 31; 30; 31; 31; 30; 31; 30; 31].

Definition _DAYS_BEFORE_MONTH : list Z :=
  [-1; 0; 31; 59; 90; 120; 151; 181; 212; 243; 273; 304; 334].

Definition _days_in_month (year month : Z) : Z :=
  if (month =? 2) && _is_leap year then 29
  else nth (Z.to_nat month) _DAYS_IN_MONTH 0.

Definition _days_before_month (year month : Z) : Z :=
  nth (Z.to_nat month) _DAYS_BEFORE_MONTH 0
  + (if (2 <? month) && _is_leap year then 1 else 0).

Definition _ymd2ord (year month day : Z) : Z :=
  _days_before_year year + _days_before_month year month + day.

Definition _ord2ymd (ordinal : Z) : Z * Z * Z :=
  let n := ordinal - 1 in
  let n400 := n / 146097 in
  let n := n mod 146097 in
  let year := n400 * 400 + 1 in
  let n100 := n / 36524 in
  let n := n mod 36524 in
  let n4 := n / 1461 in
  let n := n mod 1461 in
  let n1 := n / 365 in
  let n := n mod 365 in
  let year := year + n100 * 100 + n4 * 4 + n1 in
  if (n1 =? 4) || (n100 =? 4) then (year - 1, 12, 31)
  else
    let leapyear := (n1 =? 3) && (negb (n4 =? 24) || (n100 =? 3)) in
    let month := Z.shiftr (n + 50) 5 in
    let preceding :=
      nth (Z.to_nat month) _DAYS_BEFORE_MONTH 0
      + (if (2 <? month) && leapyear then 1 else 0) in
    if n <? preceding
    then
      let month := month - 1 in
      let preceding :=
        preceding - (nth (Z.to_nat month) _DAYS_IN_MONTH 0
                     + (if (month =? 2) && leapyear then 1 else 0)) in
      (year, month, n - preceding + 1)
    else (year, month, n - preceding + 1).

(** [date(year, month, day)]; [None] stands for the [ValueError]. *)
Definition mk_date (year month day : Z) : option date :=
  if (1 <=? year) && (year <=? 9999) && (1 <=? month) && (month <=? 12)
     && (1 <=? day) && (day <=? _days_in_month year month)
  then Some {| toordinal := _ymd2ord year month day |}
  else None.

(** [d + timedelta(days=n)]; [None] stands for the [OverflowError]. *)
Definition add_days (dt : date) (n : Z) : option date :=
  let o := toordinal dt + n in
  if (0 <? o) && (o <=? _MAXORDINAL) then Some {| toordinal := o |} else None.

(** [str(d)], that is [d.isoformat()]. *)
Definition isoformat (dt : date) : string :=
  let '(y, m, dd) := _ord2ymd (toordinal dt) in
  (zero_pad 4 (Z.to_nat y) ++ "-" ++ zero_pad 2 (Z.to_nat m) ++ "-"
   ++ zero_pad 2 (Z.to_nat dd))%string.

Record datetime : Type := {
  date_of : date;
  hour : Z;
  minute : Z;
  second : Z
}.

Definition field (s : string) (from len : nat) : Z :=
  Z.of_nat (digits_value 0 (take len (drop from s))).

(** [s[i] == c] *)
Definition char_is (s : string) (i : nat) (c : ascii) : bool :=
  match String.get i s with
  | Some a => Ascii.eqb a c
  | None => false
  end.

(** The [len] characters of [s] from [from] on are the digits [0] to [9]. *)
Fixpoint all_digits (s : string) : bool :=
  match s with
  | EmptyString => true
  | String c r => is_digit c && all_digits r
  end.

Definition digits_at (s : string) (from len : nat) : bool :=
  all_digits (take len (drop from s)).

(** The extended form with seconds, [dddd-dd-dd?dd:dd:dd], where [?] is any
    character. *)
Definition extended_form (s : string) : bool :=
  (String.length s =? 19)%nat
  && digits_at s 0 4 && char_is s 4 "-"
  && digits_at s 5 2 && char_is s 7 "-"
  && digits_at s 8 2
  && digits_at s 11 2 && char_is s 13 ":"
  && digits_at s 14 2 && char_is s 16 ":"
  && digits_at s 17 2.

(** [datetime.fromisoformat] on the extended form with seconds, the form of
    every text that the script hands to it (a match of the time stamp
    pattern without its [-08:00]); [None] stands for the [ValueError] of a
    date or a time out of range.  The other ISO 8601 forms (a date alone,
    the basic form without separators, fractions of a second, a UTC offset),
    which the library accepts as well, are outside this model: it gives
    [None] for them. *)
Definition fromisoformat (s : string) : option datetime :=
  if extended_form s
  then
    match mk_date (field s 0 4) (field s 5 2) (field s 8 2) with
    | Some dt =>
        let h := field s 11 2 in
        let mi := field s 14 2 in
        let se := field s 17 2 in
        if (h <=? 23) && (mi <=? 59) && (se <=? 59)
        then Some {| date_of := dt; hour := h; minute := mi; second := se |}
        else None
    | None => None
    end
  else None.

End PyDate.

(** ** ForecastPeriodConverter *)

Module ForecastPeriodConverter.

Import PyStr Re PyDate.

(** [parse_forecast_timestamp] *)
Definition parse_forecast_timestamp (timestamp_str : string) : option datetime :=
  let timestamp_str :=
    if endswith timestamp_str "-08:00"
    then take (String.length timestamp_str - 6) timestamp_str
    else timestamp_str in
  fromisoformat timestamp_str.

(** [\.((REST\s+OF\s+[A-Z]+)|(THIS\s+AFTERNOON)|([A-Z]{3,7}(?:\s+NIGHT)?))\.\.\.?]
    with its four groups numbered from [g]. *)
Definition header (g : nat) : regex :=
  seqs [ Chr ".";
         Grp g (Alt (Grp (g + 1) (seqs [lit "REST"; plus s_; lit "OF"; plus s_; plus AZ]))
               (Alt (Grp (g + 2) (seqs [lit "THIS"; plus s_; lit "AFTERNOON"]))
                    (Grp (g + 3) (Seq (range 3 7 AZ) (opt (Seq (plus s_) (lit "NIGHT")))))));
         Chr "."; Chr "."; opt (Chr ".") ].

(** [period_pattern]: a header, the lazily matched content [(.*?)], and the
    look-ahead [(?=\n<header>|\Z)]. *)
Definition period_pattern : regex :=
  seqs [ header 1;
         Grp 5 (lazy_star Dot);
         Look true (Alt (Seq (Chr "010") (header 6)) EndZ) ].

(** The loop that fills [processed_periods] from the tuples of [findall]. *)
Definition name_and_content (m : item) : option (string * string) :=
  match m with
  | Tuple l =>
      let g i := nth i l "" in
      if negb (g 1 =? "")%string then Some (g 1, g 4)
      else if negb (g 2 =? "")%string then Some (g 2, g 4)
      else if negb (g 3 =? "")%string then Some (g 3, g 4)
      else None
  | Str _ => None
  end.

Fixpoint processed_periods (periods : list item) : list (string * string) :=
  match periods with
  | [] => []
  | m :: r =>
      match name_and_content m with
      | Some p => p :: processed_periods r
      | None => processed_periods r
      end
  end.

Inductive part : Type := DAY | NIGHT.

(** One converted period: the label [D{offset}_{part}], the target date and
    the collapsed content. *)
Record labeled_period : Type := {
  offset : nat;
  part_of : part;
  target_date : date;
  content : string
}.

Definition relative_label (p : labeled_period) : string :=
  "D" ++ of_nat (offset p) ++ (match part_of p with DAY => "_DAY" | NIGHT => "_NIGHT" end).

(** [f'{relative_label} ({target_date}) {collapsed_content}'] *)
Definition render (p : labeled_period) : string :=
  relative_label p ++ " (" ++ isoformat (target_date p) ++ ") " ++ content p.

Definition collapse (period_content : string) : string :=
  let collapsed_content := sub (plus s_) " " (strip period_content) no_flags in
  replace collapsed_content "Wave Detail:" "Waves:".

Definition in_list (x : string) (l : list string) : bool := existsb (String.eqb x) l.

(** The test made on the period after a regular day period; [None] when the
    period is the last one. *)
Definition next_is_day (next : option string) : bool :=
  match next with
  | None => false
  | Some next_period_name =>
      negb (endswith next_period_name " NIGHT")
      && negb (in_list next_period_name ["TONIGHT"; "TODAY"; "REST OF TONIGHT"; "THIS AFTERNOON"])
  end.

(** The chain of [if]/[elif] of the loop body: the part of the label and the
    offset after the period. *)
Definition classify (period_name : string) (next : option string)
    (current_day_offset : nat) : part * nat :=
  if (period_name =? "REST OF TODAY")%string then (DAY, current_day_offset)
  else if (period_name =? "REST OF TONIGHT")%string then (NIGHT, current_day_offset + 1)
  else if (period_name =? "THIS AFTERNOON")%string then (DAY, current_day_offset)
  else if (period_name =? "TONIGHT")%string then (NIGHT, current_day_offset + 1)
  else if (period_name =? "TODAY")%string then (DAY, current_day_offset)
  else if endswith period_name " NIGHT" then (NIGHT, current_day_offset + 1)
  else (DAY, if next_is_day next then current_day_offset + 1 else current_day_offset).

(** [target_date]: the forecast date, moved by the offset when it is positive. *)
Definition target_of (forecast_date : date) (current_day_offset : nat) : option date :=
  if 0 <? current_day_offset
  then add_days forecast_date (Z.of_nat current_day_offset)
  else Some forecast_date.

Definition next_name (ps : list (string * string)) : option string :=
  match ps with
  | [] => None
  | (n, _) :: _ => Some n
  end.

(** The loop over [processed_periods], started at [current_day_offset]. *)
Fixpoint map_periods (forecast_date : date) (current_day_offset : nat)
    (ps : list (string * string)) : option (list labeled_period) :=
  match ps with
  | [] => Some []
  | (period_name, period_content) :: ps' =>
      match target_of forecast_date current_day_offset with
      | None => None
      | Some target =>
          let '(pt, offset') := classify period_name (next_name ps') current_day_offset in
          match map_periods forecast_date offset' ps' with
          | None => None
          | Some out =>
              Some ({| offset := current_day_offset; part_of := pt;
                       target_date := target; content := collapse period_content |}
                    :: out)
          end
      end
  end.

(** The context-aware mapping of [convert_forecast_periods]: the loop, run
    from the offset chosen by the issuance hour; [None] stands for the
    [OverflowError] of a target date after 9999-12-31. *)
Definition relative_day_mapper (forecast_time : datetime) (ps : list (string * string))
    : option (list labeled_period) :=
  let forecast_date := date_of forecast_time in
  let issue_hour := hour forecast_time in
  let current_day_offset := if (issue_hour <? 6)%Z then 0 else 0 in
  map_periods forecast_date current_day_offset ps.

(** [convert_forecast_periods] *)
Definition convert_forecast_periods (forecast_text : string) (forecast_time : datetime)
    : option string :=
  let periods := findall period_pattern forecast_text f_dotall in
  match periods with
  | [] => Some forecast_text
  | _ =>
      match relative_day_mapper forecast_time (processed_periods periods) with
      | Some converted_periods => Some (join nl (map render converted_periods))
      | None => None
      end
  end.

End ForecastPeriodConverter.

(** ** ForecastCorruptionDetector *)

Module ForecastCorruptionDetector.

Import PyStr Re.

Definition backslash : ascii := "092"%char.

(** [[A-Z]{3,7}(?:\s+NIGHT)?] *)
Definition period_word : regex := Seq (range 3 7 AZ) (opt (Seq (plus s_) (lit "NIGHT"))).

(** [\d{4}-\d{2}-\d{2}T\d{2}:\d{2}:\d{2}-08:00] *)
Definition timestamp_pattern : regex :=
  seqs [ times 4 d; Chr "-"; times 2 d; Chr "-"; times 2 d; Chr "T";
         times 2 d; Chr ":"; times 2 d; Chr ":"; times 2 d; lit "-08:00" ].

Definition nws_patterns : list (regex * string) :=
  [ (seqs [times 3 d; plus s_; lit "FZUS"; plus d; lazy_star Dot; lit "RRA"],
     "NWS_PRODUCT_CODE");
    (lit "CWFLOX", "NWS_PRODUCT_NAME");
    (seqs [lit "Coastal Waters Forecast"; lazy_star Dot; lit "DELAYED"], "NWS_HEADER");
    (seqs [lit "National Weather Service"; lazy_star Dot; lit "CA"], "NWS_ATTRIBUTION");
    (seqs [lit "Point"; lazy_star Dot; lit "out "; plus d; lit " NM"; lazy_star Dot;
           lit "Sanctuary"], "NWS_AREA_DESCRIPTION");
    (seqs [lit "PZZ"; plus d; Chr "-"; plus d; Chr "-"], "NWS_ZONE_CODE");
    (seqs [Chr "."; lit "Synopsis"; lazy_star Dot; lit "National Park"; lazy_star Dot;
           Chr "."], "NWS_SYNOPSIS");
    (seqs [Bol; times 3 d; Eol], "STANDALONE_NUMBER");
    (seqs [Bol; timestamp_pattern; Eol], "EMBEDDED_TIMESTAMP") ].

(** The third pattern is written [\\.] in a raw string: a backslash
    followed by any character. *)
Definition truncated_patterns : list (regex * string) :=
  [ (seqs [Chr "."; Grp 1 (range 1 2 AZ); opt (Seq (plus s_) (lit "NIGHT")); star s_; Eol],
     "TRUNCATED_PERIOD");
    (seqs [Chr "."; Grp 1 period_word; Chr "."; Chr "."; Look false (Chr ".")],
     "INCOMPLETE_DOTS");
    (seqs [Chr "."; Grp 1 period_word; Chr backslash; Dot; Look false (Chr ".")],
     "MISSING_DOTS") ].

Definition full_day : regex :=
  Alt (lit "MONDAY") (Alt (lit "TUESDAY") (Alt (lit "WEDNESDAY") (Alt (lit "THURSDAY")
    (Alt (lit "FRIDAY") (Alt (lit "SATURDAY") (lit "SUNDAY")))))).

Definition anomalous_patterns : list (regex * string) :=
  [ (seqs [Chr "."; Grp 1 (times 3 AZ); plus s_; lit "THROUGH"; plus s_;
           Grp 2 (times 3 AZ); lit "..."], "MULTI_DAY_RANGE");
    (seqs [Chr "."; Grp 1 full_day; lit "..."], "FULL_DAY_NAME");
    (seqs [Chr "."; Grp 1 full_day; plus s_; lit "NIGHT"; lit "..."],
     "FULL_DAY_NIGHT_NAME") ].

Definition non_weather_keywords : list string :=
  [ "high pressure center was located";
    "thermal low was over";
    "pattern will not change";
    "including the Channel Islands";
    "out 60 NM";
    "National Marine Sanctuary" ].

(** [\.([A-Z]{3,7}(?:\s+NIGHT)?)\.\.\.?(.*?)(?=\n\.[A-Z]{3,7}(?:\s+NIGHT)?\.\.\.?|\Z)] *)
Definition periods_pattern : regex :=
  seqs [ Chr "."; Grp 1 period_word; Chr "."; Chr "."; opt (Chr ".");
         Grp 2 (lazy_star Dot);
         Look true (Alt (seqs [Chr "010"; Chr "."; period_word; Chr "."; Chr ".";
                               opt (Chr ".")])
                        EndZ) ].

(** The dictionary [corruption_indicators]. *)
Record verdict : Type := {
  has_corruption : bool;
  corruption_types : list string;
  corruption_details : list item
}.

Definition clean : verdict :=
  {| has_corruption := false; corruption_types := []; corruption_details := [] |}.

(** [str] of an item of [findall].  The only tuples formatted by the script
    hold two groups of capital letters, whose [repr] is the text between
    single quotes. *)
Definition format (m : item) : string :=
  match m with
  | Str s => s
  | Tuple l => "(" ++ join ", " (map (fun g => "'" ++ g ++ "'") l) ++ ")"
  end.

(** [f".{m}"] *)
Definition dotted (m : item) : item := Str ("." ++ format m).

(** One round of the loops over a pattern list: [keep] is what is put in
    the details for a match. *)
Definition check_pattern (keep : item -> item) (fl : flags) (forecast_content : string)
    (v : verdict) (p : regex * string) : verdict :=
  let '(pattern, corruption_type) := p in
  let matches := findall pattern forecast_content fl in
  match matches with
  | [] => v
  | _ =>
      {| has_corruption := true;
         corruption_types := (corruption_types v ++ [corruption_type])%list;
         corruption_details := (corruption_details v ++ map keep (firstn 3 matches))%list |}
  end.

Definition check_patterns (keep : item -> item) (fl : flags) (ps : list (regex * string))
    (forecast_content : string) (v : verdict) : verdict :=
  fold_left (check_pattern keep fl forecast_content) ps v.

(** The unpacking [for period_name, period_content in periods]. *)
Definition name_content (m : item) : string * string :=
  match m with
  | Tuple (n :: c :: _) => (n, c)
  | _ => ("", "")
  end.

Definition check_long_period (v : verdict) (m : item) : verdict :=
  let '(period_name, period_content) := name_content m in
  let content_length := String.length (strip period_content) in
  if 1000 <? content_length
  then {| has_corruption := true;
          corruption_types := (corruption_types v ++ ["ABNORMALLY_LONG_PERIOD"])%list;
          corruption_details :=
            (corruption_details v
             ++ [Str ("." ++ period_name ++ ": " ++ of_nat content_length ++ " chars")])%list |}
  else v.

Definition check_timestamps (forecast_content : string) (v : verdict) : verdict :=
  let timestamp_matches := findall timestamp_pattern forecast_content no_flags in
  if 0 <? List.length timestamp_matches
  then {| has_corruption := true;
          corruption_types := (corruption_types v ++ ["EMBEDDED_TIMESTAMPS"])%list;
          corruption_details := (corruption_details v ++ firstn 2 timestamp_matches)%list |}
  else v.

Definition add_type (t : string) (types : list string) : list string :=
  if existsb (String.eqb t) types then types else (types ++ [t])%list.

Definition check_keyword (forecast_content : string) (v : verdict) (keyword : string)
    : verdict :=
  if contains (lower forecast_content) (lower keyword)
  then {| has_corruption := true;
          corruption_types := add_type "NON_WEATHER_CONTENT" (corruption_types v);
          corruption_details := (corruption_details v ++ [Str keyword])%list |}
  else v.

Definition check_short_period (v : verdict) (m : item) : verdict :=
  let '(period_name, period_content) := name_content m in
  let clean_content := strip period_content in
  if String.length clean_content <? 10
  then {| has_corruption := true;
          corruption_types := add_type "EXTREMELY_SHORT_PERIOD" (corruption_types v);
          corruption_details :=
            (corruption_details v
             ++ [Str ("." ++ period_name ++ ": '" ++ clean_content ++ "'")])%list |}
  else v.

(** [detect_corruption_patterns] *)
Definition detect_corruption_patterns (forecast_content : string) : verdict :=
  let v := clean in
  let v := check_patterns (fun m => m) f_multiline_dotall nws_patterns forecast_content v in
  let v := check_patterns dotted f_multiline truncated_patterns forecast_content v in
  let v := check_patterns dotted f_multiline anomalous_patterns forecast_content v in
  let periods := findall periods_pattern forecast_content f_dotall in
  let v := fold_left check_long_period periods v in
  let v := check_timestamps forecast_content v in
  let v := fold_left (check_keyword forecast_content) non_weather_keywords v in
  let v := fold_left check_short_period periods v in
  v.

End ForecastCorruptionDetector.

(** ** NWSForecastProcessor *)

Module NWSForecastProcessor.

Import PyStr Re PyDate ForecastCorruptionDetector ForecastPeriodConverter.

(** [^\.\.\.([^.]*?)\.\.\.(?: \n|$)] *)
Definition warning_pattern : regex :=
  seqs [ Bol; lit "...";
         Grp 1 (lazy_star (Cls (fun c => negb (Ascii.eqb c "."))));
         lit "...";
         Alt (Seq (Chr " ") (Chr "010")) Eol ].

(** [extract_warnings] *)
Definition extract_warnings (forecast_text : string) : option string * string :=
  let warning_matches := findall warning_pattern forecast_text f_multiline in
  match warning_matches with
  | [] => (None, forecast_text)
  | _ =>
      let combined_warnings :=
        map (fun warning => sub (plus s_) " " (strip (format warning)) no_flags)
            warning_matches in
      let warning_paragraph := "WARNING: " ++ join "; " combined_warnings in
      let clean_content := sub warning_pattern "" forecast_text f_multiline in
      let clean_content :=
        strip (sub (seqs [Chr "010"; star s_; Chr "010"]) (nl ++ nl) clean_content no_flags) in
      (Some warning_paragraph, clean_content)
  end.

(** The text of a block after its time stamp: [block[timestamp_end:].strip()],
    where [find] cannot fail because the time stamp was matched in the block. *)
Definition content_after (block timestamp : string) : string :=
  let timestamp_pos := match find block timestamp with Some p => p | None => 0 end in
  let timestamp_end := timestamp_pos + String.length timestamp in
  strip (drop timestamp_end block).

(** An entry of [self.corrupted_forecasts]. *)
Record corrupted : Type := {
  timestamp : string;
  c_types : list string;
  c_details : list item;
  content_preview : string
}.

(** The body of the loop of [analyze_forecast_file]: the entry that the
    block adds to [self.corrupted_forecasts], if any. *)
Definition analyze_block (block : string) : option corrupted :=
  let block := strip block in
  if (block =? "")%string then None
  else
    match search (Grp 1 timestamp_pattern) block no_flags with
    | None => None
    | Some timestamp_match =>
        let timestamp := nth 0 (groups timestamp_match) "" in
        let forecast_content := content_after block timestamp in
        if (forecast_content =? "")%string then None
        else
          let corruption_info := detect_corruption_patterns forecast_content in
          if has_corruption corruption_info
          then Some {| timestamp := timestamp;
                       c_types := corruption_types corruption_info;
                       c_details := corruption_details corruption_info;
                       content_preview :=
                         if 200 <? String.length forecast_content
                         then take 200 forecast_content ++ "..."
                         else forecast_content |}
          else None
    end.

(** [analyze_forecast_file], on the text of the file and the list
    [self.corrupted_forecasts] that it extends. *)
Fixpoint analyze_blocks (corrupted_forecasts : list corrupted) (blocks : list string)
    : list corrupted :=
  match blocks with
  | [] => corrupted_forecasts
  | block :: r =>
      match analyze_block block with
      | Some c => analyze_blocks (corrupted_forecasts ++ [c])%list r
      | None => analyze_blocks corrupted_forecasts r
      end
  end.

Definition analyze_forecast_file (corrupted_forecasts : list corrupted) (content : string)
    : list corrupted :=
  analyze_blocks corrupted_forecasts (split content "$$").

(** What one round of the loop of [process_forecast_file] does with a block. *)
Inductive outcome : Type :=
| Blank                                   (* [''] is appended *)
| NoTimestamp (block : string)            (* the block is appended as it is *)
| Skipped (timestamp_str : string)        (* corrupted: nothing is appended *)
| Unparsed (block : string)               (* appended as it is, an error is counted *)
| NoContent                               (* nothing is appended *)
| Converted (clean_content : string) (forecast_time : datetime) (converted_block : string)
| Raised (clean_content : string) (forecast_time : datetime).

Definition process_block (corrupted_timestamps : list string) (block : string) : outcome :=
  let block := strip block in
  if (block =? "")%string then Blank
  else
    match search timestamp_pattern block no_flags with
    | None => NoTimestamp block
    | Some timestamp_match =>
        let timestamp_str := group0 timestamp_match in
        if in_list timestamp_str corrupted_timestamps then Skipped timestamp_str
        else
          match parse_forecast_timestamp timestamp_str with
          | None => Unparsed block
          | Some forecast_time =>
              let forecast_content := content_after block timestamp_str in
              if (forecast_content =? "")%string then NoContent
              else
                let issued_line := "Issued: " ++ timestamp_str ++ nl ++ nl in
                let '(warnings, clean_content) := extract_warnings forecast_content in
                match convert_forecast_periods clean_content forecast_time with
                | None => Raised clean_content forecast_time
                | Some converted_content =>
                    Converted clean_content forecast_time
                      match warnings with
                      | Some w => issued_line ++ w ++ nl ++ nl ++ converted_content
                      | None => issued_line ++ converted_content
                      end
                end
          end
    end.

(** The arguments with which the round calls [convert_forecast_periods]. *)
Definition conversion_call (o : outcome) : option (string * datetime) :=
  match o with
  | Converted clean_content forecast_time _ | Raised clean_content forecast_time =>
      Some (clean_content, forecast_time)
  | _ => None
  end.

(** What the round appends to [converted_blocks]. *)
Definition appended (o : outcome) : list string :=
  match o with
  | Blank => [""]
  | NoTimestamp block | Unparsed block => [block]
  | Converted _ _ converted_block => [converted_block]
  | Skipped _ | NoContent | Raised _ _ => []
  end.

Definition raised (o : outcome) : bool :=
  match o with Raised _ _ => true | _ => false end.

Definition is_converted (o : outcome) : bool :=
  match o with Converted _ _ _ => true | _ => false end.

Definition is_unparsed (o : outcome) : bool :=
  match o with Unparsed _ => true | _ => false end.

(** The text written to the output file. *)
Fixpoint write_blocks (converted_blocks : list string) : string :=
  match converted_blocks with
  | [] => ""
  | block :: r =>
      (if (strip block =? "")%string then ""
       else block ++ match r with [] => "" | _ => nl ++ nl ++ "$$" ++ nl ++ nl end)
      ++ write_blocks r
  end.

Record processed : Type := {
  output : string;
  converted_blocks : list string;
  processed_count : nat;
  error_count : nat;
  skipped_count : nat
}.

(** [process_forecast_file]; [None] when a conversion raises. *)
Definition process_forecast_file (corrupted_forecasts : list corrupted) (content : string)
    : option processed :=
  let forecast_blocks := split content "$$" in
  let corrupted_timestamps := map timestamp corrupted_forecasts in
  let outcomes := map (process_block corrupted_timestamps) forecast_blocks in
  if existsb raised outcomes then None
  else
    let blocks := flat_map appended outcomes in
    Some {| output := write_blocks blocks;
            converted_blocks := blocks;
            processed_count := List.length (filter is_converted outcomes);
            error_count := List.length (filter is_unparsed outcomes);
            skipped_count := List.length (nodup string_dec corrupted_timestamps) |}.

(** [process]: the analysis, then the conversion of the same file. *)
Definition process (content : string) : option processed :=
  let corrupted_forecasts := analyze_forecast_file [] content in
  process_forecast_file corrupted_forecasts content.

End NWSForecastProcessor.

(** ** Vocabulary of the statements about the converter *)

Module ConverterSpec.

Import PyStr Re PyDate ForecastPeriodConverter.

(** Sunday 2024-01-07, 08:00, that is [2024-01-07T08:00:00-08:00]. *)
Definition sunday_morning : datetime :=
  {| date_of := {| toordinal := 738892 |}; hour := 8; minute := 0; second := 0 |}.

(** Monday 2024-01-08, 08:00. *)
Definition monday_morning : datetime :=
  {| date_of := {| toordinal := 738893 |}; hour := 8; minute := 0; second := 0 |}.

(** The names that reach the last branch of the loop body: none of the five
    aliases and not a night period. *)
Definition regular_day (period_name : string) : bool :=
  negb (in_list period_name
          ["REST OF TODAY"; "REST OF TONIGHT"; "THIS AFTERNOON"; "TONIGHT"; "TODAY"])
  && negb (endswith period_name " NIGHT").

(** The offsets of a converted list that starts at [o]: each period carries
    the running offset, which then stays or grows by one. *)
Inductive steps : nat -> list labeled_period -> Prop :=
| steps_nil : forall o, steps o []
| steps_cons : forall o o' p out,
    offset p = o -> o <= o' <= o + 1 -> steps o' out -> steps o (p :: out).

End ConverterSpec.

(** ** Vocabulary of the statements about the detector *)

Module DetectorSpec.

Import PyStr Re ForecastCorruptionDetector.

(** The pattern of an entry of a pattern list finds something. *)
Definition fires (fl : flags) (forecast_content : string) (p : regex * string) : bool :=
  match findall (fst p) forecast_content fl with [] => false | _ => true end.

(** The details kept for an entry of a pattern list: [matches[:3]]. *)
Definition examples (keep : item -> item) (fl : flags) (forecast_content : string)
    (p : regex * string) : list item :=
  map keep (firstn 3 (findall (fst p) forecast_content fl)).

Definition periods_of (forecast_content : string) : list item :=
  findall periods_pattern forecast_content f_dotall.

Definition timestamps_of (forecast_content : string) : list item :=
  findall timestamp_pattern forecast_content no_flags.

Definition stripped_content (m : item) : string := strip (snd (name_content m)).

Definition too_long (m : item) : bool := 1000 <? String.length (stripped_content m).

Definition long_detail (m : item) : list item :=
  if too_long m
  then [Str ("." ++ fst (name_content m) ++ ": "
             ++ of_nat (String.length (stripped_content m)) ++ " chars")]
  else [].

Definition too_short (m : item) : bool := String.length (stripped_content m) <? 10.

Definition short_detail (m : item) : list item :=
  if too_short m
  then [Str ("." ++ fst (name_content m) ++ ": '" ++ stripped_content m ++ "'")]
  else [].

Definition keyword_found (forecast_content keyword : string) : bool :=
  contains (lower forecast_content) (lower keyword).

Definition keyword_detail (forecast_content keyword : string) : list item :=
  if keyword_found forecast_content keyword then [Str keyword] else [].

(** The OR of the findings of the seven checks. *)
Definition any_finding (forecast_content : string) : bool :=
  existsb (fires f_multiline_dotall forecast_content) nws_patterns
  || existsb (fires f_multiline forecast_content) truncated_patterns
  || existsb (fires f_multiline forecast_content) anomalous_patterns
  || existsb too_long (periods_of forecast_content)
  || (0 <? List.length (timestamps_of forecast_content))
  || existsb (keyword_found forecast_content) non_weather_keywords
  || existsb too_short (periods_of forecast_content).

(** The details of a verdict, check by check. *)
Definition all_details (forecast_content : string) : list item :=
  (flat_map (examples (fun m => m) f_multiline_dotall forecast_content) nws_patterns
   ++ flat_map (examples dotted f_multiline forecast_content) truncated_patterns
   ++ flat_map (examples dotted f_multiline forecast_content) anomalous_patterns
   ++ flat_map long_detail (periods_of forecast_content)
   ++ firstn 2 (timestamps_of forecast_content)
   ++ flat_map (keyword_detail forecast_content) non_weather_keywords
   ++ flat_map short_detail (periods_of forecast_content))%list.

(** The flag and the lists of a verdict agree. *)
Definition coherent (v : verdict) : Prop :=
  if has_corruption v then corruption_types v <> []
  else corruption_types v = [] /\ corruption_details v = [].

(** The shape shared by the rounds of the seven checks: a round that finds
    nothing leaves the verdict alone; one that finds something raises the
    flag, records its category and appends its details. *)
Definition check_spec {A : Type} (step : verdict -> A -> verdict) (fire : A -> bool)
    (cat : A -> string) (ex : A -> list item) : Prop :=
  forall v a,
    corruption_details (step v a) = (corruption_details v ++ ex a)%list
    /\ (fire a = false -> step v a = v)
    /\ (fire a = true ->
        has_corruption (step v a) = true
        /\ (corruption_types (step v a) = (corruption_types v ++ [cat a])%list
            \/ (In (cat a) (corruption_types v)
                /\ corruption_types (step v a) = corruption_types v))).

(** A body that holds four of the non-weather phrases and nothing else. *)
Definition four_phrases : string :=
  "thermal low was over, pattern will not change, out 60 NM, National Marine Sanctuary".

End DetectorSpec.

(** ** Vocabulary of the statements about the matcher and the block loop *)

Module MatcherSpec.

Import PyStr Re.

(** A change [g] made to the final state commutes with a matching step. *)
Definition commutes (g : mstate -> mstate) (step : mstate -> cont -> option mstate) : Prop :=
  forall st k k', (forall s, k' s = option_map g (k s)) ->
    step st k' = option_map g (step st k).

(** The group put around a whole pattern. *)
Definition whole (st : mstate) (st' : mstate) : mstate :=
  set_cap 1 (take (pos st' - pos st) (rest st)) st'.

End MatcherSpec.

Module ProcessorSpec.

Import PyStr.

(** A file of two blocks and a trailing delimiter; the second block holds a
    second time stamp in its body. *)
Definition good_block : string :=
  "2024-01-07T08:00:00-08:00" ++ nl ++ ".TODAY...N wind 5 to 10 kt." ++ nl
  ++ ".TONIGHT...N wind 5 kt." ++ nl ++ ".MON...SW wind 10 kt." ++ nl.

Definition contaminated_block : string :=
  nl ++ "2024-01-07T14:00:00-08:00" ++ nl ++ ".TODAY...N wind 5 to 10 kt." ++ nl
  ++ "2024-01-07T20:00:00-08:00" ++ nl ++ ".TONIGHT...N wind 5 kt." ++ nl.

Definition two_block_file : string :=
  good_block ++ "$$" ++ contaminated_block ++ "$$" ++ nl.

End ProcessorSpec.

(** ** Vocabulary of the statements about texts and matches *)

Module TextSpec.

Import PyStr Re ForecastCorruptionDetector DetectorSpec.

(** Every character of [s] satisfies [p]. *)
Fixpoint all_chars (p : ascii -> bool) (s : string) : bool :=
  match s with
  | EmptyString => true
  | String c r => p c && all_chars p r
  end.

(** [c] does not occur in [s]. *)
Definition free_of (c : ascii) (s : string) : bool :=
  all_chars (fun a => negb (Ascii.eqb c a)) s.

(** [s] is made of [n] decimal digits. *)
Definition digits (n : nat) (s : string) : Prop :=
  String.length s = n /\ all_chars is_digit s = true.

(** [ts] has the shape [dddd-dd-ddTdd:dd:dd-08:00]. *)
Definition is_timestamp (ts : string) : Prop :=
  exists y mo dd hh mi ss,
    digits 4 y /\ digits 2 mo /\ digits 2 dd /\ digits 2 hh /\ digits 2 mi /\ digits 2 ss
    /\ ts = (y ++ "-" ++ mo ++ "-" ++ dd ++ "T" ++ hh ++ ":" ++ mi ++ ":" ++ ss
             ++ "-08:00")%string.

(** The pattern [r] reads exactly the text [s] and has no other way to match. *)
Definition consumes (fl : flags) (r : regex) (s : string) : Prop :=
  forall st t k, rest st = (s ++ t)%string ->
    exists st', rmatch fl r st k = k st'
                /\ rest st' = t /\ pos st' = pos st + String.length s
                /\ caps st' = caps st.

(** The pattern [r] only matches where the next character is [c]. *)
Definition starts_with (fl : flags) (r : regex) (c : ascii) : Prop :=
  forall st k, (forall t, rest st <> String c t) -> rmatch fl r st k = None.

(** The categories of the entries of a pattern list that find something. *)
Definition fired_types (fl : flags) (forecast_content : string) (ps : list (regex * string))
    : list string :=
  map snd (filter (fires fl forecast_content) ps).

Definition once (b : bool) (t : string) : list string := if b then [t] else [].

(** The categories of a verdict, check by check. *)
Definition all_types (forecast_content : string) : list string :=
  (fired_types f_multiline_dotall forecast_content nws_patterns
   ++ fired_types f_multiline forecast_content truncated_patterns
   ++ fired_types f_multiline forecast_content anomalous_patterns
   ++ map (fun _ => "ABNORMALLY_LONG_PERIOD") (filter too_long (periods_of forecast_content))
   ++ once (0 <? List.length (timestamps_of forecast_content)) "EMBEDDED_TIMESTAMPS"
   ++ once (existsb (keyword_found forecast_content) non_weather_keywords)
        "NON_WEATHER_CONTENT"
   ++ once (existsb too_short (periods_of forecast_content)) "EXTREMELY_SHORT_PERIOD")%list.

(** The text [t] does not start with a character that satisfies [p]. *)
Definition not_starting (p : ascii -> bool) (t : string) : Prop :=
  forall c t', t = String c t' -> p c = false.

(** The pattern [r] cannot match where the next character does not satisfy [p]. *)
Definition needs (fl : flags) (r : regex) (p : ascii -> bool) : Prop :=
  forall st k, not_starting p (rest st) -> rmatch fl r st k = None.

(** Before a text accepted by [tail_ok], the pattern [r] can read [s]: when
    the continuation succeeds after [s], the match succeeds. *)
Definition reads (fl : flags) (r : regex) (s : string) (tail_ok : string -> Prop) : Prop :=
  forall st t k, rest st = (s ++ t)%string -> tail_ok t ->
    exists st', rest st' = t /\ pos st' = pos st + String.length s
                /\ (k st' <> None -> rmatch fl r st k <> None).

(** Before a text accepted by [tail_ok], the first choices of the pattern [r]
    read [s] and add the groups [new_caps]: when the continuation succeeds
    after [s], the match returns what the continuation returns. *)
Definition reads_first (fl : flags) (r : regex) (s : string) (tail_ok : string -> Prop)
    (new_caps : list (nat * string)) : Prop :=
  forall st t k, rest st = (s ++ t)%string -> tail_ok t ->
    exists st', rest st' = t /\ pos st' = pos st + String.length s
                /\ caps st' = (new_caps ++ caps st)%list
                /\ forall x, k st' = Some x -> rmatch fl r st k = Some x.

(** The pattern [r] fails at the start of [s] before a text accepted by
    [tail_ok]. *)
Definition fails_on (fl : flags) (r : regex) (s : string) (tail_ok : string -> Prop) : Prop :=
  forall st t k, rest st = (s ++ t)%string -> tail_ok t -> rmatch fl r st k = None.

(** The text [t] starts with a dot. *)
Definition dot_first (t : string) : Prop := exists t', t = String "." t'.

(** No newline in [s]. *)
Definition one_line (s : string) : bool := all_chars (fun c => negb (Re.is_nl c)) s.

(** A period whose name is made of 3 to 7 capital letters and whose content
    holds no newline. *)
Definition simple_period (p : string * string) : Prop :=
  all_chars is_upper (fst p) = true /\ 3 <= String.length (fst p) <= 7
  /\ one_line (snd p) = true.

(** The text of a period: its header with three dots, then its content. *)
Definition period_text (p : string * string) : string :=
  "." ++ fst p ++ "..." ++ snd p.

(** A body: the texts of the periods, one per line. *)
Definition body_of (ps : list (string * string)) : string :=
  join nl (map period_text ps).

(** The tuple that [findall] returns for a period followed by a period named
    [next] ([""] for the last period). *)
Definition period_tuple (p : string * string) (next : string) : item :=
  Tuple [fst p; ""; ""; fst p; snd p; next; ""; ""; next].

Fixpoint tuples_of (ps : list (string * string)) : list item :=
  match ps with
  | [] => []
  | p :: r => period_tuple p (match r with [] => "" | q :: _ => fst q end) :: tuples_of r
  end.

(** The text [t] starts with a newline and a header named [name]. *)
Definition header_next (name t : string) : Prop :=
  exists u, t = (nl ++ ("." ++ name ++ "." ++ "." ++ ".") ++ u)%string.


(** A word: not empty and free of white space. *)
Definition word (w : string) : bool :=
  negb (w =? "")%string && all_chars (fun c => negb (is_space c)) w.

(** A gap: not empty and made of white space. *)
Definition gap (g : string) : bool := negb (g =? "")%string && all_chars is_space g.

(** Words, each behind its gap. *)
Fixpoint spaced (l : list (string * string)) : string :=
  match l with
  | [] => ""
  | (g, w) :: r => g ++ w ++ spaced r
  end.

Definition gaps_and_words (l : list (string * string)) : bool :=
  forallb (fun gw => gap (fst gw) && word (snd gw)) l.

(** The delimiter written between two blocks of the output file. *)
Definition delimiter : string := nl ++ nl ++ "$$" ++ nl ++ nl.

(** The test [if block.strip()] of the writing loop. *)
Definition written (block : string) : bool := negb (strip block =? "")%string.

End TextSpec.

(** * Properties of the period converter *)

Section MapperProperties.

Import PyStr Re PyDate ForecastPeriodConverter ConverterSpec.

Lemma classify_step (period_name : string) (next : option string) (o : nat) :
  o <= snd (classify period_name next o) <= o + 1.
Proof.
  unfold classify.
  repeat match goal with
         | |- context [if ?b then _ else _] => destruct b
         end; simpl; lia.
Qed.

Lemma target_of_ordinal (fd t : date) (o : nat) :
  target_of fd o = Some t -> toordinal t = (toordinal fd + Z.of_nat o)%Z.
Proof.
  unfold target_of, add_days.
  destruct (0 <? o) eqn:Ho.
  - destruct (_ && _); intros H; inversion H; reflexivity.
  - apply Nat.ltb_ge in Ho. intros H; inversion H; subst. lia.
Qed.

Lemma target_of_in_range (fd : date) (o : nat) :
  valid_date fd -> (toordinal fd + Z.of_nat o <= _MAXORDINAL)%Z ->
  exists t, target_of fd o = Some t.
Proof.
  intros [Hlo _] Hhi. unfold target_of, add_days.
  destruct (0 <? o); [ | eauto ].
  replace ((0 <? toordinal fd + Z.of_nat o)%Z) with true by (symmetry; apply Z.ltb_lt; lia).
  replace ((toordinal fd + Z.of_nat o <=? _MAXORDINAL)%Z) with true
    by (symmetry; apply Z.leb_le; lia).
  simpl; eauto.
Qed.

Lemma map_periods_inv (fd : date) (o : nat) (period_name period_content : string)
    (ps : list (string * string)) (out : list labeled_period) :
  map_periods fd o ((period_name, period_content) :: ps) = Some out ->
  exists t rest_out,
    target_of fd o = Some t
    /\ map_periods fd (snd (classify period_name (next_name ps) o)) ps = Some rest_out
    /\ out = {| offset := o; part_of := fst (classify period_name (next_name ps) o);
                target_date := t; content := collapse period_content |} :: rest_out.
Proof.
  simpl. destruct (target_of fd o) as [t|]; [ | discriminate ].
  destruct (classify period_name (next_name ps) o) as [pt o'] eqn:Hc. simpl.
  destruct (map_periods fd o' ps) as [rest_out|]; [ | discriminate ].
  intros H; inversion H; subst. eauto.
Qed.

Lemma map_periods_steps (fd : date) (ps : list (string * string)) :
  forall o out, map_periods fd o ps = Some out -> steps o out.
Proof.
  induction ps as [| [period_name period_content] ps IH]; intros o out H.
  - inversion H; constructor.
  - apply map_periods_inv in H. destruct H as (t & rest_out & _ & Hrest & ->).
    econstructor; [ reflexivity | apply classify_step | eauto ].
Qed.

Lemma map_periods_dates (fd : date) (ps : list (string * string)) :
  forall o out p, map_periods fd o ps = Some out -> In p out ->
    toordinal (target_date p) = (toordinal fd + Z.of_nat (offset p))%Z.
Proof.
  induction ps as [| [period_name period_content] ps IH]; intros o out p H Hin.
  - inversion H; subst; contradiction.
  - apply map_periods_inv in H. destruct H as (t & rest_out & Ht & Hrest & ->).
    destruct Hin as [<- | Hin]; [ simpl; now apply target_of_ordinal | eauto ].
Qed.

Lemma map_periods_length (fd : date) (ps : list (string * string)) :
  forall o out, map_periods fd o ps = Some out -> List.length out = List.length ps.
Proof.
  induction ps as [| [period_name period_content] ps IH]; intros o out H.
  - inversion H; reflexivity.
  - apply map_periods_inv in H. destruct H as (t & rest_out & _ & Hrest & ->).
    simpl; f_equal; eauto.
Qed.

(** The loop raises nothing while the dates stay in the calendar. *)
Lemma map_periods_total (fd : date) (ps : list (string * string)) :
  valid_date fd ->
  forall o, (toordinal fd + Z.of_nat (o + List.length ps) <= _MAXORDINAL)%Z ->
    exists out, map_periods fd o ps = Some out.
Proof.
  intros Hv. induction ps as [| [period_name period_content] ps IH]; intros o Hr.
  - simpl; eauto.
  - simpl in Hr. simpl.
    destruct (target_of_in_range fd o Hv) as [t ->]; [ lia | ].
    pose proof (classify_step period_name (next_name ps) o) as Hs.
    destruct (classify period_name (next_name ps) o) as [pt o']; simpl in Hs.
    destruct (IH o') as [rest_out ->]; [ lia | eauto ].
Qed.

Lemma steps_from (o : nat) (out : list labeled_period) :
  steps o out -> forall i p, nth_error out i = Some p -> o <= offset p.
Proof.
  induction 1 as [| o o' p0 out Hp Ho Hs IH]; intros i p Hi.
  - destruct i; discriminate.
  - destruct i as [| i]; simpl in Hi.
    + inversion Hi; subst; lia.
    + apply IH in Hi; lia.
Qed.

Lemma steps_adjacent (o : nat) (out : list labeled_period) :
  steps o out -> forall i p q,
    nth_error out i = Some p -> nth_error out (S i) = Some q ->
    offset p <= offset q <= offset p + 1.
Proof.
  induction 1 as [| o o' p0 out Hp Ho Hs IH]; intros i p q Hi Hj.
  - destruct i; discriminate.
  - destruct i as [| i]; simpl in Hi, Hj.
    + inversion Hi; subst p0. clear Hi.
      inversion Hs as [| o1 o2 q0 out' Hq Ho2 Hs']; subst; simpl in Hj; [ discriminate | ].
      inversion Hj; subst; lia.
    + eauto.
Qed.

Lemma steps_monotone (o : nat) (out : list labeled_period) :
  steps o out -> forall i j p q, i <= j ->
    nth_error out i = Some p -> nth_error out j = Some q -> offset p <= offset q.
Proof.
  induction 1 as [| o o' p0 out Hp Ho Hs IH]; intros i j p q Hij Hi Hj.
  - destruct i; discriminate.
  - destruct i as [| i]; destruct j as [| j]; simpl in Hi, Hj; try lia.
    + inversion Hi; inversion Hj; subst; lia.
    + inversion Hi; subst. apply (steps_from _ _ Hs) in Hj. lia.
    + apply (IH i j p q); [ lia | assumption | assumption ].
Qed.

End MapperProperties.

Section ConverterClaims.

Import PyStr Re PyDate ForecastPeriodConverter ConverterSpec.

(** C1. The body [.TODAY...N wind 5 to 10 kt.], [.TONIGHT...N wind 5 kt.],
    [.MON...SW wind 10 kt.] (one header per line) issued at
    2024-01-07T08:00:00-08:00 is converted to exactly the three lines
    [D0_DAY (2024-01-07) N wind 5 to 10 kt.], [D0_NIGHT (2024-01-07) N wind 5 kt.]
    and [D1_DAY (2024-01-08) SW wind 10 kt.], joined by newlines, in that order. *)
Theorem convert_end_to_end_example :
  exists forecast_time,
    parse_forecast_timestamp "2024-01-07T08:00:00-08:00" = Some forecast_time
    /\ convert_forecast_periods
         (".TODAY...N wind 5 to 10 kt." ++ nl ++ ".TONIGHT...N wind 5 kt." ++ nl
          ++ ".MON...SW wind 10 kt.")
         forecast_time
       = Some ("D0_DAY (2024-01-07) N wind 5 to 10 kt." ++ nl
               ++ "D0_NIGHT (2024-01-07) N wind 5 kt." ++ nl
               ++ "D1_DAY (2024-01-08) SW wind 10 kt.").
Proof.
  exists sunday_morning. split; vm_compute; reflexivity.
Qed.

(** What the loop does with a regular day period: the label is a day label
    and the offset grows exactly when [next_is_day] holds of the next name. *)
Lemma classify_regular_day (period_name : string) (next : option string) (o : nat) :
  regular_day period_name = true ->
  classify period_name next o = (DAY, if next_is_day next then o + 1 else o).
Proof.
  unfold regular_day, classify, in_list. simpl.
  intros H. apply andb_prop in H. destruct H as [Hn He].
  apply negb_true_iff in He. rewrite He.
  repeat (apply negb_true_iff in Hn; apply orb_false_elim in Hn;
          destruct Hn as [H1 Hn]; try rewrite H1).
  repeat match goal with
         | H : _ || _ = false |- _ =>
             apply orb_false_elim in H; let H1 := fresh in destruct H as [H1 H]; try rewrite H1
         end.
  reflexivity.
Qed.

(** C2. On the body [.MON...N wind 10 kt.] followed by
    [.REST OF TODAY...N wind 5 kt.] the regular day period MON is labeled
    D0_DAY, and although the next period is the same-day alias REST OF TODAY
    the offset is incremented: the second line is labeled D1_DAY and dated one
    day later. *)
Theorem day_then_rest_of_today_increments :
  next_is_day (Some "REST OF TODAY") = true
  /\ option_map (map offset)
       (relative_day_mapper monday_morning
          [("MON", "N wind 10 kt."); ("REST OF TODAY", "N wind 5 kt.")])
     = Some [0; 1]
  /\ convert_forecast_periods
       (".MON...N wind 10 kt." ++ nl ++ ".REST OF TODAY...N wind 5 kt.") monday_morning
     = Some ("D0_DAY (2024-01-08) N wind 10 kt." ++ nl
             ++ "D1_DAY (2024-01-09) N wind 5 kt.").
Proof.
  repeat split; vm_compute; reflexivity.
Qed.

(** C3. For the periods TODAY, TONIGHT the mapper emits D0_DAY then D0_NIGHT,
    both dated the issuance date; for TODAY, TONIGHT, TUE, TUE NIGHT, WED it
    emits the offsets 0, 0, 1, 1, 2, TUE dated the issuance date plus one day
    and WED the issuance date plus two days (which must exist in the
    calendar). *)
Theorem today_tonight_offsets (forecast_time : datetime) :
  (forall c1 c2,
     relative_day_mapper forecast_time [("TODAY", c1); ("TONIGHT", c2)]
     = Some [ {| offset := 0; part_of := DAY; target_date := date_of forecast_time;
                 content := collapse c1 |};
              {| offset := 0; part_of := NIGHT; target_date := date_of forecast_time;
                 content := collapse c2 |} ])
  /\ (forall c1 c2 c3 c4 c5,
        valid_date (date_of forecast_time) ->
        (toordinal (date_of forecast_time) + 2 <= _MAXORDINAL)%Z ->
        exists plus1 plus2,
          add_days (date_of forecast_time) 1 = Some plus1
          /\ add_days (date_of forecast_time) 2 = Some plus2
          /\ relative_day_mapper forecast_time
               [("TODAY", c1); ("TONIGHT", c2); ("TUE", c3); ("TUE NIGHT", c4); ("WED", c5)]
             = Some [ {| offset := 0; part_of := DAY; target_date := date_of forecast_time;
                         content := collapse c1 |};
                      {| offset := 0; part_of := NIGHT; target_date := date_of forecast_time;
                         content := collapse c2 |};
                      {| offset := 1; part_of := DAY; target_date := plus1;
                         content := collapse c3 |};
                      {| offset := 1; part_of := NIGHT; target_date := plus1;
                         content := collapse c4 |};
                      {| offset := 2; part_of := DAY; target_date := plus2;
                         content := collapse c5 |} ]).
Proof.
  split.
  - intros c1 c2. unfold relative_day_mapper.
    destruct (hour forecast_time <? 6)%Z; reflexivity.
  - intros c1 c2 c3 c4 c5 [Hlo Hhi] Hr.
    assert (H1 : add_days (date_of forecast_time) 1
                 = Some {| toordinal := toordinal (date_of forecast_time) + 1 |}).
    { unfold add_days.
      replace (0 <? toordinal (date_of forecast_time) + 1)%Z with true
        by (symmetry; apply Z.ltb_lt; lia).
      replace (toordinal (date_of forecast_time) + 1 <=? _MAXORDINAL)%Z with true
        by (symmetry; apply Z.leb_le; lia).
      reflexivity. }
    assert (H2 : add_days (date_of forecast_time) 2
                 = Some {| toordinal := toordinal (date_of forecast_time) + 2 |}).
    { unfold add_days.
      replace (0 <? toordinal (date_of forecast_time) + 2)%Z with true
        by (symmetry; apply Z.ltb_lt; lia).
      replace (toordinal (date_of forecast_time) + 2 <=? _MAXORDINAL)%Z with true
        by (symmetry; apply Z.leb_le; lia).
      reflexivity. }
    do 2 eexists. split; [ exact H1 | split; [ exact H2 | ] ].
    unfold relative_day_mapper.
    replace (if (hour forecast_time <? 6)%Z then 0 else 0) with 0
      by (destruct (hour forecast_time <? 6)%Z; reflexivity).
    cbn [map_periods target_of Nat.ltb Nat.leb].
    change (classify "TODAY" _ 0) with (DAY, 0).
    cbn [map_periods target_of Nat.ltb Nat.leb next_name].
    change (classify "TONIGHT" (Some "TUE") 0) with (NIGHT, 1).
    cbn [map_periods target_of Nat.ltb Nat.leb next_name Z.of_nat Pos.of_succ_nat].
    rewrite H1.
    change (classify "TUE" (Some "TUE NIGHT") 1) with (DAY, 1).
    cbn [map_periods target_of Nat.ltb Nat.leb next_name Z.of_nat Pos.of_succ_nat].
    rewrite H1.
    change (classify "TUE NIGHT" (Some "WED") 1) with (NIGHT, 2).
    cbn [map_periods target_of Nat.ltb Nat.leb next_name Z.of_nat Pos.of_succ_nat Pos.succ].
    rewrite H2.
    change (classify "WED" None 2) with (DAY, 2).
    reflexivity.
Qed.

Lemma today_tonight_offsets_witness :
  exists plus1 plus2,
    isoformat plus1 = "2024-01-08" /\ isoformat plus2 = "2024-01-09"
    /\ option_map (map offset)
         (relative_day_mapper sunday_morning
            [("TODAY", "a"); ("TONIGHT", "b"); ("TUE", "c"); ("TUE NIGHT", "d"); ("WED", "e")])
       = Some [0; 0; 1; 1; 2]
    /\ option_map (map target_date)
         (relative_day_mapper sunday_morning
            [("TODAY", "a"); ("TONIGHT", "b"); ("TUE", "c"); ("TUE NIGHT", "d"); ("WED", "e")])
       = Some [date_of sunday_morning; date_of sunday_morning; plus1; plus1; plus2].
Proof.
  destruct (proj2 (today_tonight_offsets sunday_morning) "a" "b" "c" "d" "e")
    as (plus1 & plus2 & H1 & H2 & H).
  - split; vm_compute; discriminate.
  - vm_compute; discriminate.
  - exists plus1, plus2. rewrite H.
    vm_compute in H1, H2. inversion H1; inversion H2. repeat split.
Defined.

(** C4. For every period list and issuance time, the offsets emitted by the
    mapper, and hence the target dates, never decrease from one emitted
    period to a later one; the mapper emits one period for each input period
    whenever the dates stay within the calendar. *)
Theorem offsets_non_decreasing (forecast_time : datetime) (ps : list (string * string)) :
  (valid_date (date_of forecast_time) ->
   (toordinal (date_of forecast_time) + Z.of_nat (List.length ps) <= _MAXORDINAL)%Z ->
   exists out, relative_day_mapper forecast_time ps = Some out
               /\ List.length out = List.length ps)
  /\ (forall out, relative_day_mapper forecast_time ps = Some out ->
      forall i j p q, i <= j -> nth_error out i = Some p -> nth_error out j = Some q ->
        offset p <= offset q /\ date_le (target_date p) (target_date q)).
Proof.
  unfold relative_day_mapper.
  replace (if (hour forecast_time <? 6)%Z then 0 else 0) with 0
    by (destruct (hour forecast_time <? 6)%Z; reflexivity).
  split.
  - intros Hv Hr.
    destruct (map_periods_total (date_of forecast_time) ps Hv 0 Hr) as [out Hout].
    exists out. split; [ assumption | eapply map_periods_length; eassumption ].
  - intros out Hout i j p q Hij Hi Hj.
    assert (Ho : offset p <= offset q)
      by (eapply steps_monotone; eauto using map_periods_steps).
    split; [ assumption | ].
    unfold date_le.
    rewrite (map_periods_dates _ _ _ _ p Hout (nth_error_In _ _ Hi)).
    rewrite (map_periods_dates _ _ _ _ q Hout (nth_error_In _ _ Hj)).
    lia.
Qed.

Lemma offsets_non_decreasing_witness :
  exists out p q,
    relative_day_mapper sunday_morning [("TODAY", "a"); ("TONIGHT", "b"); ("MON", "c")]
    = Some out
    /\ nth_error out 0 = Some p /\ nth_error out 2 = Some q
    /\ offset p <= offset q /\ date_le (target_date p) (target_date q).
Proof.
  destruct (offsets_non_decreasing sunday_morning
              [("TODAY", "a"); ("TONIGHT", "b"); ("MON", "c")]) as [Htotal Hmono].
  destruct Htotal as (out & Hout & Hlen).
  - split; vm_compute; discriminate.
  - vm_compute; discriminate.
  - destruct out as [| p [| p1 [| q out]]]; try discriminate Hlen.
    exists (p :: p1 :: q :: out), p, q.
    repeat split; try assumption; apply (Hmono _ Hout 0 2 p q); auto.
Defined.

(** C10. For every period list, the offset grows by at most one between two
    consecutive emitted periods: no day number is skipped within a block. *)
Theorem offsets_never_skip (forecast_time : datetime) (ps : list (string * string))
    (out : list labeled_period) :
  relative_day_mapper forecast_time ps = Some out ->
  forall i p q, nth_error out i = Some p -> nth_error out (S i) = Some q ->
    offset p <= offset q <= offset p + 1.
Proof.
  unfold relative_day_mapper.
  replace (if (hour forecast_time <? 6)%Z then 0 else 0) with 0
    by (destruct (hour forecast_time <? 6)%Z; reflexivity).
  intros Hout. eapply steps_adjacent. eapply map_periods_steps. eassumption.
Qed.

Lemma offsets_never_skip_witness :
  exists out p q,
    relative_day_mapper sunday_morning [("TONIGHT", "a"); ("MON", "b"); ("TUE", "c")]
    = Some out
    /\ nth_error out 1 = Some p /\ nth_error out 2 = Some q
    /\ offset p <= offset q <= offset p + 1.
Proof.
  destruct (relative_day_mapper sunday_morning
              [("TONIGHT", "a"); ("MON", "b"); ("TUE", "c")]) as [out|] eqn:Hout;
    [ | vm_compute in Hout; discriminate Hout ].
  pose proof (offsets_never_skip _ _ _ Hout 1) as Hskip.
  vm_compute in Hout. injection Hout as <-.
  do 3 eexists. split; [ reflexivity | ].
  split; [ reflexivity | ]. split; [ reflexivity | ].
  apply Hskip; reflexivity.
Defined.

End ConverterClaims.

(** * Properties of the corruption detector *)

Section CheckFold.

Import PyStr Re ForecastCorruptionDetector DetectorSpec.

Context {A : Type} (step : verdict -> A -> verdict) (fire : A -> bool)
  (cat : A -> string) (ex : A -> list item).
Hypothesis Hspec : check_spec step fire cat ex.

Lemma step_cases (v : verdict) (a : A) :
  (fire a = false /\ step v a = v)
  \/ (fire a = true /\ has_corruption (step v a) = true
      /\ corruption_types (step v a) <> []
      /\ In (cat a) (corruption_types (step v a))
      /\ forall t, In t (corruption_types v) -> In t (corruption_types (step v a))).
Proof.
  destruct (Hspec v a) as (_ & Hno & Hyes).
  destruct (fire a); [ right | left; auto ].
  destruct (Hyes eq_refl) as (Hh & [Ht | [Hin Ht]]); rewrite Ht.
  - repeat split; auto.
    + destruct (corruption_types v); discriminate.
    + apply in_or_app; right; left; reflexivity.
    + intros t Hin; apply in_or_app; auto.
  - repeat split; auto.
    intros E; rewrite E in Hin; contradiction.
Qed.

Lemma fold_has (l : list A) :
  forall v, has_corruption (fold_left step l v) = has_corruption v || existsb fire l.
Proof.
  induction l as [| a l IH]; intros v; simpl.
  - now rewrite orb_false_r.
  - rewrite IH. destruct (step_cases v a) as [[Hf Hv] | (Hf & Hh & _)]; rewrite Hf.
    + now rewrite Hv.
    + rewrite Hh. simpl. now rewrite orb_true_r.
Qed.

Lemma fold_details (l : list A) :
  forall v, corruption_details (fold_left step l v)
            = (corruption_details v ++ flat_map ex l)%list.
Proof.
  induction l as [| a l IH]; intros v; simpl.
  - now rewrite app_nil_r.
  - rewrite IH. destruct (Hspec v a) as (Hd & _). rewrite Hd. now rewrite <- app_assoc.
Qed.

Lemma fold_types_keep (l : list A) :
  forall v t, In t (corruption_types v) -> In t (corruption_types (fold_left step l v)).
Proof.
  induction l as [| a l IH]; intros v t Hin; simpl; [ assumption | ].
  apply IH. destruct (step_cases v a) as [[_ Hv] | (_ & _ & _ & _ & Hk)].
  - now rewrite Hv.
  - auto.
Qed.

Lemma fold_types_add (l : list A) :
  forall v a, In a l -> fire a = true ->
    In (cat a) (corruption_types (fold_left step l v)).
Proof.
  induction l as [| b l IH]; intros v a Hin Hf; simpl; [ contradiction | ].
  destruct Hin as [-> | Hin]; [ | eauto ].
  apply fold_types_keep.
  destruct (step_cases v a) as [[Hf' _] | (_ & _ & _ & Hc & _)]; [ congruence | assumption ].
Qed.

Lemma fold_coherent (l : list A) :
  forall v, coherent v -> coherent (fold_left step l v).
Proof.
  induction l as [| a l IH]; intros v Hv; simpl; [ assumption | ].
  apply IH. destruct (step_cases v a) as [[_ Hs] | (_ & Hh & Ht & _)].
  - now rewrite Hs.
  - unfold coherent. now rewrite Hh.
Qed.

End CheckFold.

Section DetectorChecks.

Import PyStr Re ForecastCorruptionDetector DetectorSpec.

Ltac settle_round :=
  split; [ reflexivity | ];
  split; intro;
  [ first [ congruence | reflexivity ]
  | first [ congruence | split; [ reflexivity | auto ] ] ].

Lemma add_type_cases (t : string) (types : list string) :
  add_type t types = (types ++ [t])%list \/ (In t types /\ add_type t types = types).
Proof.
  unfold add_type. destruct (existsb (String.eqb t) types) eqn:E; [ right | left; auto ].
  split; [ | reflexivity ].
  apply existsb_exists in E. destruct E as (x & Hin & Hx).
  apply String.eqb_eq in Hx. now subst.
Qed.

Lemma check_pattern_spec (keep : item -> item) (fl : flags) (forecast_content : string) :
  check_spec (check_pattern keep fl forecast_content) (fires fl forecast_content)
    snd (examples keep fl forecast_content).
Proof.
  intros v [pattern corruption_type].
  unfold check_pattern, fires, examples. simpl.
  destruct (findall pattern forecast_content fl) as [| m ms]; simpl.
  - rewrite app_nil_r. settle_round.
  - settle_round.
Qed.

Lemma check_long_period_spec :
  check_spec check_long_period too_long (fun _ => "ABNORMALLY_LONG_PERIOD") long_detail.
Proof.
  intros v m. unfold check_long_period, long_detail, too_long, stripped_content.
  destruct (name_content m) as [period_name period_content]. simpl.
  destruct (1000 <? String.length (strip period_content)); simpl.
  - settle_round.
  - rewrite app_nil_r. settle_round.
Qed.

Lemma check_timestamps_spec :
  check_spec (fun v c => check_timestamps c v)
    (fun c => 0 <? List.length (timestamps_of c))
    (fun _ => "EMBEDDED_TIMESTAMPS") (fun c => firstn 2 (timestamps_of c)).
Proof.
  intros v c. unfold check_timestamps, timestamps_of.
  destruct (findall timestamp_pattern c no_flags) as [| m ms]; unfold Nat.ltb; simpl.
  - rewrite app_nil_r. settle_round.
  - settle_round.
Qed.

Lemma check_keyword_spec (forecast_content : string) :
  check_spec (check_keyword forecast_content) (keyword_found forecast_content)
    (fun _ => "NON_WEATHER_CONTENT") (keyword_detail forecast_content).
Proof.
  intros v keyword. unfold check_keyword, keyword_detail, keyword_found.
  destruct (contains (lower forecast_content) (lower keyword)); simpl.
  - settle_round. apply add_type_cases.
  - rewrite app_nil_r. settle_round.
Qed.

Lemma check_short_period_spec :
  check_spec check_short_period too_short (fun _ => "EXTREMELY_SHORT_PERIOD") short_detail.
Proof.
  intros v m. unfold check_short_period, short_detail, too_short, stripped_content.
  destruct (name_content m) as [period_name period_content]. simpl.
  destruct (String.length (strip period_content) <? 10); simpl.
  - settle_round. apply add_type_cases.
  - rewrite app_nil_r. settle_round.
Qed.

(** [detect_corruption_patterns] as the seven checks in a row. *)
Lemma detect_unfold (forecast_content : string) :
  detect_corruption_patterns forecast_content
  = fold_left check_short_period (periods_of forecast_content)
      (fold_left (check_keyword forecast_content) non_weather_keywords
         (fold_left (fun v c => check_timestamps c v) [forecast_content]
            (fold_left check_long_period (periods_of forecast_content)
               (fold_left (check_pattern dotted f_multiline forecast_content)
                  anomalous_patterns
                  (fold_left (check_pattern dotted f_multiline forecast_content)
                     truncated_patterns
                     (fold_left (check_pattern (fun m => m) f_multiline_dotall
                                   forecast_content)
                        nws_patterns clean)))))).
Proof. reflexivity. Qed.

Lemma detect_has (forecast_content : string) :
  has_corruption (detect_corruption_patterns forecast_content)
  = any_finding forecast_content.
Proof.
  rewrite detect_unfold. unfold any_finding.
  rewrite (fold_has _ _ _ _ check_short_period_spec).
  rewrite (fold_has _ _ _ _ (check_keyword_spec forecast_content)).
  rewrite (fold_has _ _ _ _ check_timestamps_spec).
  rewrite (fold_has _ _ _ _ check_long_period_spec).
  rewrite !(fold_has _ _ _ _ (check_pattern_spec _ _ forecast_content)).
  simpl existsb at 5. rewrite orb_false_r. reflexivity.
Qed.

Lemma detect_details (forecast_content : string) :
  corruption_details (detect_corruption_patterns forecast_content)
  = all_details forecast_content.
Proof.
  rewrite detect_unfold. unfold all_details.
  rewrite (fold_details _ _ _ _ check_short_period_spec).
  rewrite (fold_details _ _ _ _ (check_keyword_spec forecast_content)).
  rewrite (fold_details _ _ _ _ check_timestamps_spec).
  rewrite (fold_details _ _ _ _ check_long_period_spec).
  rewrite !(fold_details _ _ _ _ (check_pattern_spec _ _ forecast_content)).
  change (flat_map (fun c => firstn 2 (timestamps_of c)) [forecast_content])
    with (firstn 2 (timestamps_of forecast_content) ++ [])%list.
  rewrite app_nil_r.
  change (corruption_details clean) with (@nil item).
  rewrite app_nil_l, <- !app_assoc. reflexivity.
Qed.

Lemma detect_coherent (forecast_content : string) :
  coherent (detect_corruption_patterns forecast_content).
Proof.
  rewrite detect_unfold.
  apply (fold_coherent _ _ _ _ check_short_period_spec).
  apply (fold_coherent _ _ _ _ (check_keyword_spec forecast_content)).
  apply (fold_coherent _ _ _ _ check_timestamps_spec).
  apply (fold_coherent _ _ _ _ check_long_period_spec).
  do 3 apply (fold_coherent _ _ _ _ (check_pattern_spec _ _ forecast_content)).
  split; reflexivity.
Qed.

End DetectorChecks.

Section DetectorClaims.

Import PyStr Re ForecastCorruptionDetector DetectorSpec.

Lemma examples_at_most_three (keep : item -> item) (fl : flags) (forecast_content : string)
    (p : regex * string) :
  List.length (examples keep fl forecast_content p) <= 3.
Proof.
  unfold examples. rewrite length_map. apply firstn_le_length.
Qed.

(** Every category whose check finds something is in [corruption_types]. *)
Lemma detect_retains (forecast_content : string) :
  let v := detect_corruption_patterns forecast_content in
  (forall p, In p nws_patterns -> fires f_multiline_dotall forecast_content p = true ->
     In (snd p) (corruption_types v))
  /\ (forall p, In p truncated_patterns -> fires f_multiline forecast_content p = true ->
        In (snd p) (corruption_types v))
  /\ (forall p, In p anomalous_patterns -> fires f_multiline forecast_content p = true ->
        In (snd p) (corruption_types v))
  /\ (existsb too_long (periods_of forecast_content) = true ->
        In "ABNORMALLY_LONG_PERIOD" (corruption_types v))
  /\ (timestamps_of forecast_content <> [] -> In "EMBEDDED_TIMESTAMPS" (corruption_types v))
  /\ (existsb (keyword_found forecast_content) non_weather_keywords = true ->
        In "NON_WEATHER_CONTENT" (corruption_types v))
  /\ (existsb too_short (periods_of forecast_content) = true ->
        In "EXTREMELY_SHORT_PERIOD" (corruption_types v)).
Proof.
  cbv zeta. rewrite detect_unfold.
  pose proof (fold_types_keep _ _ _ _ check_short_period_spec) as keepS.
  pose proof (fold_types_keep _ _ _ _ (check_keyword_spec forecast_content)) as keepK.
  pose proof (fold_types_keep _ _ _ _ check_timestamps_spec) as keepT.
  pose proof (fold_types_keep _ _ _ _ check_long_period_spec) as keepL.
  pose proof (fold_types_keep _ _ _ _
                (check_pattern_spec dotted f_multiline forecast_content)) as keepP.
  repeat split.
  - intros p Hin Hf. apply keepS, keepK, keepT, keepL, keepP, keepP.
    apply (fold_types_add _ _ snd _
             (check_pattern_spec (fun m => m) f_multiline_dotall forecast_content)); auto.
  - intros p Hin Hf. apply keepS, keepK, keepT, keepL, keepP.
    apply (fold_types_add _ _ snd _
             (check_pattern_spec dotted f_multiline forecast_content)); auto.
  - intros p Hin Hf. apply keepS, keepK, keepT, keepL.
    apply (fold_types_add _ _ snd _
             (check_pattern_spec dotted f_multiline forecast_content)); auto.
  - intros H. apply existsb_exists in H. destruct H as (m & Hin & Hm).
    apply keepS, keepK, keepT.
    apply (fold_types_add _ _ (fun _ => "ABNORMALLY_LONG_PERIOD") _
             check_long_period_spec _ _ m); auto.
  - intros H. apply keepS, keepK.
    apply (fold_types_add _ _ (fun _ => "EMBEDDED_TIMESTAMPS") _
             check_timestamps_spec [forecast_content] _ forecast_content);
      [ left; reflexivity | ].
    destruct (timestamps_of forecast_content); [ contradiction | reflexivity ].
  - intros H. apply existsb_exists in H. destruct H as (k & Hin & Hk).
    apply keepS.
    apply (fold_types_add _ _ (fun _ => "NON_WEATHER_CONTENT") _
             (check_keyword_spec forecast_content) _ _ k); auto.
  - intros H. apply existsb_exists in H. destruct H as (m & Hin & Hm).
    apply (fold_types_add _ _ (fun _ => "EXTREMELY_SHORT_PERIOD") _
             check_short_period_spec _ _ m); auto.
Qed.

(** C6, as stated, fails: a body with four of the non-weather phrases gets
    the single category NON_WEATHER_CONTENT and four details for it. *)
Lemma four_details_for_one_category :
  let v := detect_corruption_patterns four_phrases in
  corruption_types v = ["NON_WEATHER_CONTENT"]
  /\ corruption_details v
     = [ Str "thermal low was over"; Str "pattern will not change"; Str "out 60 NM";
         Str "National Marine Sanctuary" ]
  /\ ~ List.length (corruption_details v) <= 3 * List.length (corruption_types v).
Proof.
  cbv zeta.
  assert (Ht : corruption_types (detect_corruption_patterns four_phrases)
               = ["NON_WEATHER_CONTENT"]) by (vm_compute; reflexivity).
  assert (Hd : corruption_details (detect_corruption_patterns four_phrases)
               = [ Str "thermal low was over"; Str "pattern will not change";
                   Str "out 60 NM"; Str "National Marine Sanctuary" ])
    by (vm_compute; reflexivity).
  rewrite Ht, Hd. repeat split. simpl. lia.
Qed.

(** C6, amended. The verdict retains every matched category; its details are
    the details of the seven checks in order, where an entry of the three
    pattern lists contributes at most 3 of its matches, the embedded time
    stamps at most 2, and each over-long period, each non-weather phrase found
    and each over-short period contributes one detail; the checks are
    additive, so one body may carry several categories. *)
Theorem details_kept_per_check :
  (forall forecast_content,
     let v := detect_corruption_patterns forecast_content in
     corruption_details v = all_details forecast_content
     /\ (forall keep fl p, List.length (examples keep fl forecast_content p) <= 3)
     /\ List.length (firstn 2 (timestamps_of forecast_content)) <= 2
     /\ (forall m, List.length (long_detail m) <= 1 /\ List.length (short_detail m) <= 1)
     /\ (forall k, List.length (keyword_detail forecast_content k) <= 1)
     /\ (forall p, In p nws_patterns ->
           fires f_multiline_dotall forecast_content p = true ->
           In (snd p) (corruption_types v))
     /\ (forall p, In p truncated_patterns \/ In p anomalous_patterns ->
           fires f_multiline forecast_content p = true ->
           In (snd p) (corruption_types v))
     /\ (existsb too_long (periods_of forecast_content) = true ->
           In "ABNORMALLY_LONG_PERIOD" (corruption_types v))
     /\ (timestamps_of forecast_content <> [] ->
           In "EMBEDDED_TIMESTAMPS" (corruption_types v))
     /\ (existsb (keyword_found forecast_content) non_weather_keywords = true ->
           In "NON_WEATHER_CONTENT" (corruption_types v))
     /\ (existsb too_short (periods_of forecast_content) = true ->
           In "EXTREMELY_SHORT_PERIOD" (corruption_types v)))
  /\ corruption_types
       (detect_corruption_patterns
          (".MON THROUGH WED...N wind 10 to 15 kt." ++ nl ++ "2024-01-07T14:00:00-08:00"
           ++ nl ++ ".TUE..."))
     = ["EMBEDDED_TIMESTAMP"; "MULTI_DAY_RANGE"; "EMBEDDED_TIMESTAMPS";
        "EXTREMELY_SHORT_PERIOD"].
Proof.
  split; [ | vm_compute; reflexivity ].
  intros forecast_content v.
  destruct (detect_retains forecast_content) as (Hn & Ht & Ha & Hl & Hs & Hk & Hx).
  split; [ apply detect_details | ].
  split; [ intros; apply examples_at_most_three | ].
  split; [ apply firstn_le_length | ].
  split; [ intros m; unfold long_detail, short_detail;
           destruct (too_long m), (too_short m); simpl; lia | ].
  split; [ intros k; unfold keyword_detail;
           destruct (keyword_found forecast_content k); simpl; lia | ].
  split; [ exact Hn | ].
  split; [ intros p [Hp | Hp]; auto | ].
  repeat split; assumption.
Qed.

Lemma details_kept_per_check_witness :
  In "NON_WEATHER_CONTENT"
    (corruption_types (detect_corruption_patterns "Seas 3 ft out 60 NM.")).
Proof.
  pose proof (proj1 details_kept_per_check "Seas 3 ft out 60 NM.") as H.
  cbv zeta in H.
  destruct H as (_ & _ & _ & _ & _ & _ & _ & _ & _ & Hk & _).
  apply Hk. vm_compute. reflexivity.
Defined.

(** C7. The detector does flag a line that ends in a one- or two-letter
    abbreviation and a header followed by exactly two dots, and does not flag
    a header with three dots; but a header followed by a single dot, as in
    [.MON.N wind 10 to 15 kt.], is matched by none of the three truncation
    patterns and the body is returned as clean. *)
Theorem one_dot_header_not_flagged :
  map (fun p => findall (fst p) ".MON.N wind 10 to 15 kt." f_multiline) truncated_patterns
  = [[]; []; []]
  /\ detect_corruption_patterns ".MON.N wind 10 to 15 kt." = clean
  /\ corruption_types (detect_corruption_patterns ".MON..N wind 10 to 15 kt.")
     = ["INCOMPLETE_DOTS"]
  /\ corruption_types
       (detect_corruption_patterns (".TODAY...N wind 10 to 15 kt." ++ nl ++ ".MO"))
     = ["TRUNCATED_PERIOD"]
  /\ detect_corruption_patterns ".MON...N wind 10 to 15 kt." = clean
  /\ corruption_types
       (detect_corruption_patterns (".MON" ++ String backslash "xN wind 10 to 15 kt."))
     = ["MISSING_DOTS"].
Proof.
  repeat split; vm_compute; reflexivity.
Qed.

(** C9. For every body, [has_corruption] is true exactly when
    [corruption_types] is not empty; the flag is the OR of the findings of
    the checks; and a body with no finding gets the flag false with empty
    [corruption_types] and [corruption_details]. *)
Theorem flag_iff_types_nonempty (forecast_content : string) :
  let v := detect_corruption_patterns forecast_content in
  (has_corruption v = true <-> corruption_types v <> [])
  /\ has_corruption v = any_finding forecast_content
  /\ (any_finding forecast_content = false ->
      has_corruption v = false /\ corruption_types v = [] /\ corruption_details v = []).
Proof.
  cbv zeta.
  pose proof (detect_coherent forecast_content) as Hc.
  pose proof (detect_has forecast_content) as Hh.
  unfold coherent in Hc.
  destruct (has_corruption (detect_corruption_patterns forecast_content)).
  - repeat split; auto; try congruence.
  - destruct Hc as [Ht Hd]. rewrite Ht, Hd.
    repeat split; auto; congruence.
Qed.

Lemma flag_iff_types_nonempty_witness :
  has_corruption (detect_corruption_patterns ".TODAY...N wind 5 to 10 kt.") = false
  /\ corruption_types (detect_corruption_patterns ".TODAY...N wind 5 to 10 kt.") = []
  /\ corruption_details (detect_corruption_patterns ".TODAY...N wind 5 to 10 kt.") = [].
Proof.
  pose proof (flag_iff_types_nonempty ".TODAY...N wind 5 to 10 kt.") as H.
  cbv zeta in H.
  destruct H as (_ & _ & Hclean).
  apply Hclean. vm_compute. reflexivity.
Defined.

End DetectorClaims.

(** * Properties of the matcher and of the block loop *)

Section MatcherProperties.

Import PyStr Re MatcherSpec.

Variable fl : flags.

Lemma rep_loop_map (g : mstate -> mstate) (step : mstate -> cont -> option mstate)
    (greedy : bool) :
  commutes g step ->
  forall fuel lo hi, commutes g (fun st k => rep_loop step greedy lo hi fuel st k).
Proof.
  intros Hstep. induction fuel as [| f IH]; intros lo hi st k k' Hk; simpl; [ reflexivity | ].
  assert (Hmore :
            match hi with
            | Some 0 => None
            | _ => step st (fun st' => if pos st <? pos st'
                                       then rep_loop step greedy (Nat.pred lo)
                                              (option_map Nat.pred hi) f st' k'
                                       else None)
            end
            = option_map g
                match hi with
                | Some 0 => None
                | _ => step st (fun st' => if pos st <? pos st'
                                           then rep_loop step greedy (Nat.pred lo)
                                                  (option_map Nat.pred hi) f st' k
                                           else None)
                end).
  { assert (Hin : forall s,
               (if pos st <? pos s
                then rep_loop step greedy (Nat.pred lo) (option_map Nat.pred hi) f s k'
                else None)
               = option_map g
                   (if pos st <? pos s
                    then rep_loop step greedy (Nat.pred lo) (option_map Nat.pred hi) f s k
                    else None)).
    { intros s. destruct (pos st <? pos s); [ apply IH; assumption | reflexivity ]. }
    destruct hi as [[| h] |]; [ reflexivity | apply Hstep; exact Hin | apply Hstep; exact Hin ]. }
  destruct lo as [| lo]; [ | exact Hmore ].
  destruct greedy.
  - rewrite Hmore.
    match goal with
    | |- context [match ?X with Some _ => _ | None => k st end] => destruct X
    end; simpl; [ reflexivity | apply Hk ].
  - rewrite Hk. destruct (k st); simpl; [ reflexivity | exact Hmore ].
Qed.

Lemma rmatch_map (g : mstate -> mstate) (r : regex) : commutes g (rmatch fl r).
Proof.
  induction r as [ | c | p | | r1 IH1 r2 IH2 | r1 IH1 r2 IH2 | greedy lo hi r1 IH1
                 | n r1 IH1 | b r1 IH1 | | | ];
    intros st k k' Hk; cbn [rmatch].
  - apply Hk.
  - unfold one_char. destruct (advance st) as [[a st']|]; [ | reflexivity ].
    destruct (Ascii.eqb c a); [ apply Hk | reflexivity ].
  - unfold one_char. destruct (advance st) as [[a st']|]; [ | reflexivity ].
    destruct (p a); [ apply Hk | reflexivity ].
  - unfold one_char. destruct (advance st) as [[a st']|]; [ | reflexivity ].
    destruct (DOTALL fl || negb (is_nl a)); [ apply Hk | reflexivity ].
  - apply IH1. intros s. apply IH2. exact Hk.
  - rewrite (IH1 st k k' Hk), (IH2 st k k' Hk).
    destruct (rmatch fl r1 st k); reflexivity.
  - exact (rep_loop_map g (rmatch fl r1) greedy IH1 _ lo hi st k k' Hk).
  - apply IH1. intros s. apply Hk.
  - destruct (rmatch fl r1 st Some); destruct b; try reflexivity; apply Hk.
  - destruct (at_bol fl st); [ apply Hk | reflexivity ].
  - destruct (at_eol fl st); [ apply Hk | reflexivity ].
  - destruct (at_end st); [ apply Hk | reflexivity ].
Qed.

Lemma match_here_group (r : regex) (must_advance : bool) (st : mstate) :
  match_here fl (Grp 1 r) must_advance st
  = option_map (whole st) (match_here fl r must_advance st).
Proof.
  unfold match_here. simpl.
  apply (rmatch_map (whole st) r). intros s. unfold whole. simpl.
  destruct (must_advance && (pos s =? pos st)); reflexivity.
Qed.

(** The first match of [(r)], for [r] without groups, is the first match of
    [r], and its group 1 is the whole match. *)
Lemma scan_group_first (r : regex) :
  ngroups r = 0 ->
  forall fuel must_advance st m,
    hd_error (scan fl (Grp 1 r) fuel must_advance st) = Some m ->
    exists m', hd_error (scan fl r fuel must_advance st) = Some m'
               /\ group0 m' = nth 0 (groups m) "".
Proof.
  intros Hg. induction fuel as [| f IH]; intros must_advance st m; simpl; [ discriminate | ].
  rewrite match_here_group.
  destruct (match_here fl r must_advance st) as [st'|]; simpl.
  - intros H. inversion H; subst m. eexists. split; [ reflexivity | ].
    unfold mk_match. cbn [group0 groups ngroups m_start m_end]. rewrite Hg.
    reflexivity.
  - destruct (advance st) as [[a st1]|]; [ apply IH | discriminate ].
Qed.

End MatcherProperties.

Section ProcessorClaims.

Import PyStr Re PyDate ForecastCorruptionDetector ForecastPeriodConverter.
Import NWSForecastProcessor ProcessorSpec.

Lemma in_list_In (x : string) (l : list string) : In x l -> in_list x l = true.
Proof.
  intros H. unfold in_list. apply existsb_exists. exists x. split; [ assumption | ].
  apply String.eqb_refl.
Qed.

Lemma analyze_blocks_keeps (blocks : list string) :
  forall acc c, In c acc -> In c (analyze_blocks acc blocks).
Proof.
  induction blocks as [| b blocks IH]; intros acc c Hin; simpl; [ assumption | ].
  destruct (analyze_block b); apply IH; [ apply in_or_app; left | ]; assumption.
Qed.

Lemma analyze_blocks_records (blocks : list string) :
  forall acc block c, In block blocks -> analyze_block block = Some c ->
    In c (analyze_blocks acc blocks).
Proof.
  induction blocks as [| b blocks IH]; intros acc block c Hin Hc; simpl; [ contradiction | ].
  destruct Hin as [-> | Hin].
  - rewrite Hc. apply analyze_blocks_keeps. apply in_or_app; right; left; reflexivity.
  - destruct (analyze_block b); eapply IH; eassumption.
Qed.

Lemma search_nonempty (block : string) (m : match_obj) :
  search (Grp 1 timestamp_pattern) block no_flags = Some m -> (block =? "")%string = false.
Proof.
  destruct block; [ vm_compute; discriminate | reflexivity ].
Qed.

Lemma analyze_block_flagged (block : string) (timestamp_match : match_obj) :
  search (Grp 1 timestamp_pattern) (strip block) no_flags = Some timestamp_match ->
  content_after (strip block) (nth 0 (groups timestamp_match) "") <> "" ->
  has_corruption
    (detect_corruption_patterns
       (content_after (strip block) (nth 0 (groups timestamp_match) ""))) = true ->
  exists c, analyze_block block = Some c
            /\ timestamp c = nth 0 (groups timestamp_match) "".
Proof.
  intros Hs Hc Hd. unfold analyze_block.
  rewrite (search_nonempty _ _ Hs), Hs.
  destruct (content_after _ _ =? "")%string eqn:E;
    [ apply String.eqb_eq in E; contradiction | ].
  rewrite Hd. eexists. split; reflexivity.
Qed.

Lemma process_block_skips (corrupted_timestamps : list string) (block : string)
    (timestamp_match : match_obj) :
  search (Grp 1 timestamp_pattern) (strip block) no_flags = Some timestamp_match ->
  In (nth 0 (groups timestamp_match) "") corrupted_timestamps ->
  process_block corrupted_timestamps block = Skipped (nth 0 (groups timestamp_match) "").
Proof.
  intros Hs Hin. unfold process_block.
  rewrite (search_nonempty _ _ Hs).
  unfold search, finditer in Hs |- *.
  destruct (scan_group_first no_flags timestamp_pattern eq_refl _ _ _ _ Hs)
    as (m' & Hm' & Hg).
  rewrite Hm', Hg, (in_list_In _ _ Hin). reflexivity.
Qed.

(** C5. A block whose body the detector flags is skipped by the conversion
    loop: [convert_forecast_periods] is not called for it and nothing is
    appended to the output for it; the emitted blocks are those appended for
    the blocks of the file in order.  In the file [two_block_file] the second
    block holds a second time stamp, is flagged EMBEDDED_TIMESTAMPS and is
    absent from the output. *)
Theorem corrupted_block_never_converted :
  (forall content block timestamp_match,
     In block (split content "$$") ->
     search (Grp 1 timestamp_pattern) (strip block) no_flags = Some timestamp_match ->
     let forecast_content := content_after (strip block) (nth 0 (groups timestamp_match) "") in
     forecast_content <> "" ->
     has_corruption (detect_corruption_patterns forecast_content) = true ->
     let corrupted_forecasts := analyze_forecast_file [] content in
     let o := process_block (map timestamp corrupted_forecasts) block in
     o = Skipped (nth 0 (groups timestamp_match) "")
     /\ conversion_call o = None /\ appended o = [])
  /\ (forall content r, process content = Some r ->
        converted_blocks r
        = flat_map
            (fun block =>
               appended (process_block (map timestamp (analyze_forecast_file [] content)) block))
            (split content "$$"))
  /\ In "EMBEDDED_TIMESTAMPS"
       (corruption_types
          (detect_corruption_patterns
             (".TODAY...N wind 5 to 10 kt." ++ nl ++ "2024-01-07T20:00:00-08:00" ++ nl
              ++ ".TONIGHT...N wind 5 kt.")))
  /\ option_map converted_blocks (process two_block_file)
     = Some [ "Issued: 2024-01-07T08:00:00-08:00" ++ nl ++ nl
              ++ "D0_DAY (2024-01-07) N wind 5 to 10 kt." ++ nl
              ++ "D0_NIGHT (2024-01-07) N wind 5 kt." ++ nl
              ++ "D1_DAY (2024-01-08) SW wind 10 kt.";
              "" ].
Proof.
  split; [ | split; [ | split; vm_compute; auto 10 ] ].
  - intros content block timestamp_match Hin Hs forecast_content Hc Hd corrupted_forecasts o.
    destruct (analyze_block_flagged block timestamp_match Hs Hc Hd) as (c & Hb & Ht).
    assert (Ho : o = Skipped (nth 0 (groups timestamp_match) "")).
    { apply process_block_skips; [ assumption | ].
      rewrite <- Ht. apply in_map.
      unfold corrupted_forecasts, analyze_forecast_file.
      eapply analyze_blocks_records; eassumption. }
    rewrite Ho. repeat split.
  - intros content r. unfold process, process_forecast_file.
    destruct (existsb raised _); [ discriminate | ].
    intros H; inversion H; subst r. simpl. now rewrite flat_map_concat_map, map_map,
      <- flat_map_concat_map.
Qed.

Lemma corrupted_block_never_converted_witness :
  process_block (map timestamp (analyze_forecast_file [] two_block_file)) contaminated_block
  = Skipped "2024-01-07T14:00:00-08:00".
Proof.
  destruct (search (Grp 1 timestamp_pattern) (strip contaminated_block) no_flags)
    as [timestamp_match|] eqn:Hs; [ | vm_compute in Hs; discriminate Hs ].
  assert (Hg : nth 0 (groups timestamp_match) "" = "2024-01-07T14:00:00-08:00")
    by (vm_compute in Hs; injection Hs as <-; reflexivity).
  rewrite <- Hg.
  apply (proj1 corrupted_block_never_converted two_block_file contaminated_block
           timestamp_match).
  - vm_compute. right; left; reflexivity.
  - exact Hs.
  - rewrite Hg. vm_compute. discriminate.
  - rewrite Hg. vm_compute. reflexivity.
Defined.

End ProcessorClaims.

(** * Facts about the string operations *)

Section StringFacts.

Import PyStr.

Lemma length_append (s t : string) :
  String.length (s ++ t) = String.length s + String.length t.
Proof. induction s as [| c s IH]; simpl; [ reflexivity | now rewrite IH ]. Qed.

Lemma append_nil_r (s : string) : (s ++ "")%string = s.
Proof. induction s as [| c s IH]; simpl; [ reflexivity | now rewrite IH ]. Qed.

Lemma append_assoc (s t u : string) : ((s ++ t) ++ u)%string = (s ++ (t ++ u))%string.
Proof. induction s as [| c s IH]; simpl; [ reflexivity | now rewrite IH ]. Qed.

Lemma append_same_length (x y s s' : string) :
  String.length x = String.length y -> (x ++ s)%string = (y ++ s')%string -> x = y /\ s = s'.
Proof.
  revert y. induction x as [| c x IH]; intros [| c' y] Hl H; simpl in *; try discriminate.
  - auto.
  - inversion H; subst. destruct (IH y) as [-> ->]; auto.
Qed.

Lemma append_cancel_r (x y s : string) : (x ++ s)%string = (y ++ s)%string -> x = y.
Proof.
  intros H. apply (append_same_length x y s s); [ | assumption ].
  apply (f_equal String.length) in H. rewrite !length_append in H. lia.
Qed.

Lemma prefix_append (s t : string) : prefix s (s ++ t) = true.
Proof.
  induction s as [| c s IH]; simpl; [ now destruct t | ].
  destruct (ascii_dec c c); [ assumption | congruence ].
Qed.

Lemma drop_append (s t : string) : drop (String.length s) (s ++ t) = t.
Proof. induction s as [| c s IH]; simpl; [ now destruct t | assumption ]. Qed.

Lemma take_append (s t : string) : take (String.length s) (s ++ t) = s.
Proof. induction s as [| c s IH]; simpl; [ now destruct t | now rewrite IH ]. Qed.

Lemma take_length (n : nat) (s : string) : String.length (take n s) <= n.
Proof.
  revert s. induction n as [| n IH]; intros [| c s]; simpl; try lia.
  specialize (IH s). lia.
Qed.

Lemma lower_append (s t : string) : lower (s ++ t) = (lower s ++ lower t)%string.
Proof. induction s as [| c s IH]; simpl; [ reflexivity | now rewrite IH ]. Qed.

Lemma find_hit (s sub : string) : prefix sub s = true -> find s sub = Some 0.
Proof. intros H. destruct s; cbn [find]; rewrite H; reflexivity. Qed.

Lemma find_append (pre sub post : string) : find (pre ++ sub ++ post) sub <> None.
Proof.
  induction pre as [| c pre IH].
  - simpl. rewrite (find_hit _ _ (prefix_append sub post)). discriminate.
  - cbn [append find].
    destruct (prefix sub (String c (pre ++ sub ++ post))); [ discriminate | ].
    destruct (find (pre ++ sub ++ post) sub); [ discriminate | contradiction ].
Qed.

Lemma contains_append (pre sub post : string) : contains (pre ++ sub ++ post) sub = true.
Proof.
  unfold contains. pose proof (find_append pre sub post).
  destruct (find (pre ++ sub ++ post) sub); [ reflexivity | contradiction ].
Qed.

Lemma of_nat_injective (a b : nat) : of_nat a = of_nat b -> a = b.
Proof.
  unfold of_nat. intros H.
  apply (f_equal NilEmpty.uint_of_string) in H.
  rewrite !NilEmpty.usu in H. inversion H as [Hu].
  apply (f_equal Nat.of_uint) in Hu. now rewrite !DecimalNat.Unsigned.of_to in Hu.
Qed.

End StringFacts.

(** * Further properties of the mapping loop *)

Section MapperLocal.

Import PyStr Re PyDate ForecastPeriodConverter ConverterSpec.

(** A night label always comes with an increment of the offset. *)
Lemma classify_night (period_name : string) (next : option string) (o : nat) :
  fst (classify period_name next o) = NIGHT -> snd (classify period_name next o) = o + 1.
Proof.
  unfold classify.
  repeat match goal with
         | |- context [if ?b then _ else _] => destruct b
         end; simpl; intros H; try reflexivity; discriminate H.
Qed.

(** The names that get a night label are not day periods for the test made
    after a regular day. *)
Lemma night_is_not_next_day (n2 : string) (next : option string) (o : nat) :
  fst (classify n2 next o) = NIGHT -> next_is_day (Some n2) = false.
Proof.
  unfold classify, next_is_day, in_list. simpl.
  destruct (n2 =? "REST OF TODAY")%string; [ discriminate | ].
  destruct (n2 =? "REST OF TONIGHT")%string;
    [ intros _; rewrite !orb_true_r; simpl; apply andb_false_r | ].
  destruct (n2 =? "THIS AFTERNOON")%string; [ discriminate | ].
  destruct (n2 =? "TONIGHT")%string; [ intros _; simpl; apply andb_false_r | ].
  destruct (n2 =? "TODAY")%string; [ discriminate | ].
  destruct (endswith n2 " NIGHT"); [ reflexivity | discriminate ].
Qed.

Lemma classify_day_before_night (n1 n2 : string) (next : option string) (o o' : nat) :
  fst (classify n1 (Some n2) o) = DAY -> fst (classify n2 next o') = NIGHT ->
  snd (classify n1 (Some n2) o) = o.
Proof.
  intros Hd Hn. apply night_is_not_next_day in Hn. revert Hd.
  unfold classify. rewrite Hn.
  repeat match goal with
         | |- context [if ?b then _ else _] => destruct b
         end; simpl; intros H; try reflexivity; discriminate H.
Qed.

(** What the loop emits at index [i], read off the input at index [i]. *)
Lemma map_periods_nth (fd : date) (ps : list (string * string)) :
  forall o out i period_name period_content p,
    map_periods fd o ps = Some out ->
    nth_error ps i = Some (period_name, period_content) ->
    nth_error out i = Some p ->
    let next := next_name (skipn (S i) ps) in
    part_of p = fst (classify period_name next (offset p))
    /\ target_of fd (offset p) = Some (target_date p)
    /\ content p = collapse period_content
    /\ forall q, nth_error out (S i) = Some q ->
         offset q = snd (classify period_name next (offset p)).
Proof.
  induction ps as [| [n c] ps IH]; intros o out i period_name period_content p Hout Hi Hp.
  - destruct i; discriminate.
  - apply map_periods_inv in Hout. destruct Hout as (t & rest_out & Ht & Hrest & ->).
    destruct i as [| i]; simpl in Hi, Hp.
    + inversion Hi; subst n c. inversion Hp; subst p. simpl.
      repeat split; auto.
      intros q Hq. destruct ps as [| [n2 c2] ps].
      * inversion Hrest; subst. discriminate.
      * apply map_periods_inv in Hrest. destruct Hrest as (t2 & out2 & _ & _ & ->).
        inversion Hq; reflexivity.
    + apply (IH _ _ _ _ _ _ Hrest Hi Hp).
Qed.

Lemma steps_bound (o : nat) (out : list labeled_period) :
  steps o out -> forall i p, nth_error out i = Some p -> offset p <= o + i.
Proof.
  induction 1 as [| o o' p0 out Hp Ho Hs IH]; intros i p Hi.
  - destruct i; discriminate.
  - destruct i as [| i]; simpl in Hi.
    + inversion Hi; subst; lia.
    + apply IH in Hi; lia.
Qed.

Lemma mapper_is_loop (forecast_time : datetime) (ps : list (string * string)) :
  relative_day_mapper forecast_time ps = map_periods (date_of forecast_time) 0 ps.
Proof.
  unfold relative_day_mapper. destruct (hour forecast_time <? 6)%Z; reflexivity.
Qed.

Lemma nth_error_same_length {A B : Type} (l : list A) (l' : list B) (i : nat) (x : A) :
  List.length l = List.length l' -> nth_error l i = Some x -> exists y, nth_error l' i = Some y.
Proof.
  intros Hl Hx. destruct (nth_error l' i) as [y|] eqn:E; [ eauto | ].
  apply nth_error_None in E. assert (i < List.length l) by (apply nth_error_Some; congruence).
  lia.
Qed.

End MapperLocal.

Section MapperExtras.

Import PyStr Re PyDate ForecastPeriodConverter ConverterSpec.

(** X1. The result of [convert_forecast_periods] depends on the issuance
    date only: two issuance times on the same date, whatever their hour,
    minute and second, give the same text. *)
Theorem hour_does_not_matter (forecast_text : string) (t1 t2 : datetime) :
  date_of t1 = date_of t2 ->
  convert_forecast_periods forecast_text t1 = convert_forecast_periods forecast_text t2.
Proof.
  intros Hd. unfold convert_forecast_periods.
  now rewrite !mapper_is_loop, Hd.
Qed.

Lemma hour_does_not_matter_witness :
  convert_forecast_periods ".TONIGHT...N wind 5 kt." sunday_morning
  = convert_forecast_periods ".TONIGHT...N wind 5 kt."
      {| date_of := {| toordinal := 738892 |}; hour := 3; minute := 30; second := 0 |}.
Proof.
  apply hour_does_not_matter. reflexivity.
Defined.

(** X2. The first emitted period always has offset 0 and the issuance date,
    whatever its name, and the period at index [i] has an offset of at most
    [i], so its date is at most [i] days after the issuance date. *)
Theorem offsets_start_at_zero (forecast_time : datetime) (ps : list (string * string))
    (out : list labeled_period) :
  relative_day_mapper forecast_time ps = Some out ->
  (forall p, nth_error out 0 = Some p ->
     offset p = 0 /\ target_date p = date_of forecast_time)
  /\ (forall i p, nth_error out i = Some p ->
        offset p <= i
        /\ (toordinal (target_date p) <= toordinal (date_of forecast_time) + Z.of_nat i)%Z).
Proof.
  rewrite mapper_is_loop. intros Hout. split.
  - intros p Hp. destruct ps as [| [n c] ps]; [ inversion Hout; subst; discriminate | ].
    apply map_periods_inv in Hout. destruct Hout as (t & rest_out & Ht & _ & ->).
    inversion Hp; subst p. simpl. split; [ reflexivity | ].
    inversion Ht; reflexivity.
  - intros i p Hp.
    pose proof (steps_bound _ _ (map_periods_steps _ _ _ _ Hout) i p Hp) as Hb.
    rewrite (map_periods_dates _ _ _ _ p Hout (nth_error_In _ _ Hp)).
    lia.
Qed.

Lemma offsets_start_at_zero_witness :
  exists out p,
    relative_day_mapper sunday_morning [("WED", "N wind 5 kt."); ("THU", "N wind 5 kt.")]
    = Some out
    /\ nth_error out 0 = Some p /\ offset p = 0 /\ target_date p = date_of sunday_morning.
Proof.
  destruct (relative_day_mapper sunday_morning
              [("WED", "N wind 5 kt."); ("THU", "N wind 5 kt.")]) as [out|] eqn:Hout;
    [ | vm_compute in Hout; discriminate Hout ].
  pose proof (proj1 (offsets_start_at_zero _ _ _ Hout)) as Hfirst.
  vm_compute in Hout. injection Hout as <-.
  do 2 eexists. split; [ reflexivity | ]. split; [ reflexivity | ].
  apply Hfirst. reflexivity.
Defined.

(** X3. A period labeled DAY that is directly followed by a period labeled
    NIGHT shares its offset and its target date with it. *)
Theorem night_shares_day_offset (forecast_time : datetime) (ps : list (string * string))
    (out : list labeled_period) (i : nat) (p q : labeled_period) :
  relative_day_mapper forecast_time ps = Some out ->
  nth_error out i = Some p -> nth_error out (S i) = Some q ->
  part_of p = DAY -> part_of q = NIGHT ->
  offset q = offset p /\ target_date q = target_date p.
Proof.
  rewrite mapper_is_loop. intros Hout Hp Hq Hd Hn.
  pose proof (map_periods_length _ _ _ _ Hout) as Hlen.
  destruct (nth_error_same_length out ps i p Hlen Hp) as [[n1 c1] H1].
  destruct (nth_error_same_length out ps (S i) q Hlen Hq) as [[n2 c2] H2].
  destruct (map_periods_nth _ _ _ _ _ _ _ _ Hout H1 Hp) as (Hp1 & Hp2 & _ & Hp4).
  destruct (map_periods_nth _ _ _ _ _ _ _ _ Hout H2 Hq) as (Hq1 & Hq2 & _ & _).
  assert (Hnext : next_name (skipn (S i) ps) = Some n2).
  { clear - H2. revert i H2. induction ps as [| x ps IH]; intros i H2; [ discriminate | ].
    destruct i as [| i]; simpl in *.
    - destruct ps as [| [n c] ps]; [ discriminate | ]. inversion H2; reflexivity.
    - apply IH; assumption. }
  rewrite Hnext in Hp1, Hp4.
  assert (Ho : offset q = offset p).
  { rewrite (Hp4 q Hq).
    eapply classify_day_before_night; [ congruence | rewrite <- Hq1; exact Hn ]. }
  split; [ exact Ho | ].
  rewrite Ho in Hq2. congruence.
Qed.

Lemma night_shares_day_offset_witness :
  exists out p q,
    relative_day_mapper sunday_morning [("TONIGHT", "a"); ("MON", "b"); ("MON NIGHT", "c")]
    = Some out
    /\ nth_error out 1 = Some p /\ nth_error out 2 = Some q
    /\ offset q = offset p /\ target_date q = target_date p.
Proof.
  destruct (relative_day_mapper sunday_morning
              [("TONIGHT", "a"); ("MON", "b"); ("MON NIGHT", "c")]) as [out|] eqn:Hout;
    [ | vm_compute in Hout; discriminate Hout ].
  pose proof (fun p q => night_shares_day_offset _ _ _ 1 p q Hout) as Hpair.
  vm_compute in Hout. injection Hout as <-.
  do 3 eexists. split; [ reflexivity | ].
  split; [ reflexivity | ]. split; [ reflexivity | ].
  apply Hpair; reflexivity.
Defined.

(** X4. The period after a period labeled NIGHT has an offset exactly one
    larger, so no two periods of a block carry the same NIGHT label. *)
Theorem night_labels_are_unique (forecast_time : datetime) (ps : list (string * string))
    (out : list labeled_period) :
  relative_day_mapper forecast_time ps = Some out ->
  (forall i p q, nth_error out i = Some p -> nth_error out (S i) = Some q ->
     part_of p = NIGHT -> offset q = offset p + 1)
  /\ (forall i j p q, i < j -> nth_error out i = Some p -> nth_error out j = Some q ->
        part_of p = NIGHT ->
        offset p < offset q
        /\ (part_of q = NIGHT -> relative_label p <> relative_label q)).
Proof.
  rewrite mapper_is_loop. intros Hout.
  pose proof (map_periods_length _ _ _ _ Hout) as Hlen.
  assert (Hnext : forall i p q, nth_error out i = Some p -> nth_error out (S i) = Some q ->
                    part_of p = NIGHT -> offset q = offset p + 1).
  { intros i p q Hp Hq Hn.
    destruct (nth_error_same_length out ps i p Hlen Hp) as [[n1 c1] H1].
    destruct (map_periods_nth _ _ _ _ _ _ _ _ Hout H1 Hp) as (Hp1 & _ & _ & Hp4).
    rewrite (Hp4 q Hq). apply classify_night. congruence. }
  split; [ exact Hnext | ].
  intros i j p q Hij Hp Hq Hn.
  assert (Hlt : offset p < offset q).
  { assert (Hsi : S i < List.length out)
      by (assert (j < List.length out) by (apply nth_error_Some; congruence); lia).
    destruct (nth_error out (S i)) as [p'|] eqn:Hp'; [ | apply nth_error_None in Hp'; lia ].
    pose proof (Hnext i p p' Hp Hp' Hn).
    pose proof (steps_monotone _ _ (map_periods_steps _ _ _ _ Hout) (S i) j p' q Hij Hp' Hq).
    lia. }
  split; [ exact Hlt | ].
  intros Hq' Heq. unfold relative_label in Heq. rewrite Hn, Hq' in Heq.
  simpl in Heq. inversion Heq as [H'].
  apply append_cancel_r, of_nat_injective in H'. lia.
Qed.

Lemma night_labels_are_unique_witness :
  exists out p q,
    relative_day_mapper sunday_morning [("TONIGHT", "a"); ("MON", "b"); ("MON NIGHT", "c")]
    = Some out
    /\ nth_error out 0 = Some p /\ nth_error out 2 = Some q
    /\ offset p < offset q /\ relative_label p <> relative_label q.
Proof.
  destruct (relative_day_mapper sunday_morning
              [("TONIGHT", "a"); ("MON", "b"); ("MON NIGHT", "c")]) as [out|] eqn:Hout;
    [ | vm_compute in Hout; discriminate Hout ].
  pose proof (proj2 (night_labels_are_unique _ _ _ Hout) 0 2) as Huniq.
  vm_compute in Hout. injection Hout as <-.
  do 3 eexists. split; [ reflexivity | ].
  split; [ reflexivity | ]. split; [ reflexivity | ].
  edestruct Huniq as [Hlt Hne]; [ | reflexivity | reflexivity | reflexivity | ].
  - auto.
  - split; [ exact Hlt | apply Hne; reflexivity ].
Defined.

Lemma processed_periods_length (periods : list item) :
  List.length (processed_periods periods) <= List.length periods.
Proof.
  induction periods as [| m periods IH]; simpl; [ lia | ].
  destruct (name_and_content m); simpl; lia.
Qed.

(** X5. [convert_forecast_periods] raises nothing as long as the issuance
    date plus the number of period headers found stays within the calendar. *)
Theorem convert_raises_nothing (forecast_text : string) (forecast_time : datetime) :
  valid_date (date_of forecast_time) ->
  (toordinal (date_of forecast_time)
   + Z.of_nat (List.length (findall period_pattern forecast_text f_dotall))
   <= _MAXORDINAL)%Z ->
  exists converted, convert_forecast_periods forecast_text forecast_time = Some converted.
Proof.
  intros Hv Hr. unfold convert_forecast_periods.
  destruct (findall period_pattern forecast_text f_dotall) as [| m periods] eqn:E;
    [ eauto | ].
  rewrite mapper_is_loop.
  set (l := m :: periods) in *.
  pose proof (processed_periods_length l) as Hl.
  destruct (map_periods_total (date_of forecast_time) (processed_periods l) Hv 0)
    as [out Hout]; [ rewrite Nat.add_0_l; lia | ].
  rewrite Hout. eauto.
Qed.

Lemma convert_raises_nothing_witness :
  exists converted,
    convert_forecast_periods (".TONIGHT...N wind 5 kt." ++ nl ++ ".MON...N wind 10 kt.")
      sunday_morning = Some converted.
Proof.
  apply convert_raises_nothing.
  - split; vm_compute; discriminate.
  - vm_compute; discriminate.
Defined.

End MapperExtras.

(** * Matches that must or cannot happen *)

Section MatchFacts.

Import PyStr Re MatcherSpec TextSpec.

Variable fl : flags.

Lemma consumes_cls (p : ascii -> bool) (c : ascii) :
  p c = true -> consumes fl (Cls p) (String c "").
Proof.
  intros Hp st t k Hr. simpl in Hr. cbn [rmatch]. unfold one_char, advance.
  rewrite Hr, Hp. eexists. split; [ reflexivity | ]. simpl. repeat split. lia.
Qed.

Lemma consumes_chr (c : ascii) : consumes fl (Chr c) (String c "").
Proof.
  intros st t k Hr. simpl in Hr. cbn [rmatch]. unfold one_char, advance.
  rewrite Hr, Ascii.eqb_refl. eexists. split; [ reflexivity | ]. simpl. repeat split. lia.
Qed.

Lemma consumes_seq (r1 r2 : regex) (s1 s2 : string) :
  consumes fl r1 s1 -> consumes fl r2 s2 -> consumes fl (Seq r1 r2) (s1 ++ s2).
Proof.
  intros H1 H2 st t k Hr. rewrite append_assoc in Hr. cbn [rmatch].
  destruct (H1 st (s2 ++ t)%string (fun st1 => rmatch fl r2 st1 k) Hr)
    as (st1 & -> & Hr1 & Hp1 & Hc1).
  destruct (H2 st1 t k Hr1) as (st2 & -> & Hr2 & Hp2 & Hc2).
  exists st2. rewrite length_append. repeat split; [ assumption | lia | congruence ].
Qed.

Lemma consumes_lit (s : string) : consumes fl (lit s) s.
Proof.
  induction s as [| c s IH].
  - intros st t k Hr. simpl in *. exists st. repeat split; [ assumption | lia ].
  - destruct s as [| c' s'].
    + apply consumes_chr.
    + change (lit (String c (String c' s'))) with (Seq (Chr c) (lit (String c' s'))).
      change (String c (String c' s')) with (String c "" ++ String c' s')%string.
      apply consumes_seq; [ apply consumes_chr | exact IH ].
Qed.

Lemma rep_exact (p : ascii -> bool) (n : nat) :
  forall s fuel st t k,
    String.length s = n -> all_chars p s = true -> rest st = (s ++ t)%string -> n < fuel ->
    exists st', rep_loop (rmatch fl (Cls p)) true n (Some n) fuel st k = k st'
                /\ rest st' = t /\ pos st' = pos st + n /\ caps st' = caps st.
Proof.
  induction n as [| n IH]; intros s fuel st t k Hl Hp Hr Hf;
    (destruct fuel as [| f]; [ lia | ]).
  - destruct s; [ | discriminate ]. simpl in Hr. simpl.
    exists st. repeat split; [ assumption | lia ].
  - destruct s as [| c s]; [ discriminate | ]. simpl in Hl, Hp, Hr.
    apply andb_prop in Hp. destruct Hp as [Hc Hp].
    cbn [rep_loop rmatch Nat.pred option_map]. unfold one_char, advance.
    rewrite Hr, Hc. cbn [pos].
    replace (pos st <? S (pos st)) with true by (symmetry; apply Nat.ltb_lt; lia).
    destruct (IH s f {| pos := S (pos st); prev := Some c; rest := (s ++ t)%string;
                        caps := caps st |} t k)
      as (st' & Heq & Hr' & Hp' & Hc'); [ lia | assumption | reflexivity | lia | ].
    exists st'. simpl in Hp', Hc'.
    split; [ exact Heq | repeat split; [ assumption | lia | assumption ] ].
Qed.

Lemma consumes_times (p : ascii -> bool) (n : nat) (s : string) :
  String.length s = n -> all_chars p s = true -> consumes fl (times n (Cls p)) s.
Proof.
  intros Hl Hp st t k Hr. unfold times. cbn [rmatch].
  destruct (rep_exact p n s (S (String.length (rest st))) st t k Hl Hp Hr)
    as (st' & H & Hr' & Hp' & Hc').
  - rewrite Hr, length_append. lia.
  - exists st'. repeat split; [ assumption | assumption | lia | assumption ].
Qed.

(** If the pattern matches at the end of [pre] whatever the state, a scan
    of a text that starts with [pre] finds something. *)
Lemma scan_finds (r : regex) (tail : string) :
  (forall st must_advance, rest st = tail -> match_here fl r must_advance st <> None) ->
  forall pre fuel must_advance st,
    rest st = (pre ++ tail)%string -> String.length pre < fuel ->
    scan fl r fuel must_advance st <> [].
Proof.
  intros Hm. induction pre as [| c pre IH]; intros fuel must_advance st Hr Hf;
    (destruct fuel as [| f]; [ simpl in Hf; lia | ]); simpl.
  - specialize (Hm st must_advance Hr).
    destruct (match_here fl r must_advance st); [ discriminate | contradiction ].
  - destruct (match_here fl r must_advance st); [ discriminate | ].
    unfold advance. rewrite Hr. simpl.
    apply IH; [ reflexivity | simpl in Hf; lia ].
Qed.

Lemma finditer_finds (r : regex) (pre matched post : string) :
  matched <> "" -> consumes fl r matched ->
  finditer r (pre ++ matched ++ post) fl <> [].
Proof.
  intros Hne Hc. unfold finditer.
  apply (scan_finds r (matched ++ post)%string) with (pre := pre).
  - intros st must_advance Hr. unfold match_here.
    destruct (Hc (with_caps st []) post
                (fun st' => if must_advance && (pos st' =? pos st) then None else Some st') Hr)
      as (st' & -> & _ & Hp & _).
    simpl in Hp.
    replace (pos st' =? pos st) with false; [ rewrite andb_false_r; discriminate | ].
    symmetry. apply Nat.eqb_neq. destruct matched; [ contradiction | simpl in Hp; lia ].
  - reflexivity.
  - rewrite length_append. lia.
Qed.

Lemma starts_chr (c : ascii) : starts_with fl (Chr c) c.
Proof.
  intros st k Hn. cbn [rmatch]. unfold one_char, advance.
  destruct (rest st) as [| a t] eqn:E; [ reflexivity | ].
  destruct (Ascii.eqb c a) eqn:Ea; [ | reflexivity ].
  apply Ascii.eqb_eq in Ea. subst a. elim (Hn t). reflexivity.
Qed.

Lemma starts_seq (r1 r2 : regex) (c : ascii) :
  starts_with fl r1 c -> starts_with fl (Seq r1 r2) c.
Proof. intros H st k Hn. cbn [rmatch]. apply H. exact Hn. Qed.

Lemma starts_bol (r : regex) (c : ascii) :
  starts_with fl r c -> starts_with fl (Seq Bol r) c.
Proof.
  intros H st k Hn. cbn [rmatch]. destruct (at_bol fl st); [ apply H; exact Hn | reflexivity ].
Qed.

Lemma scan_nothing (r : regex) (c : ascii) :
  starts_with fl r c ->
  forall fuel must_advance st, free_of c (rest st) = true ->
    scan fl r fuel must_advance st = [].
Proof.
  intros Hs. induction fuel as [| f IH]; intros must_advance st Hfree; simpl; [ reflexivity | ].
  unfold match_here. rewrite Hs.
  - unfold advance. destruct (rest st) as [| a t] eqn:E; [ reflexivity | ].
    apply IH. simpl. unfold free_of in Hfree. simpl in Hfree.
    apply andb_prop in Hfree. apply Hfree.
  - intros t Ht. simpl in Ht. rewrite Ht in Hfree. unfold free_of in Hfree. simpl in Hfree.
    rewrite Ascii.eqb_refl in Hfree. discriminate.
Qed.

Lemma finditer_nothing (r : regex) (c : ascii) (s : string) :
  starts_with fl r c -> free_of c s = true -> finditer r s fl = [].
Proof. intros Hs Hf. unfold finditer. apply (scan_nothing r c Hs). exact Hf. Qed.

End MatchFacts.

Section TextFacts.

Import PyStr Re TextSpec.

Lemma contains_free (c : ascii) (s : string) :
  contains s (String c "") = false -> free_of c s = true.
Proof.
  unfold contains, free_of. induction s as [| a s IH]; [ reflexivity | ].
  cbn [find all_chars prefix].
  destruct (ascii_dec c a) as [-> | Hne].
  - destruct s; discriminate.
  - intros H. replace (Ascii.eqb c a) with false
      by (symmetry; apply Ascii.eqb_neq; assumption).
    simpl. apply IH. destruct (find s (String c "")); [ discriminate | reflexivity ].
Qed.

End TextFacts.

(** * Further properties of the corruption detector *)

Section DetectorExtras.

Import PyStr Re ForecastCorruptionDetector DetectorSpec TextSpec.

Lemma timestamp_consumes (fl : flags) (ts : string) :
  is_timestamp ts -> consumes fl timestamp_pattern ts.
Proof.
  intros (y & mo & dd & hh & mi & ss & [Ly Dy] & [Lmo Dmo] & [Ldd Ddd] & [Lhh Dhh]
          & [Lmi Dmi] & [Lss Dss] & ->).
  unfold timestamp_pattern, d. cbn [seqs].
  repeat apply consumes_seq;
    first [ apply consumes_chr | apply consumes_lit | apply consumes_times; assumption ].
Qed.

Lemma flagged_when_listed (forecast_content t : string) :
  In t (corruption_types (detect_corruption_patterns forecast_content)) ->
  has_corruption (detect_corruption_patterns forecast_content) = true.
Proof.
  intros Hin. pose proof (detect_coherent forecast_content) as Hc. unfold coherent in Hc.
  destruct (has_corruption (detect_corruption_patterns forecast_content)); [ reflexivity | ].
  destruct Hc as [Ht _]. rewrite Ht in Hin. contradiction.
Qed.

Lemma timestamp_in_body_listed (pre ts post : string) :
  is_timestamp ts ->
  In "EMBEDDED_TIMESTAMPS"
    (corruption_types (detect_corruption_patterns (pre ++ ts ++ post))).
Proof.
  intros Hts.
  destruct (detect_retains (pre ++ ts ++ post)) as (_ & _ & _ & _ & Hs & _).
  apply Hs. unfold timestamps_of, findall.
  assert (Hf : finditer timestamp_pattern (pre ++ ts ++ post) no_flags <> []).
  { apply finditer_finds; [ | apply timestamp_consumes; assumption ].
    destruct Hts as (y & mo & dd & hh & mi & ss & [Ly _] & _ & _ & _ & _ & _ & ->).
    destruct y; discriminate. }
  destruct (finditer timestamp_pattern (pre ++ ts ++ post) no_flags);
    [ contradiction | discriminate ].
Qed.

(** X8. A body that contains, anywhere, a text of the shape
    [dddd-dd-ddTdd:dd:dd-08:00] is flagged, with the category
    EMBEDDED_TIMESTAMPS. *)
Theorem embedded_timestamp_always_flagged (pre ts post : string) :
  is_timestamp ts ->
  let v := detect_corruption_patterns (pre ++ ts ++ post) in
  has_corruption v = true /\ In "EMBEDDED_TIMESTAMPS" (corruption_types v).
Proof.
  intros Hts. cbv zeta.
  pose proof (timestamp_in_body_listed pre ts post Hts) as Hin.
  split; [ eapply flagged_when_listed; eassumption | assumption ].
Qed.

Lemma embedded_timestamp_always_flagged_witness :
  has_corruption
    (detect_corruption_patterns
       ("Seas 3 ft. " ++ "2024-01-07T20:00:00-08:00" ++ " N wind 5 kt.")) = true.
Proof.
  assert (Hts : is_timestamp "2024-01-07T20:00:00-08:00")
    by (exists "2024", "01", "07", "20", "00", "00"; repeat split).
  exact (proj1 (embedded_timestamp_always_flagged "Seas 3 ft. " "2024-01-07T20:00:00-08:00"
                  " N wind 5 kt." Hts)).
Defined.

(** X9. A body that contains one of the non-weather phrases, in any mix of
    upper and lower case, is flagged, with the category NON_WEATHER_CONTENT. *)
Theorem phrase_flagged_in_any_case (pre phrase post keyword : string) :
  In keyword non_weather_keywords ->
  lower phrase = lower keyword ->
  let v := detect_corruption_patterns (pre ++ phrase ++ post) in
  has_corruption v = true /\ In "NON_WEATHER_CONTENT" (corruption_types v).
Proof.
  intros Hk Hl. cbv zeta.
  assert (Hin : In "NON_WEATHER_CONTENT"
                  (corruption_types (detect_corruption_patterns (pre ++ phrase ++ post)))).
  { destruct (detect_retains (pre ++ phrase ++ post)) as (_ & _ & _ & _ & _ & Hw & _).
    apply Hw. apply existsb_exists. exists keyword. split; [ assumption | ].
    unfold keyword_found. rewrite !lower_append, Hl. apply contains_append. }
  split; [ eapply flagged_when_listed; eassumption | assumption ].
Qed.

Lemma phrase_flagged_in_any_case_witness :
  has_corruption
    (detect_corruption_patterns ("A " ++ "THERMAL LOW WAS OVER" ++ " Nevada.")) = true.
Proof.
  assert (Hk : In "thermal low was over" non_weather_keywords)
    by (right; left; reflexivity).
  exact (proj1 (phrase_flagged_in_any_case "A " "THERMAL LOW WAS OVER" " Nevada."
                  "thermal low was over" Hk eq_refl)).
Defined.

Lemma fold_pattern_types (keep : item -> item) (fl : flags) (forecast_content : string)
    (ps : list (regex * string)) :
  forall v, corruption_types (fold_left (check_pattern keep fl forecast_content) ps v)
            = (corruption_types v ++ fired_types fl forecast_content ps)%list.
Proof.
  unfold fired_types.
  induction ps as [| [pattern corruption_type] ps IH]; intros v; simpl.
  - now rewrite app_nil_r.
  - rewrite IH. unfold fires. simpl.
    destruct (findall pattern forecast_content fl); simpl; [ reflexivity | ].
    now rewrite <- app_assoc.
Qed.

Lemma fold_long_types (periods : list item) :
  forall v, corruption_types (fold_left check_long_period periods v)
            = (corruption_types v
               ++ map (fun _ => "ABNORMALLY_LONG_PERIOD") (filter too_long periods))%list.
Proof.
  induction periods as [| m periods IH]; intros v; simpl.
  - now rewrite app_nil_r.
  - rewrite IH. unfold check_long_period, too_long, stripped_content.
    destruct (name_content m) as [period_name period_content]. simpl.
    destruct (1000 <? String.length (strip period_content)); simpl; [ | reflexivity ].
    now rewrite <- app_assoc.
Qed.

Lemma add_type_twice (t : string) (types : list string) :
  add_type t (add_type t types) = add_type t types.
Proof.
  unfold add_type at 2. destruct (existsb (String.eqb t) types) eqn:E.
  - unfold add_type. now rewrite E.
  - unfold add_type. rewrite existsb_app, E. simpl. rewrite String.eqb_refl.
    reflexivity.
Qed.

Lemma fold_once_types {A : Type} (step : verdict -> A -> verdict) (fire : A -> bool)
    (t : string) :
  (forall v a, corruption_types (step v a)
               = if fire a then add_type t (corruption_types v) else corruption_types v) ->
  forall l v, corruption_types (fold_left step l v)
              = if existsb fire l then add_type t (corruption_types v)
                else corruption_types v.
Proof.
  intros Hstep. induction l as [| a l IH]; intros v; simpl; [ reflexivity | ].
  rewrite IH, Hstep. destruct (fire a); simpl; [ | reflexivity ].
  destruct (existsb fire l); [ apply add_type_twice | reflexivity ].
Qed.

Lemma keyword_step (forecast_content : string) (v : verdict) (keyword : string) :
  corruption_types (check_keyword forecast_content v keyword)
  = if keyword_found forecast_content keyword
    then add_type "NON_WEATHER_CONTENT" (corruption_types v) else corruption_types v.
Proof.
  unfold check_keyword, keyword_found.
  destruct (contains (lower forecast_content) (lower keyword)); reflexivity.
Qed.

Lemma short_step (v : verdict) (m : item) :
  corruption_types (check_short_period v m)
  = if too_short m
    then add_type "EXTREMELY_SHORT_PERIOD" (corruption_types v) else corruption_types v.
Proof.
  unfold check_short_period, too_short, stripped_content.
  destruct (name_content m) as [period_name period_content]. simpl.
  destruct (String.length (strip period_content) <? 10); reflexivity.
Qed.

Lemma fired_types_fresh (t : string) (fl : flags) (forecast_content : string)
    (ps : list (regex * string)) :
  existsb (String.eqb t) (map snd ps) = false ->
  existsb (String.eqb t) (fired_types fl forecast_content ps) = false.
Proof.
  unfold fired_types. induction ps as [| p ps IH]; simpl; [ reflexivity | ].
  intros H. apply orb_false_elim in H. destruct H as [Hp Hps].
  destruct (fires fl forecast_content p); simpl; [ rewrite Hp | ]; auto.
Qed.

Lemma constant_fresh {A : Type} (t x : string) (l : list A) :
  String.eqb t x = false -> existsb (String.eqb t) (map (fun _ => x) l) = false.
Proof. intros H. induction l as [| a l IH]; simpl; [ reflexivity | now rewrite H ]. Qed.

Lemma once_fresh (t x : string) (b : bool) :
  String.eqb t x = false -> existsb (String.eqb t) (once b x) = false.
Proof. intros H. destruct b; simpl; [ now rewrite H | reflexivity ]. Qed.

Lemma add_type_fresh (t : string) (types : list string) (b : bool) :
  existsb (String.eqb t) types = false ->
  (if b then add_type t types else types) = (types ++ once b t)%list.
Proof.
  intros H. destruct b; simpl; [ | now rewrite app_nil_r ].
  unfold add_type. now rewrite H.
Qed.

Lemma timestamps_step (forecast_content : string) (v : verdict) :
  corruption_types (check_timestamps forecast_content v)
  = (corruption_types v
     ++ once (0 <? List.length (timestamps_of forecast_content)) "EMBEDDED_TIMESTAMPS")%list.
Proof.
  unfold check_timestamps, timestamps_of.
  destruct (0 <? List.length (findall timestamp_pattern forecast_content no_flags)); simpl;
    [ reflexivity | now rewrite app_nil_r ].
Qed.

(** X10. [corruption_types] is exactly the list of the categories that
    fire, in the order of the checks: one entry for every entry of the three
    pattern lists that matches, ABNORMALLY_LONG_PERIOD once for every
    over-long period, and EMBEDDED_TIMESTAMPS, NON_WEATHER_CONTENT and
    EXTREMELY_SHORT_PERIOD at most once each. *)
Theorem types_of_verdict (forecast_content : string) :
  corruption_types (detect_corruption_patterns forecast_content)
  = all_types forecast_content.
Proof.
  rewrite detect_unfold. unfold all_types.
  rewrite (fold_once_types _ _ _ short_step).
  rewrite (fold_once_types _ _ _ (keyword_step forecast_content)).
  cbn [fold_left]. rewrite timestamps_step.
  rewrite fold_long_types, !fold_pattern_types. simpl (corruption_types clean).
  rewrite app_nil_l.
  rewrite (add_type_fresh "NON_WEATHER_CONTENT").
  - rewrite (add_type_fresh "EXTREMELY_SHORT_PERIOD").
    + rewrite <- !app_assoc. reflexivity.
    + rewrite !existsb_app, !fired_types_fresh, constant_fresh, !once_fresh; reflexivity.
  - rewrite !existsb_app, !fired_types_fresh, constant_fresh, once_fresh; reflexivity.
Qed.

End DetectorExtras.

(** * Further properties of the block loop *)

Section ProcessorExtras.

Import PyStr Re PyDate ForecastCorruptionDetector ForecastPeriodConverter.
Import NWSForecastProcessor DetectorSpec ConverterSpec ProcessorSpec TextSpec.

Lemma period_pattern_starts (fl : flags) : starts_with fl period_pattern ".".
Proof.
  unfold period_pattern, header. cbn [seqs].
  apply starts_seq, starts_seq, starts_chr.
Qed.

Lemma warning_pattern_starts (fl : flags) : starts_with fl warning_pattern ".".
Proof.
  unfold warning_pattern. cbn [seqs lit].
  apply starts_bol, starts_seq, starts_seq, starts_chr.
Qed.

Lemma dot_free_finds_nothing (forecast_text : string) :
  contains forecast_text "." = false ->
  findall period_pattern forecast_text f_dotall = []
  /\ findall warning_pattern forecast_text f_multiline = [].
Proof.
  intros H. apply contains_free in H. unfold findall.
  rewrite (finditer_nothing f_dotall _ "." _ (period_pattern_starts _) H).
  rewrite (finditer_nothing f_multiline _ "." _ (warning_pattern_starts _) H).
  split; reflexivity.
Qed.

(** X7. A text without any dot holds no period header and no warning line:
    [convert_forecast_periods] returns it as it is and [extract_warnings]
    finds no warning and leaves it as it is. *)
Theorem dot_free_text_unchanged (forecast_text : string) (forecast_time : datetime) :
  contains forecast_text "." = false ->
  convert_forecast_periods forecast_text forecast_time = Some forecast_text
  /\ extract_warnings forecast_text = (None, forecast_text).
Proof.
  intros H. destruct (dot_free_finds_nothing _ H) as [Hp Hw]. split.
  - unfold convert_forecast_periods. now rewrite Hp.
  - unfold extract_warnings. now rewrite Hw.
Qed.

Lemma dot_free_text_unchanged_witness :
  convert_forecast_periods "Winds light and variable" sunday_morning
  = Some "Winds light and variable".
Proof.
  exact (proj1 (dot_free_text_unchanged "Winds light and variable" sunday_morning eq_refl)).
Defined.

Lemma in_list_iff (x : string) (l : list string) : in_list x l = true <-> In x l.
Proof.
  unfold in_list. rewrite existsb_exists. split.
  - intros (y & Hin & Hy). apply String.eqb_eq in Hy. now subst.
  - intros Hin. exists x. split; [ assumption | apply String.eqb_refl ].
Qed.

Lemma plain_search_nonempty (block : string) (m : match_obj) :
  search timestamp_pattern block no_flags = Some m -> (block =? "")%string = false.
Proof.
  destruct block; [ vm_compute; discriminate | reflexivity ].
Qed.

Lemma analyze_blocks_app (blocks : list string) :
  forall acc, analyze_blocks acc blocks = (acc ++ analyze_blocks [] blocks)%list.
Proof.
  induction blocks as [| b blocks IH]; intros acc; simpl.
  - now rewrite app_nil_r.
  - destruct (analyze_block b) as [c|]; [ | apply IH ].
    rewrite (IH (acc ++ [c])%list), (IH [c]). now rewrite <- app_assoc.
Qed.

Lemma analyze_blocks_origin (blocks : list string) (c : corrupted) :
  In c (analyze_blocks [] blocks) ->
  exists block, In block blocks /\ analyze_block block = Some c.
Proof.
  induction blocks as [| b blocks IH]; simpl; [ contradiction | ].
  destruct (analyze_block b) as [c'|] eqn:E.
  - rewrite analyze_blocks_app. simpl. intros [<- | Hin]; [ eauto | ].
    destruct (IH Hin) as (block & Hb & Hc). eauto.
  - intros Hin. destruct (IH Hin) as (block & Hb & Hc). eauto.
Qed.

Lemma analyze_block_entry (block : string) (c : corrupted) :
  analyze_block block = Some c ->
  c_types c <> [] /\ String.length (content_preview c) <= 203.
Proof.
  unfold analyze_block.
  destruct (strip block =? "")%string; [ discriminate | ].
  destruct (search (Grp 1 timestamp_pattern) (strip block) no_flags) as [m|];
    [ | discriminate ].
  set (forecast_content := content_after (strip block) (nth 0 (groups m) "")).
  destruct (forecast_content =? "")%string; [ discriminate | ].
  pose proof (take_length 200 forecast_content) as Ht.
  remember (take 200 forecast_content) as preview eqn:Hpreview. clear Hpreview.
  pose proof (detect_coherent forecast_content) as Hc. unfold coherent in Hc.
  destruct (has_corruption (detect_corruption_patterns forecast_content));
    [ | discriminate ].
  intros H. injection H as <-. cbn [c_types content_preview]. split; [ exact Hc | ].
  destruct (200 <? String.length forecast_content) eqn:E.
  - rewrite length_append. change (String.length "...") with 3. lia.
  - apply Nat.ltb_ge in E. lia.
Qed.

(** X12. [analyze_forecast_file] only adds to [self.corrupted_forecasts]:
    the entries already recorded stay in front, in order; every entry it adds
    comes from a block of the file, carries at least one corruption type and
    has a preview of at most 203 characters. *)
Theorem analysis_accumulates (corrupted_forecasts : list corrupted) (content : string) :
  analyze_forecast_file corrupted_forecasts content
  = (corrupted_forecasts ++ analyze_forecast_file [] content)%list
  /\ (forall c, In c (analyze_forecast_file [] content) ->
        (exists block, In block (split content "$$") /\ analyze_block block = Some c)
        /\ c_types c <> []
        /\ String.length (content_preview c) <= 203).
Proof.
  unfold analyze_forecast_file. split; [ apply analyze_blocks_app | ].
  intros c Hin. destruct (analyze_blocks_origin _ _ Hin) as (block & Hb & Hc).
  split; [ eauto | apply (analyze_block_entry block c Hc) ].
Qed.

Lemma analysis_accumulates_witness :
  exists c, In c (analyze_forecast_file [] two_block_file) /\ c_types c <> [].
Proof.
  destruct (analyze_forecast_file [] two_block_file) as [| c l] eqn:E;
    [ vm_compute in E; discriminate E | ].
  exists c. split; [ left; reflexivity | ].
  assert (Hin : In c (analyze_forecast_file [] two_block_file))
    by (rewrite E; left; reflexivity).
  exact (proj1 (proj2 (proj2 (analysis_accumulates [] two_block_file) c Hin))).
Defined.




Lemma existsb_filter {A : Type} (p : A -> bool) (l : list A) :
  existsb p l = match filter p l with [] => false | _ => true end.
Proof.
  induction l as [| a l IH]; [ reflexivity | ]. cbn [existsb filter].
  destruct (p a); [ reflexivity | exact IH ].
Qed.

Lemma last_not_written (b : string) (blocks : list string) :
  existsb written (b :: blocks) = false -> written (last (b :: blocks) "") = false.
Proof.
  revert b. induction blocks as [| b' blocks IH]; intros b H; cbn [existsb] in H;
    apply orb_false_elim in H; destruct H as [Hb H].
  - exact Hb.
  - change (last (b :: b' :: blocks) "") with (last (b' :: blocks) ""). apply IH. exact H.
Qed.

(** X14. The text written is the blocks that are not blank, joined by the
    delimiter (two newlines, [$$], two newlines); blank blocks write nothing
    where they stand, but when the last block of the list is blank and some
    block was written, the delimiter is written once more at the end. *)
Theorem written_blocks_are_joined (blocks : list string) :
  write_blocks blocks
  = (join delimiter (filter written blocks)
     ++ (if existsb written blocks && negb (written (last blocks ""))
         then delimiter else ""))%string.
Proof.
  induction blocks as [| b r IH]; [ reflexivity | ].
  cbn [write_blocks filter existsb].
  destruct (strip b =? "")%string eqn:Hb.
  - assert (Hw : written b = false) by (unfold written; rewrite Hb; reflexivity).
    rewrite Hw. cbn [orb]. destruct r as [| b' r']; [ reflexivity | ].
    change (last (b :: b' :: r') "") with (last (b' :: r') "").
    rewrite IH. reflexivity.
  - assert (Hw : written b = true) by (unfold written; rewrite Hb; reflexivity).
    rewrite Hw. cbn [orb andb]. destruct r as [| b' r'].
    + cbn [write_blocks filter join last]. rewrite Hw.
      cbn [negb]. rewrite !append_nil_r. reflexivity.
    + change (last (b :: b' :: r') "") with (last (b' :: r') "").
      rewrite IH, (existsb_filter written (b' :: r')).
      destruct (filter written (b' :: r')) as [| x xs] eqn:Hf.
      * assert (He : existsb written (b' :: r') = false)
          by (rewrite existsb_filter, Hf; reflexivity).
        rewrite (last_not_written b' r' He). cbn [negb join andb].
        unfold delimiter. rewrite !append_nil_r. reflexivity.
      * cbn [andb]. change (join delimiter (b :: x :: xs))
          with (b ++ delimiter ++ join delimiter (x :: xs))%string.
        unfold delimiter. rewrite !append_assoc. reflexivity.
Qed.

(** X15. A block that is not excluded, whose time stamp parses and whose
    body holds no dot is emitted as the line [Issued: <time stamp>], an empty
    line and the body as it is, and counts as converted. *)
Theorem dot_free_block_kept_verbatim (corrupted_timestamps : list string) (block : string)
    (m : match_obj) (forecast_time : datetime) :
  search timestamp_pattern (strip block) no_flags = Some m ->
  ~ In (group0 m) corrupted_timestamps ->
  parse_forecast_timestamp (group0 m) = Some forecast_time ->
  content_after (strip block) (group0 m) <> "" ->
  contains (content_after (strip block) (group0 m)) "." = false ->
  process_block corrupted_timestamps block
  = Converted (content_after (strip block) (group0 m)) forecast_time
      ("Issued: " ++ group0 m ++ nl ++ nl ++ content_after (strip block) (group0 m)).
Proof.
  intros Hs Hin Hp Hne Hfree. unfold process_block.
  rewrite (plain_search_nonempty _ _ Hs), Hs.
  destruct (in_list (group0 m) corrupted_timestamps) eqn:E;
    [ apply in_list_iff in E; contradiction | ].
  rewrite Hp.
  destruct (content_after (strip block) (group0 m) =? "")%string eqn:E';
    [ apply String.eqb_eq in E'; contradiction | ].
  destruct (dot_free_finds_nothing _ Hfree) as [Hc Hw].
  unfold extract_warnings, convert_forecast_periods. rewrite Hw, Hc.
  rewrite !append_assoc. reflexivity.
Qed.

Lemma dot_free_block_kept_verbatim_witness :
  process_block [] ("2024-01-07T08:00:00-08:00" ++ nl ++ "Seas 3 ft")
  = Converted "Seas 3 ft" sunday_morning
      ("Issued: 2024-01-07T08:00:00-08:00" ++ nl ++ nl ++ "Seas 3 ft").
Proof.
  destruct (search timestamp_pattern
              (strip ("2024-01-07T08:00:00-08:00" ++ nl ++ "Seas 3 ft")) no_flags)
    as [m|] eqn:Hs; [ | vm_compute in Hs; discriminate Hs ].
  assert (Hg : group0 m = "2024-01-07T08:00:00-08:00")
    by (vm_compute in Hs; injection Hs as <-; reflexivity).
  pose proof (dot_free_block_kept_verbatim [] _ m sunday_morning Hs) as H.
  rewrite Hg in H.
  apply H.
  - intros [].
  - vm_compute. reflexivity.
  - vm_compute. discriminate.
  - vm_compute. reflexivity.
Defined.

End ProcessorExtras.

(** * Blocks that the pipeline keeps back or leaves out *)

Section PipelineExtras.

Import PyStr Re PyDate ForecastCorruptionDetector ForecastPeriodConverter.
Import NWSForecastProcessor DetectorSpec ConverterSpec ProcessorSpec TextSpec.

Lemma timestamp_not_empty (ts : string) : is_timestamp ts -> ts <> "".
Proof.
  intros (y & mo & dd & hh & mi & ss & [Ly _] & _ & _ & _ & _ & _ & ->).
  destruct y; discriminate.
Qed.

(** The first match in a text that starts with a time stamp is that time
    stamp. *)
Lemma search_at_start (ts rest_text : string) :
  is_timestamp ts ->
  exists m, search (Grp 1 timestamp_pattern) (ts ++ rest_text) no_flags = Some m
            /\ nth 0 (groups m) "" = ts.
Proof.
  intros Hts. unfold search, finditer.
  replace (2 * String.length (ts ++ rest_text) + 2)
    with (S (2 * String.length (ts ++ rest_text) + 1)) by lia.
  cbn [scan]. unfold match_here. cbn [rmatch].
  match goal with
  | |- context [rmatch no_flags timestamp_pattern ?st ?k] =>
      destruct (timestamp_consumes no_flags ts Hts st rest_text k eq_refl)
        as (st' & Heq & Hr & Hp & Hc); rewrite Heq
  end.
  cbn [andb]. eexists. split; [ reflexivity | ].
  unfold mk_match. cbn [groups pos rest with_caps start_of set_cap caps].
  change (ngroups (Grp 1 timestamp_pattern)) with 1.
  cbn [seq map nth]. unfold group_or_empty. cbn [cap Nat.eqb].
  simpl in Hp. rewrite Hp, Nat.sub_0_r. apply take_append.
Qed.

Lemma content_after_start (ts rest_text : string) :
  content_after (ts ++ rest_text) ts = strip rest_text.
Proof.
  unfold content_after. rewrite (find_hit _ _ (prefix_append ts rest_text)).
  now rewrite Nat.add_0_l, drop_append.
Qed.

(** X17. In the pipeline (analysis, then conversion of the same file), a
    block that starts with its time stamp and whose body holds a second
    time stamp is always skipped: it is not converted and nothing is written
    for it. *)
Theorem block_with_second_timestamp_skipped
    (content block ts rest_text pre ts2 post : string) :
  In block (split content "$$") ->
  strip block = (ts ++ rest_text)%string ->
  is_timestamp ts ->
  strip rest_text = (pre ++ ts2 ++ post)%string ->
  is_timestamp ts2 ->
  let o := process_block (map timestamp (analyze_forecast_file [] content)) block in
  o = Skipped ts /\ appended o = [] /\ conversion_call o = None.
Proof.
  intros Hin Hb Hts Hbody Hts2. cbv zeta.
  destruct (search_at_start ts rest_text Hts) as (m & Hs & Hg).
  rewrite <- Hb in Hs.
  assert (Hc : content_after (strip block) (nth 0 (groups m) "") = (pre ++ ts2 ++ post)%string)
    by (rewrite Hg, Hb, content_after_start; exact Hbody).
  assert (Hskip : process_block (map timestamp (analyze_forecast_file [] content)) block
                  = Skipped ts).
  { rewrite <- Hg. apply process_block_skips; [ exact Hs | ].
    destruct (analyze_block_flagged block m Hs) as (c & Hrec & Hstamp).
    - rewrite Hc. pose proof (timestamp_not_empty ts2 Hts2) as Hne.
      destruct pre; [ | discriminate ]. destruct ts2; [ contradiction | discriminate ].
    - rewrite Hc. eapply flagged_when_listed. apply timestamp_in_body_listed. exact Hts2.
    - rewrite <- Hstamp. apply in_map. unfold analyze_forecast_file.
      eapply analyze_blocks_records; eassumption. }
  rewrite Hskip. repeat split.
Qed.

Lemma block_with_second_timestamp_skipped_witness :
  process_block (map timestamp (analyze_forecast_file [] two_block_file)) contaminated_block
  = Skipped "2024-01-07T14:00:00-08:00".
Proof.
  assert (H1 : is_timestamp "2024-01-07T14:00:00-08:00")
    by (exists "2024", "01", "07", "14", "00", "00"; repeat split).
  assert (H2 : is_timestamp "2024-01-07T20:00:00-08:00")
    by (exists "2024", "01", "07", "20", "00", "00"; repeat split).
  refine (proj1 (block_with_second_timestamp_skipped two_block_file contaminated_block
                   "2024-01-07T14:00:00-08:00"
                   (nl ++ ".TODAY...N wind 5 to 10 kt." ++ nl ++ "2024-01-07T20:00:00-08:00"
                    ++ nl ++ ".TONIGHT...N wind 5 kt.")
                   (".TODAY...N wind 5 to 10 kt." ++ nl)
                   "2024-01-07T20:00:00-08:00"
                   (nl ++ ".TONIGHT...N wind 5 kt.") _ _ H1 _ H2)).
  - vm_compute. right; left; reflexivity.
  - vm_compute. reflexivity.
  - vm_compute. reflexivity.
Defined.

End PipelineExtras.

(** * Headers with two dots *)

Section TwoDots.

Import PyStr Re ForecastCorruptionDetector DetectorSpec TextSpec.

Variable fl : flags.

Lemma reads_of_consumes (r : regex) (s : string) (ok : string -> Prop) :
  consumes fl r s -> reads fl r s ok.
Proof.
  intros Hc st t k Hr _. destruct (Hc st t k Hr) as (st' & Heq & Hr' & Hp & _).
  exists st'. repeat split; [ assumption | assumption | now rewrite Heq ].
Qed.

Lemma reads_weaken (r : regex) (s : string) (ok ok' : string -> Prop) :
  reads fl r s ok -> (forall t, ok' t -> ok t) -> reads fl r s ok'.
Proof. intros H Hw st t k Hr Ht. apply (H st t k Hr). auto. Qed.

Lemma reads_seq (r1 r2 : regex) (s1 s2 : string) (ok1 ok2 : string -> Prop) :
  reads fl r1 s1 ok1 -> reads fl r2 s2 ok2 -> (forall t, ok2 t -> ok1 (s2 ++ t)%string) ->
  reads fl (Seq r1 r2) (s1 ++ s2) ok2.
Proof.
  intros H1 H2 Hok st t k Hr Ht. rewrite append_assoc in Hr. cbn [rmatch].
  destruct (H1 st (s2 ++ t)%string (fun st1 => rmatch fl r2 st1 k) Hr (Hok t Ht))
    as (st1 & Hr1 & Hp1 & Hk1).
  destruct (H2 st1 t k Hr1 Ht) as (st2 & Hr2 & Hp2 & Hk2).
  exists st2. rewrite length_append. repeat split; [ assumption | lia | ].
  intros Hk. apply Hk1, Hk2, Hk.
Qed.

Lemma reads_grp (n : nat) (r : regex) (s : string) (ok : string -> Prop) :
  reads fl r s ok -> reads fl (Grp n r) s ok.
Proof.
  intros H st t k Hr Ht. cbn [rmatch].
  destruct (H st t (fun st1 => k (set_cap n (take (pos st1 - pos st) (rest st)) st1)) Hr Ht)
    as (st1 & Hr1 & Hp1 & Hk1).
  exists (set_cap n (take (pos st1 - pos st) (rest st)) st1).
  repeat split; assumption.
Qed.

Lemma one_char_miss (p : ascii -> bool) (st : mstate) (k : cont) :
  not_starting p (rest st) -> one_char p st k = None.
Proof.
  intros Hn. unfold one_char, advance. destruct (rest st) as [| c t] eqn:E; [ reflexivity | ].
  now rewrite (Hn c t eq_refl).
Qed.

Lemma rep_reads (p : ascii -> bool) (s : string) :
  forall lo hi fuel st t k,
    all_chars p s = true -> rest st = (s ++ t)%string -> not_starting p t ->
    lo <= String.length s <= hi -> String.length s < fuel ->
    exists st', rest st' = t /\ pos st' = pos st + String.length s
                /\ (k st' <> None ->
                    rep_loop (rmatch fl (Cls p)) true lo (Some hi) fuel st k <> None).
Proof.
  induction s as [| c s IH]; intros lo hi fuel st t k Hp Hr Ht Hl Hf;
    (destruct fuel as [| f]; [ simpl in Hf; lia | ]).
  - simpl in Hr, Hl. assert (lo = 0) by lia. subst lo.
    exists st. repeat split; [ assumption | simpl; lia | ].
    intros Hk. cbn [rep_loop rmatch].
    assert (Hmiss : forall K, one_char p st K = None)
      by (intros K; apply one_char_miss; rewrite Hr; exact Ht).
    destruct hi as [| h]; [ exact Hk | ]. rewrite Hmiss. exact Hk.
  - simpl in Hp, Hr, Hl, Hf. apply andb_prop in Hp. destruct Hp as [Hc Hp].
    destruct hi as [| h]; [ lia | ].
    destruct (IH (Nat.pred lo) h f
                {| pos := S (pos st); prev := Some c; rest := (s ++ t)%string;
                   caps := caps st |} t k Hp eq_refl Ht) as (st' & Hr' & Hp' & Hk');
      [ lia | lia | ].
    exists st'. simpl in Hp'. repeat split; [ assumption | simpl; lia | ].
    intros Hk. specialize (Hk' Hk).
    assert (Hmore :
              rmatch fl (Cls p) st
                (fun st1 => if pos st <? pos st1
                            then rep_loop (rmatch fl (Cls p)) true (Nat.pred lo)
                                   (option_map Nat.pred (Some (S h))) f st1 k
                            else None) <> None).
    { cbn [rmatch option_map Nat.pred]. unfold one_char, advance. rewrite Hr, Hc. cbn [pos].
      replace (pos st <? S (pos st)) with true by (symmetry; apply Nat.ltb_lt; lia).
      exact Hk'. }
    cbn [rep_loop]. destruct lo as [| lo]; [ | exact Hmore ].
    destruct (rmatch fl (Cls p) st _); [ discriminate | contradiction ].
Qed.

Lemma reads_range (p : ascii -> bool) (lo hi : nat) (s : string) :
  all_chars p s = true -> lo <= String.length s <= hi ->
  reads fl (range lo hi (Cls p)) s (not_starting p).
Proof.
  intros Hp Hl st t k Hr Ht. unfold range. cbn [rmatch].
  apply rep_reads; try assumption. rewrite Hr, length_append. lia.
Qed.

Lemma needs_cls (p : ascii -> bool) : needs fl (Cls p) p.
Proof. intros st k Hn. cbn [rmatch]. now apply one_char_miss. Qed.

Lemma needs_seq (r1 r2 : regex) (p : ascii -> bool) :
  needs fl r1 p -> needs fl (Seq r1 r2) p.
Proof. intros H st k Hn. cbn [rmatch]. now apply H. Qed.

Lemma needs_plus (r : regex) (p : ascii -> bool) : needs fl r p -> needs fl (plus r) p.
Proof. intros H st k Hn. unfold plus. cbn [rmatch rep_loop]. now apply H. Qed.

Lemma reads_opt_skip (r : regex) (p : ascii -> bool) :
  needs fl r p -> reads fl (opt r) "" (not_starting p).
Proof.
  intros H st t k Hr Ht. simpl in Hr. exists st. repeat split; [ assumption | simpl; lia | ].
  intros Hk. unfold opt. cbn [rmatch rep_loop]. rewrite H; [ exact Hk | ].
  rewrite Hr. exact Ht.
Qed.

Lemma reads_not_followed (c : ascii) :
  reads fl (Look false (Chr c)) "" (not_starting (Ascii.eqb c)).
Proof.
  intros st t k Hr Ht. simpl in Hr. exists st. repeat split; [ assumption | simpl; lia | ].
  intros Hk. cbn [rmatch]. unfold one_char, advance. rewrite Hr.
  destruct t as [| a t']; [ exact Hk | ]. rewrite (Ht a t' eq_refl). exact Hk.
Qed.

Lemma finditer_finds_at (r : regex) (pre matched post : string) (ok : string -> Prop) :
  matched <> "" -> reads fl r matched ok -> ok post ->
  finditer r (pre ++ matched ++ post) fl <> [].
Proof.
  intros Hne Hread Hok. unfold finditer.
  apply (scan_finds fl r (matched ++ post)%string) with (pre := pre).
  - intros st must_advance Hr. unfold match_here.
    destruct (Hread (with_caps st []) post
                (fun st' => if must_advance && (pos st' =? pos st) then None else Some st')
                Hr Hok) as (st' & _ & Hp & Hk).
    apply Hk. simpl in Hp.
    replace (pos st' =? pos st) with false; [ rewrite andb_false_r; discriminate | ].
    symmetry. apply Nat.eqb_neq. destruct matched; [ contradiction | simpl in Hp; lia ].
  - reflexivity.
  - rewrite length_append. lia.
Qed.

End TwoDots.

Section TwoDotsFlagged.

Import PyStr Re ForecastCorruptionDetector DetectorSpec TextSpec.

Lemma dot_is_no_letter_or_space (t : string) :
  not_starting is_upper ("." ++ t) /\ not_starting is_space ("." ++ t).
Proof. split; intros c t' H; inversion H; reflexivity. Qed.

Lemma two_dot_header_read (fl : flags) (name : string) :
  all_chars is_upper name = true -> 3 <= String.length name <= 7 ->
  reads fl (seqs [Chr "."; Grp 1 period_word; Chr "."; Chr "."; Look false (Chr ".")])
    ("." ++ (name ++ "") ++ "." ++ "." ++ "") (not_starting (Ascii.eqb ".")).
Proof.
  intros Hu Hl. cbn [seqs]. unfold period_word, AZ, s_.
  apply reads_seq with (ok1 := fun _ => True);
    [ apply reads_of_consumes, consumes_chr | | auto ].
  apply reads_seq
    with (ok1 := fun t => not_starting is_upper t /\ not_starting is_space t).
  - apply reads_grp.
    apply reads_seq with (ok1 := not_starting is_upper).
    + apply reads_range; assumption.
    + eapply reads_weaken;
        [ apply reads_opt_skip, needs_seq, needs_plus, needs_cls | intros t [_ H]; exact H ].
    + intros t [H _]. exact H.
  - apply reads_seq with (ok1 := fun _ => True);
      [ apply reads_of_consumes, consumes_chr | | auto ].
    apply reads_seq with (ok1 := fun _ => True);
      [ apply reads_of_consumes, consumes_chr | apply reads_not_followed | auto ].
  - intros t _. apply dot_is_no_letter_or_space.
Qed.

(** X18. A header made of a dot, 3 to 7 capital letters and exactly two
    dots (the text after them not starting with a dot), anywhere in a body,
    gets the body flagged with the category INCOMPLETE_DOTS. *)
Theorem two_dot_header_flagged (pre name post : string) :
  all_chars is_upper name = true -> 3 <= String.length name <= 7 ->
  not_starting (Ascii.eqb ".") post ->
  let v := detect_corruption_patterns (pre ++ "." ++ name ++ ".." ++ post) in
  has_corruption v = true /\ In "INCOMPLETE_DOTS" (corruption_types v).
Proof.
  intros Hu Hl Hpost. cbv zeta.
  set (body := (pre ++ "." ++ name ++ ".." ++ post)%string).
  assert (Hin : In "INCOMPLETE_DOTS" (corruption_types (detect_corruption_patterns body))).
  { destruct (detect_retains body) as (_ & Ht & _).
    apply (Ht (seqs [Chr "."; Grp 1 period_word; Chr "."; Chr "."; Look false (Chr ".")],
               "INCOMPLETE_DOTS")); [ right; left; reflexivity | ].
    unfold fires, findall. cbn [fst].
    assert (Hf : finditer
                   (seqs [Chr "."; Grp 1 period_word; Chr "."; Chr "."; Look false (Chr ".")])
                   body f_multiline <> []).
    { replace body
        with (pre ++ ("." ++ (name ++ "") ++ "." ++ "." ++ "") ++ post)%string.
      - eapply finditer_finds_at;
          [ discriminate | apply two_dot_header_read; assumption | exact Hpost ].
      - unfold body. rewrite append_nil_r. cbn [append].
        rewrite !append_assoc. reflexivity. }
    destruct (finditer _ body f_multiline); [ contradiction | reflexivity ]. }
  split; [ eapply flagged_when_listed; eassumption | assumption ].
Qed.

Lemma two_dot_header_flagged_witness :
  has_corruption (detect_corruption_patterns ("Seas 3 ft." ++ nl ++ ".TUE..N wind 5 kt."))
  = true.
Proof.
  refine (proj1 (two_dot_header_flagged ("Seas 3 ft." ++ nl) "TUE" "N wind 5 kt." _ _ _)).
  - reflexivity.
  - simpl. lia.
  - intros c t' H. inversion H. reflexivity.
Defined.

End TwoDotsFlagged.

(** * Reading one period *)

Section FirstChoices.

Import PyStr Re TextSpec.

Variable fl : flags.

Lemma first_of_consumes (r : regex) (s : string) (ok : string -> Prop) :
  consumes fl r s -> reads_first fl r s ok [].
Proof.
  intros Hc st t k Hr _. destruct (Hc st t k Hr) as (st' & Heq & Hr' & Hp & Hcaps).
  exists st'. repeat split; try assumption. intros x Hx. now rewrite Heq.
Qed.

Lemma first_weaken (r : regex) (s : string) (ok ok' : string -> Prop)
    (cs : list (nat * string)) :
  reads_first fl r s ok cs -> (forall t, ok' t -> ok t) -> reads_first fl r s ok' cs.
Proof. intros H Hw st t k Hr Ht. apply (H st t k Hr). auto. Qed.

Lemma first_seq (r1 r2 : regex) (s1 s2 : string) (ok1 ok2 : string -> Prop)
    (c1 c2 : list (nat * string)) :
  reads_first fl r1 s1 ok1 c1 -> reads_first fl r2 s2 ok2 c2 ->
  (forall t, ok2 t -> ok1 (s2 ++ t)%string) ->
  reads_first fl (Seq r1 r2) (s1 ++ s2) ok2 (c2 ++ c1).
Proof.
  intros H1 H2 Hok st t k Hr Ht. rewrite append_assoc in Hr. cbn [rmatch].
  destruct (H1 st (s2 ++ t)%string (fun st1 => rmatch fl r2 st1 k) Hr (Hok t Ht))
    as (st1 & Hr1 & Hp1 & Hc1 & Hk1).
  destruct (H2 st1 t k Hr1 Ht) as (st2 & Hr2 & Hp2 & Hc2 & Hk2).
  exists st2. rewrite length_append. repeat split; [ assumption | lia | | ].
  - rewrite Hc2, Hc1. now rewrite app_assoc.
  - intros x Hx. apply Hk1, Hk2, Hx.
Qed.

Lemma first_grp (n : nat) (r : regex) (s : string) (ok : string -> Prop)
    (cs : list (nat * string)) :
  reads_first fl r s ok cs -> reads_first fl (Grp n r) s ok ((n, s) :: cs).
Proof.
  intros H st t k Hr Ht. cbn [rmatch].
  destruct (H st t (fun st1 => k (set_cap n (take (pos st1 - pos st) (rest st)) st1)) Hr Ht)
    as (st1 & Hr1 & Hp1 & Hc1 & Hk1).
  exists (set_cap n (take (pos st1 - pos st) (rest st)) st1).
  repeat split; try assumption.
  cbn [caps set_cap]. rewrite Hc1, Hp1, Hr.
  replace (pos st + String.length s - pos st) with (String.length s) by lia.
  now rewrite take_append.
Qed.

Lemma first_alt_right (r1 r2 : regex) (s : string) (ok : string -> Prop)
    (cs : list (nat * string)) :
  fails_on fl r1 s ok -> reads_first fl r2 s ok cs -> reads_first fl (Alt r1 r2) s ok cs.
Proof.
  intros Hf H st t k Hr Ht. cbn [rmatch]. rewrite (Hf st t k Hr Ht). apply (H st t k Hr Ht).
Qed.

Lemma rep_first (p : ascii -> bool) (s : string) :
  forall lo hi fuel st t k,
    all_chars p s = true -> rest st = (s ++ t)%string -> not_starting p t ->
    lo <= String.length s <= hi -> String.length s < fuel ->
    exists st', rest st' = t /\ pos st' = pos st + String.length s
                /\ caps st' = caps st
                /\ forall x, k st' = Some x ->
                     rep_loop (rmatch fl (Cls p)) true lo (Some hi) fuel st k = Some x.
Proof.
  induction s as [| c s IH]; intros lo hi fuel st t k Hp Hr Ht Hl Hf;
    (destruct fuel as [| f]; [ simpl in Hf; lia | ]).
  - simpl in Hr, Hl. assert (lo = 0) by lia. subst lo.
    exists st. repeat split; [ assumption | simpl; lia | ].
    intros x Hx. cbn [rep_loop rmatch].
    assert (Hmiss : forall K, one_char p st K = None)
      by (intros K; apply one_char_miss; rewrite Hr; exact Ht).
    destruct hi as [| h]; [ now rewrite Hx | ]. rewrite Hmiss. exact Hx.
  - simpl in Hp, Hr, Hl, Hf. apply andb_prop in Hp. destruct Hp as [Hc Hp].
    destruct hi as [| h]; [ lia | ].
    destruct (IH (Nat.pred lo) h f
                {| pos := S (pos st); prev := Some c; rest := (s ++ t)%string;
                   caps := caps st |} t k Hp eq_refl Ht) as (st' & Hr' & Hp' & Hc' & Hk');
      [ lia | lia | ].
    exists st'. simpl in Hp', Hc'. repeat split; [ assumption | simpl; lia | assumption | ].
    intros x Hx. specialize (Hk' x Hx).
    assert (Hmore :
              rmatch fl (Cls p) st
                (fun st1 => if pos st <? pos st1
                            then rep_loop (rmatch fl (Cls p)) true (Nat.pred lo)
                                   (option_map Nat.pred (Some (S h))) f st1 k
                            else None) = Some x).
    { cbn [rmatch option_map Nat.pred]. unfold one_char, advance. rewrite Hr, Hc. cbn [pos].
      replace (pos st <? S (pos st)) with true by (symmetry; apply Nat.ltb_lt; lia).
      exact Hk'. }
    cbn [rep_loop]. destruct lo as [| lo]; [ | exact Hmore ].
    now rewrite Hmore.
Qed.

Lemma first_range (p : ascii -> bool) (lo hi : nat) (s : string) :
  all_chars p s = true -> lo <= String.length s <= hi ->
  reads_first fl (range lo hi (Cls p)) s (not_starting p) [].
Proof.
  intros Hp Hl st t k Hr Ht. unfold range. cbn [rmatch].
  apply rep_first; try assumption. rewrite Hr, length_append. lia.
Qed.

Lemma first_opt_skip (r : regex) (p : ascii -> bool) :
  needs fl r p -> reads_first fl (opt r) "" (not_starting p) [].
Proof.
  intros H st t k Hr Ht. simpl in Hr. exists st.
  repeat split; [ assumption | simpl; lia | ].
  intros x Hx. unfold opt. cbn [rmatch rep_loop]. rewrite H; [ exact Hx | ].
  rewrite Hr. exact Ht.
Qed.

Lemma first_opt_take (c : ascii) (ok : string -> Prop) :
  reads_first fl (opt (Chr c)) (String c "") ok [].
Proof.
  intros st t k Hr _. simpl in Hr.
  exists {| pos := S (pos st); prev := Some c; rest := t; caps := caps st |}.
  repeat split; [ simpl; lia | ].
  intros x Hx. unfold opt. cbn [rmatch rep_loop option_map Nat.pred].
  unfold one_char, advance. rewrite Hr, Ascii.eqb_refl. cbn [pos].
  replace (pos st <? S (pos st)) with true by (symmetry; apply Nat.ltb_lt; lia).
  cbn [String.length rep_loop]. now rewrite Hx.
Qed.

Lemma lit_miss (w : string) :
  forall st k, prefix w (rest st) = false -> rmatch fl (lit w) st k = None.
Proof.
  induction w as [| c w IH]; intros st k Hp.
  - destruct (rest st); discriminate.
  - assert (Hstep : forall K, prefix (String c w) (rest st) = false ->
                      (forall st1, rest st = String c (rest st1) -> prefix w (rest st1) = false) \/
                      rmatch fl (Chr c) st K = None).
    { intros K H. cbn [rmatch]. unfold one_char, advance.
      destruct (rest st) as [| a t] eqn:E; [ right; reflexivity | ].
      destruct (Ascii.eqb c a) eqn:Ea; [ | right; reflexivity ].
      left. intros st1 H1. apply Ascii.eqb_eq in Ea. subst a.
      injection H1 as <-. cbn [prefix] in H. destruct (ascii_dec c c); congruence. }
    destruct w as [| c' w'].
    + cbn [lit]. destruct (Hstep k Hp) as [Hall | Hnone]; [ | exact Hnone ].
      cbn [rmatch]. unfold one_char, advance.
      destruct (rest st) as [| a t] eqn:E; [ reflexivity | ].
      destruct (Ascii.eqb c a) eqn:Ea; [ | reflexivity ].
      apply Ascii.eqb_eq in Ea. subst a.
      specialize (Hall {| pos := 0; prev := None; rest := t; caps := [] |} eq_refl).
      destruct t; discriminate.
    + change (lit (String c (String c' w'))) with (Seq (Chr c) (lit (String c' w'))).
      cbn [rmatch]. unfold one_char, advance.
      destruct (rest st) as [| a t] eqn:E; [ reflexivity | ].
      destruct (Ascii.eqb c a) eqn:Ea; [ | reflexivity ].
      apply Ascii.eqb_eq in Ea. subst a. apply IH. cbn [rest].
      cbn [prefix] in Hp. destruct (ascii_dec c c); [ exact Hp | congruence ].
Qed.

Lemma prefix_split (w s : string) :
  prefix w s = true -> s = (w ++ drop (String.length w) s)%string.
Proof.
  revert s. induction w as [| c w IH]; intros s H.
  - now destruct s.
  - destruct s as [| a s]; [ discriminate | ]. cbn [prefix] in H.
    destruct (ascii_dec c a) as [-> | ]; [ | discriminate ].
    simpl. f_equal. apply IH. exact H.
Qed.

End FirstChoices.

Section SinglePeriod.

Import PyStr Re PyDate ForecastPeriodConverter ConverterSpec TextSpec.

Variable fl : flags.

Lemma upper_not_space (c : ascii) : is_upper c = true -> is_space c = false.
Proof.
  unfold is_upper, is_space, between. generalize (code c). intros n H.
  apply andb_prop in H. destruct H as [H1 H2]. apply Nat.leb_le in H1, H2.
  repeat match goal with
         | |- context [?a <=? ?b] => destruct (Nat.leb_spec a b)
         | |- context [?a =? ?b] => destruct (Nat.eqb_spec a b)
         end; simpl; try reflexivity; lia.
Qed.

Lemma upper_not_dot (c : ascii) : is_upper c = true -> c <> "."%char.
Proof. intros H ->. vm_compute in H. discriminate. Qed.

Lemma no_nl_test (c : ascii) : is_nl c = false -> Ascii.eqb "010" c = false.
Proof.
  intros H. destruct (Ascii.eqb_spec "010" c) as [<- | ]; [ | reflexivity ].
  vm_compute in H. discriminate.
Qed.

Lemma first_caps_eq (r : regex) (s : string) (ok : string -> Prop)
    (cs cs' : list (nat * string)) :
  reads_first fl r s ok cs -> cs = cs' -> reads_first fl r s ok cs'.
Proof. now intros H <-. Qed.

Lemma first_text_eq (r : regex) (s s' : string) (ok : string -> Prop)
    (cs : list (nat * string)) :
  reads_first fl r s ok cs -> s = s' -> reads_first fl r s' ok cs.
Proof. now intros H <-. Qed.

Lemma dot_first_not_upper (t : string) : dot_first t -> not_starting is_upper t.
Proof. intros [t' ->] c u H. inversion H. reflexivity. Qed.

Lemma dot_first_not_space (t : string) : dot_first t -> not_starting is_space t.
Proof. intros [t' ->] c u H. inversion H. reflexivity. Qed.

Lemma after_word_no_space (w : string) :
  forall name t u,
    all_chars is_upper w = true -> all_chars is_upper name = true ->
    (name ++ String "." t)%string = (w ++ u)%string -> not_starting is_space u.
Proof.
  induction w as [| c w IH]; intros name t u Hw Hn Heq.
  - simpl in Heq. subst u. destruct name as [| a name]; intros x y H; inversion H; subst.
    + reflexivity.
    + simpl in Hn. apply andb_prop in Hn. apply upper_not_space, Hn.
  - simpl in Hw. apply andb_prop in Hw. destruct Hw as [Hc Hw].
    destruct name as [| a name]; simpl in Heq; inversion Heq; subst.
    + elim (upper_not_dot _ Hc). reflexivity.
    + simpl in Hn. apply andb_prop in Hn. eapply IH; [ exact Hw | apply Hn | eassumption ].
Qed.

Lemma word_alternative_fails (g : nat) (w : string) (r : regex) (name : string) :
  all_chars is_upper w = true -> all_chars is_upper name = true ->
  fails_on fl (Grp g (Seq (lit w) (Seq (plus s_) r))) name dot_first.
Proof.
  intros Hw Hn st t k Hr [t' ->]. cbn [rmatch].
  destruct (prefix w (rest st)) eqn:P; [ | now apply lit_miss ].
  apply prefix_split in P.
  match goal with
  | |- rmatch fl (lit w) st ?K = None =>
      destruct (consumes_lit fl w st (drop (String.length w) (rest st)) K P)
        as (st1 & Heq & Hr1 & _); rewrite Heq
  end.
  apply (needs_plus fl s_ is_space (needs_cls fl is_space)).
  rewrite Hr1. eapply (after_word_no_space w name t'); try eassumption.
  rewrite <- Hr. exact P.
Qed.

Lemma std_first (name : string) :
  all_chars is_upper name = true -> 3 <= String.length name <= 7 ->
  reads_first fl (Seq (range 3 7 AZ) (opt (Seq (plus s_) (lit "NIGHT")))) name dot_first [].
Proof.
  intros Hu Hl.
  apply first_text_eq with (s := (name ++ "")%string); [ | apply append_nil_r ].
  eapply first_caps_eq.
  - eapply (first_seq fl _ _ name "" (not_starting is_upper) dot_first).
    + apply first_range; assumption.
    + eapply first_weaken;
        [ apply (first_opt_skip fl _ is_space), needs_seq, needs_plus, needs_cls
        | apply dot_first_not_space ].
    + intros t Ht. apply dot_first_not_upper. exact Ht.
  - reflexivity.
Qed.

Lemma header_first (g : nat) (name : string) :
  all_chars is_upper name = true -> 3 <= String.length name <= 7 ->
  reads_first fl (header g) ("." ++ name ++ "." ++ "." ++ ".") (fun _ => True)
    [(g, name); (g + 3, name)].
Proof.
  intros Hu Hl. unfold header. cbn [seqs].
  eapply first_caps_eq.
  - eapply (first_seq fl _ _ "." _ (fun _ => True) (fun _ => True));
      [ apply first_of_consumes, consumes_chr | | auto ].
    eapply (first_seq fl _ _ name _ dot_first (fun _ => True)).
    + apply first_grp.
      apply first_alt_right; [ apply word_alternative_fails; [ reflexivity | exact Hu ] | ].
      apply first_alt_right; [ apply word_alternative_fails; [ reflexivity | exact Hu ] | ].
      apply first_grp. apply std_first; assumption.
    + eapply (first_seq fl _ _ "." _ (fun _ => True) (fun _ => True));
        [ apply first_of_consumes, consumes_chr | | auto ].
      eapply (first_seq fl _ _ "." "." (fun _ => True) (fun _ => True));
        [ apply first_of_consumes, consumes_chr | apply first_opt_take | auto ].
    + intros t _. eexists. reflexivity.
  - reflexivity.
Qed.

Lemma take_all (s : string) : take (String.length s) s = s.
Proof. rewrite <- (append_nil_r s) at 2. rewrite take_append. reflexivity. Qed.

Lemma lazy_to_end (s : string) :
  forall fuel st K,
    rest st = s -> one_line s = true ->
    (forall st1 c t, rest st1 = String c t -> is_nl c = false -> K st1 = None) ->
    String.length s < fuel ->
    exists st', rest st' = "" /\ pos st' = pos st + String.length s
                /\ caps st' = caps st
                /\ rep_loop (rmatch fl Dot) false 0 None fuel st K = K st'.
Proof.
  induction s as [| c s IH]; intros fuel st K Hr Hs HK Hf;
    (destruct fuel as [| f]; [ simpl in Hf; lia | ]).
  - exists st. repeat split; [ assumption | simpl; lia | ].
    cbn [rep_loop rmatch]. unfold one_char, advance. rewrite Hr.
    destruct (K st); reflexivity.
  - unfold one_line in Hs. simpl in Hs. apply andb_prop in Hs. destruct Hs as [Hc Hs].
    apply negb_true_iff in Hc.
    destruct (IH f {| pos := S (pos st); prev := Some c; rest := s; caps := caps st |} K
                eq_refl Hs HK) as (st' & Hr' & Hp' & Hc' & Heq); [ simpl in Hf; lia | ].
    exists st'. simpl in Hp', Hc'. repeat split; [ assumption | simpl; lia | assumption | ].
    cbn [rep_loop rmatch option_map Nat.pred]. rewrite (HK st c s Hr Hc).
    unfold one_char, advance. rewrite Hr, Hc. rewrite orb_true_r. cbn [pos].
    replace (pos st <? S (pos st)) with true by (symmetry; apply Nat.ltb_lt; lia).
    exact Heq.
Qed.

Lemma tail_first (g : nat) (content : string) :
  one_line content = true ->
  reads_first fl
    (Seq (Grp 5 (lazy_star Dot)) (Look true (Alt (Seq (Chr "010") (header g)) EndZ)))
    content (fun t => t = "") [(5, content)].
Proof.
  intros Hc st t k Hr ->. rewrite append_nil_r in Hr. unfold lazy_star.
  set (look := Look true (Alt (Seq (Chr "010") (header g)) EndZ)).
  set (K := fun st1 => rmatch fl look (set_cap 5 (take (pos st1 - pos st) (rest st)) st1) k).
  destruct (lazy_to_end content (S (String.length (rest st))) st K Hr Hc)
    as (st' & Hr' & Hp' & Hc' & Heq).
  - intros st1 c u H1 Hn. unfold K, look. cbn [rmatch]. unfold one_char, advance, at_end.
    cbn [rest set_cap]. rewrite H1, (no_nl_test c Hn). reflexivity.
  - rewrite Hr. lia.
  - exists (with_caps (set_cap 5 content st') (caps (set_cap 5 content st'))).
    cbn [rest pos caps with_caps set_cap]. repeat split; [ assumption | assumption | | ].
    + now rewrite Hc'.
    + intros x Hx.
      change (rep_loop (rmatch fl Dot) false 0 None (S (String.length (rest st))) st K
              = Some x).
      rewrite Heq. unfold K, look. cbn [rmatch]. unfold one_char, advance, at_end.
      cbn [rest set_cap]. rewrite Hr'. rewrite Hp', Hr.
      replace (pos st + String.length content - pos st) with (String.length content) by lia.
      rewrite take_all. exact Hx.
Qed.

Lemma period_first (name content : string) :
  all_chars is_upper name = true -> 3 <= String.length name <= 7 ->
  one_line content = true ->
  reads_first fl period_pattern (("." ++ name ++ "." ++ "." ++ ".") ++ content)
    (fun t => t = "") [(5, content); (1, name); (1 + 3, name)].
Proof.
  intros Hu Hl Hc. unfold period_pattern. cbn [seqs].
  eapply first_caps_eq.
  - eapply (first_seq fl _ _ _ content (fun _ => True) (fun t => t = ""));
      [ apply header_first; assumption | apply tail_first; assumption | auto ].
  - reflexivity.
Qed.

End SinglePeriod.

Section ParserExtras.

Import PyStr Re PyDate ForecastPeriodConverter ConverterSpec TextSpec.

(** On a body made of one header with three dots and a one-line content,
    [findall] returns the one tuple of that period. *)
Lemma findall_single_period (name content : string) :
  all_chars is_upper name = true -> 3 <= String.length name <= 7 ->
  one_line content = true ->
  findall period_pattern ("." ++ name ++ "..." ++ content) f_dotall
  = [Tuple [name; ""; ""; name; content; ""; ""; ""; ""]].
Proof.
  intros Hu Hl Hc.
  assert (Htext : ("." ++ name ++ "..." ++ content)%string
                  = ((("." ++ name ++ "." ++ "." ++ ".") ++ content) ++ "")%string).
  { rewrite append_nil_r. cbn [append]. f_equal. rewrite !append_assoc. reflexivity. }
  unfold findall, finditer.
  replace (2 * String.length ("." ++ name ++ "..." ++ content) + 2)
    with (S (2 * String.length ("." ++ name ++ "..." ++ content) + 1)) by lia.
  cbn [scan]. unfold match_here.
  destruct (period_first f_dotall name content Hu Hl Hc
              (with_caps (start_of ("." ++ name ++ "..." ++ content)) []) ""
              (fun st' =>
                 if false && (pos st' =? pos (start_of ("." ++ name ++ "..." ++ content)))
                 then None else Some st')
              Htext eq_refl) as (st' & Hr & Hp & Hcaps & Hk).
  rewrite (Hk st' eq_refl).
  rewrite (scan_nothing f_dotall period_pattern "." (period_pattern_starts f_dotall));
    [ | rewrite Hr; reflexivity ].
  cbn [map]. unfold findall_item, mk_match. cbn [groups].
  rewrite Hcaps. change (ngroups period_pattern) with 9. reflexivity.
Qed.

(** X19. A body made of one header (a dot, 3 to 7 capital letters, three
    dots) followed by a content without newline gives one line: the label
    [D0_NIGHT] when the name is TONIGHT and [D0_DAY] for every other name,
    then the issuance date and what [collapse] returns for the content.  The
    name is not compared with the calendar: a body [.WED...] issued on a
    Sunday is day 0 of that Sunday. *)
Theorem single_period_converted (name content : string) (forecast_time : datetime) :
  all_chars is_upper name = true -> 3 <= String.length name <= 7 ->
  one_line content = true ->
  convert_forecast_periods ("." ++ name ++ "..." ++ content) forecast_time
  = Some (("D0" ++ (if (name =? "TONIGHT")%string then "_NIGHT" else "_DAY"))
          ++ " (" ++ isoformat (date_of forecast_time) ++ ") " ++ collapse content).
Proof.
  intros Hu Hl Hc. unfold convert_forecast_periods.
  rewrite (findall_single_period name content Hu Hl Hc).
  assert (Hne : (name =? "")%string = false)
    by (destruct name; [ simpl in Hl; lia | reflexivity ]).
  cbn [processed_periods name_and_content nth]. rewrite Hne.
  cbn [negb String.eqb processed_periods].
  rewrite mapper_is_loop. cbn [map_periods target_of Nat.ltb Nat.leb next_name].
  assert (Hclass : classify name None 0
                   = (if (name =? "TONIGHT")%string then NIGHT else DAY,
                      if (name =? "TONIGHT")%string then 1 else 0)).
  { unfold classify. cbn [next_is_day].
    assert (Hsp : forall w, all_chars is_upper w = false -> (name =? w)%string = false).
    { intros w Hw. apply String.eqb_neq. intros ->. congruence. }
    rewrite !Hsp by reflexivity.
    destruct (name =? "TONIGHT")%string; [ reflexivity | ].
    destruct (name =? "TODAY")%string; [ reflexivity | ].
    replace (endswith name " NIGHT") with false; [ reflexivity | ].
    symmetry. unfold endswith.
    destruct (prefix (rev " NIGHT") (rev name)) eqn:P; [ | reflexivity ].
    exfalso. apply prefix_split in P.
    assert (Hall : all_chars is_upper (rev name) = true).
    { clear - Hu. unfold rev.
      assert (H : forall s acc, all_chars is_upper s = true -> all_chars is_upper acc = true ->
                    all_chars is_upper (rev_onto s acc) = true).
      { induction s as [| c s IH]; intros acc Hs Ha; simpl in *; [ assumption | ].
        apply andb_prop in Hs. destruct Hs as [Hc Hs]. apply IH; [ assumption | ].
        simpl. now rewrite Hc, Ha. }
      apply H; [ assumption | reflexivity ]. }
    rewrite P in Hall. vm_compute in Hall. discriminate. }
  rewrite Hclass. cbn [map render relative_label offset part_of target_date
                         ForecastPeriodConverter.content join].
  destruct (name =? "TONIGHT")%string; cbn [of_nat]; rewrite !append_assoc; reflexivity.
Qed.

Lemma single_period_converted_witness :
  convert_forecast_periods ".TONIGHT...N wind 5 kt." sunday_morning
  = Some "D0_NIGHT (2024-01-07) N wind 5 kt.".
Proof.
  refine (eq_trans (single_period_converted "TONIGHT" "N wind 5 kt." sunday_morning _ _ _) _).
  - reflexivity.
  - simpl. lia.
  - reflexivity.
  - vm_compute. reflexivity.
Defined.

End ParserExtras.

(** * Reading a body of several periods *)

Section SeveralPeriods.

Import PyStr Re PyDate ForecastPeriodConverter ConverterSpec TextSpec.

Variable fl : flags.

Lemma look_header_first (g : nat) (name : string) :
  all_chars is_upper name = true -> 3 <= String.length name <= 7 ->
  reads_first fl (Look true (Alt (Seq (Chr "010") (header g)) EndZ)) ""
    (header_next name) [(g, name); (g + 3, name)].
Proof.
  intros Hu Hl st t k Hr [u ->]. simpl in Hr.
  assert (Hseq : reads_first fl (Seq (Chr "010") (header g))
                   (nl ++ ("." ++ name ++ "." ++ "." ++ ".")) (fun _ => True)
                   [(g, name); (g + 3, name)]).
  { eapply first_caps_eq.
    - eapply (first_seq fl _ _ nl _ (fun _ => True) (fun _ => True));
        [ apply first_of_consumes, consumes_chr | apply header_first; assumption | auto ].
    - reflexivity. }
  destruct (Hseq st u Some) as (st1 & _ & _ & Hc1 & Hk1);
    [ rewrite Hr; now rewrite !append_assoc | exact I | ].
  exists (with_caps st (caps st1)). cbn [rest pos caps with_caps].
  repeat split; [ exact Hr | simpl; lia | exact Hc1 | ].
  intros x Hx. pose proof (Hk1 st1 eq_refl) as H1.
  change (match
            (match rmatch fl (Seq (Chr "010") (header g)) st Some with
             | Some y => Some y
             | None => rmatch fl EndZ st Some
             end)
          with
          | Some st2 => k (with_caps st (caps st2))
          | None => None
          end = Some x).
  rewrite H1. exact Hx.
Qed.

Lemma lazy_first (s : string) :
  forall fuel st t K,
    rest st = (s ++ t)%string -> one_line s = true ->
    (forall st1 c u, rest st1 = String c u -> is_nl c = false -> K st1 = None) ->
    String.length s < fuel ->
    exists st', rest st' = t /\ pos st' = pos st + String.length s
                /\ caps st' = caps st
                /\ forall x, K st' = Some x ->
                     rep_loop (rmatch fl Dot) false 0 None fuel st K = Some x.
Proof.
  induction s as [| c s IH]; intros fuel st t K Hr Hs HK Hf;
    (destruct fuel as [| f]; [ simpl in Hf; lia | ]).
  - exists st. repeat split; [ assumption | simpl; lia | ].
    intros x Hx. cbn [rep_loop]. now rewrite Hx.
  - unfold one_line in Hs. simpl in Hs, Hr. apply andb_prop in Hs. destruct Hs as [Hc Hs].
    apply negb_true_iff in Hc.
    destruct (IH f {| pos := S (pos st); prev := Some c; rest := (s ++ t)%string;
                      caps := caps st |} t K eq_refl Hs HK)
      as (st' & Hr' & Hp' & Hc' & Heq); [ simpl in Hf; lia | ].
    exists st'. simpl in Hp', Hc'. repeat split; [ assumption | simpl; lia | assumption | ].
    intros x Hx.
    cbn [rep_loop rmatch option_map Nat.pred]. rewrite (HK st c (s ++ t)%string Hr Hc).
    unfold one_char, advance. rewrite Hr, Hc. rewrite orb_true_r. cbn [pos].
    replace (pos st <? S (pos st)) with true by (symmetry; apply Nat.ltb_lt; lia).
    apply Heq. exact Hx.
Qed.

Lemma tail_next_first (g : nat) (content name : string) :
  one_line content = true ->
  all_chars is_upper name = true -> 3 <= String.length name <= 7 ->
  reads_first fl
    (Seq (Grp 5 (lazy_star Dot)) (Look true (Alt (Seq (Chr "010") (header g)) EndZ)))
    content (header_next name) [(g, name); (g + 3, name); (5, content)].
Proof.
  intros Hc Hu Hl st t k Hr Ht. unfold lazy_star.
  set (look := Look true (Alt (Seq (Chr "010") (header g)) EndZ)).
  set (K := fun st1 => rmatch fl look (set_cap 5 (take (pos st1 - pos st) (rest st)) st1) k).
  destruct (lazy_first content (S (String.length (rest st))) st t K Hr Hc)
    as (st1 & Hr1 & Hp1 & Hc1 & Heq).
  - intros st1 c u H1 Hn. unfold K, look. cbn [rmatch]. unfold one_char, advance, at_end.
    cbn [rest set_cap]. rewrite H1, (no_nl_test c Hn). reflexivity.
  - rewrite Hr, length_append. lia.
  - destruct (look_header_first g name Hu Hl
                (set_cap 5 (take (pos st1 - pos st) (rest st)) st1) t k)
      as (st2 & Hr2 & Hp2 & Hc2 & Hk2); [ exact Hr1 | exact Ht | ].
    exists st2. cbn [pos caps set_cap String.length] in Hp2, Hc2.
    repeat split; [ exact Hr2 | lia | | ].
    + rewrite Hc2, Hc1, Hp1, Hr.
      replace (pos st + String.length content - pos st) with (String.length content) by lia.
      now rewrite take_append.
    + intros x Hx.
      change (rep_loop (rmatch fl Dot) false 0 None (S (String.length (rest st))) st K
              = Some x).
      apply Heq. unfold K. fold look. apply Hk2. exact Hx.
Qed.

Lemma period_next_first (name content next : string) :
  all_chars is_upper name = true -> 3 <= String.length name <= 7 ->
  one_line content = true ->
  all_chars is_upper next = true -> 3 <= String.length next <= 7 ->
  reads_first fl period_pattern (("." ++ name ++ "." ++ "." ++ ".") ++ content)
    (header_next next) [(6, next); (6 + 3, next); (5, content); (1, name); (1 + 3, name)].
Proof.
  intros Hu Hl Hc Hu2 Hl2. unfold period_pattern. cbn [seqs].
  eapply first_caps_eq.
  - eapply (first_seq fl _ _ _ content (fun _ => True) (header_next next));
      [ apply header_first; assumption | apply tail_next_first; assumption | auto ].
  - reflexivity.
Qed.

Lemma body_cons (p q : string * string) (r : list (string * string)) :
  body_of (p :: q :: r)
  = ((("." ++ fst p ++ "." ++ "." ++ ".") ++ snd p) ++ nl ++ body_of (q :: r))%string.
Proof.
  unfold body_of. cbn [map join]. unfold period_text at 1.
  cbn [append]. f_equal. rewrite !append_assoc. reflexivity.
Qed.

Lemma body_starts (q : string * string) (r : list (string * string)) :
  header_next (fst q) (nl ++ body_of (q :: r)).
Proof.
  destruct r as [| q' r].
  - exists (snd q). unfold body_of, period_text. cbn [map join append].
    do 2 f_equal. rewrite !append_assoc. reflexivity.
  - exists (snd q ++ nl ++ body_of (q' :: r))%string. rewrite body_cons.
    cbn [append]. do 2 f_equal. rewrite !append_assoc. reflexivity.
Qed.

Lemma body_length (ps : list (string * string)) :
  List.length ps <= String.length (body_of ps).
Proof.
  induction ps as [| p r IH]; [ simpl; lia | ].
  destruct r as [| q r].
  - unfold body_of, period_text. cbn [map join List.length append String.length]. lia.
  - rewrite body_cons, !length_append. cbn [List.length] in IH |- *.
    assert (1 <= String.length nl) by (vm_compute; lia). lia.
Qed.

(** On a body of simple periods, one per line, the scan finds one match per
    period, with the name of the following period in the groups of the
    look-ahead. *)
Lemma scan_body (ps : list (string * string)) :
  Forall simple_period ps -> ps <> [] ->
  forall fuel st, rest st = body_of ps -> 2 * List.length ps <= fuel ->
    map (findall_item period_pattern) (scan fl period_pattern fuel false st) = tuples_of ps.
Proof.
  induction ps as [| [name content] r IH]; intros Hall Hne fuel st Hr Hf;
    [ contradiction | ].
  inversion Hall as [| p0 r0 (Hu & Hl & Hc) Hall' ]; subst. cbn [fst snd] in Hu, Hl, Hc.
  destruct fuel as [| f]; [ simpl in Hf; lia | ].
  destruct r as [| [next content'] r'].
  - assert (Htext : rest (with_caps st [])
                    = ((("." ++ name ++ "." ++ "." ++ ".") ++ content) ++ "")%string).
    { cbn [rest with_caps]. rewrite Hr, append_nil_r. unfold body_of, period_text.
      cbn [map join fst snd append]. f_equal. rewrite !append_assoc. reflexivity. }
    cbn [scan]. unfold match_here.
    destruct (period_first fl name content Hu Hl Hc (with_caps st []) ""
                (fun st' => if false && (pos st' =? pos st) then None else Some st')
                Htext eq_refl) as (st' & Hr' & Hp' & Hcaps & Hk).
    rewrite (Hk st' eq_refl).
    rewrite (scan_nothing fl period_pattern "." (period_pattern_starts fl));
      [ | rewrite Hr'; reflexivity ].
    cbn [map tuples_of]. unfold findall_item, mk_match, period_tuple. cbn [groups fst snd].
    rewrite Hcaps. change (ngroups period_pattern) with 9. reflexivity.
  - inversion Hall' as [| p1 r1 (Hu2 & Hl2 & _) _ ]; subst. cbn [fst] in Hu2, Hl2.
    assert (Htext : rest (with_caps st [])
                    = ((("." ++ name ++ "." ++ "." ++ ".") ++ content)
                       ++ nl ++ body_of ((next, content') :: r'))%string).
    { cbn [rest with_caps]. rewrite Hr. apply (body_cons (name, content)). }
    cbn [scan]. unfold match_here.
    destruct (period_next_first name content next Hu Hl Hc Hu2 Hl2 (with_caps st [])
                (nl ++ body_of ((next, content') :: r'))
                (fun st' => if false && (pos st' =? pos st) then None else Some st')
                Htext (body_starts (next, content') r')) as (st' & Hr' & Hp' & Hcaps & Hk).
    rewrite (Hk st' eq_refl).
    cbn [pos with_caps] in Hp'.
    assert (Hpos : (pos st' =? pos st) = false).
    { apply Nat.eqb_neq. rewrite Hp', length_append. simpl String.length at 1. lia. }
    rewrite Hpos.
    destruct f as [| f]; [ simpl in Hf; lia | ].
    cbn [map tuples_of]. f_equal.
    + unfold findall_item, mk_match, period_tuple. cbn [groups fst snd].
      rewrite Hcaps. change (ngroups period_pattern) with 9. reflexivity.
    + cbn [scan]. unfold match_here.
      rewrite (period_pattern_starts fl);
        [ | cbn [rest with_caps]; rewrite Hr'; intros t Ht; discriminate Ht ].
      unfold advance. rewrite Hr'. change (nl ++ ?x)%string with (String "010" x).
      cbv iota beta.
      apply (IH Hall'); [ discriminate | reflexivity | simpl in Hf |- *; lia ].
Qed.

End SeveralPeriods.

Section SeveralPeriodsConverted.

Import PyStr Re PyDate ForecastPeriodConverter ConverterSpec TextSpec.

Lemma processed_tuples (ps : list (string * string)) :
  Forall simple_period ps -> processed_periods (tuples_of ps) = ps.
Proof.
  induction ps as [| [name content] r IH]; intros Hall; [ reflexivity | ].
  inversion Hall as [| p0 r0 (_ & Hl & _) Hall' ]; subst. cbn [fst] in Hl.
  cbn [tuples_of processed_periods]. unfold period_tuple, name_and_content.
  cbn [nth fst snd String.eqb negb].
  assert (Hn : (name =? "")%string = false)
    by (destruct name; [ simpl in Hl; lia | reflexivity ]).
  rewrite Hn. cbn [negb]. rewrite (IH Hall'). reflexivity.
Qed.

(** X20. A body of periods, one per line, each a header (a dot, 3 to 7
    capital letters, three dots) followed by a content without newline, is
    converted to the lines that the day mapping gives for exactly these
    periods, in order: [findall] splits the body at the headers and loses
    nothing, and the conversion raises only where the mapping does. *)
Theorem body_converted_by_mapper (ps : list (string * string)) (forecast_time : datetime) :
  Forall simple_period ps -> ps <> [] ->
  convert_forecast_periods (body_of ps) forecast_time
  = option_map (fun converted_periods => join nl (map render converted_periods))
      (relative_day_mapper forecast_time ps).
Proof.
  intros Hall Hne. unfold convert_forecast_periods, findall, finditer.
  rewrite (scan_body f_dotall ps Hall Hne);
    [ | reflexivity | pose proof (body_length ps); lia ].
  rewrite (processed_tuples ps Hall).
  destruct ps as [| p r]; [ contradiction | ]. cbn [tuples_of].
  destruct (relative_day_mapper forecast_time (p :: r)); reflexivity.
Qed.

Lemma body_converted_by_mapper_witness :
  convert_forecast_periods
    (body_of [("TODAY", "N wind 5 kt."); ("TONIGHT", "N wind 10 kt."); ("MON", "W wind 5 kt.")])
    sunday_morning
  = Some ("D0_DAY (2024-01-07) N wind 5 kt." ++ nl
          ++ "D0_NIGHT (2024-01-07) N wind 10 kt." ++ nl
          ++ "D1_DAY (2024-01-08) W wind 5 kt.").
Proof.
  refine (eq_trans (body_converted_by_mapper
                      [("TODAY", "N wind 5 kt."); ("TONIGHT", "N wind 10 kt.");
                       ("MON", "W wind 5 kt.")] sunday_morning _ _) _).
  - repeat constructor.
  - discriminate.
  - vm_compute. reflexivity.
Defined.

End SeveralPeriodsConverted.

(** * Texts in which a pattern cannot match *)

Section NoMatch.

Import PyStr Re PyDate ForecastCorruptionDetector ForecastPeriodConverter.
Import NWSForecastProcessor ConverterSpec TextSpec.

Variable fl : flags.











Lemma needs_rep (g : bool) (lo : nat) (hi : option nat) (r : regex) (p : ascii -> bool) :
  needs fl r p -> needs fl (Rep g (S lo) hi r) p.
Proof.
  intros H st k Hn. cbn [rmatch rep_loop].
  destruct hi as [[| h] |]; [ reflexivity | now apply H | now apply H ].
Qed.

(** A pattern that must start on a character accepted by [p] finds nothing
    in a text that holds no such character. *)
Lemma scan_needs (r : regex) (p : ascii -> bool) :
  needs fl r p ->
  forall fuel must_advance st, all_chars (fun c => negb (p c)) (rest st) = true ->
    scan fl r fuel must_advance st = [].
Proof.
  intros Hr. induction fuel as [| f IH]; intros must_advance st Hp; [ reflexivity | ].
  cbn [scan]. unfold match_here. rewrite Hr.
  - unfold advance. destruct (rest st) as [| c t] eqn:Et; [ reflexivity | ].
    apply IH. cbn [rest]. cbn [all_chars] in Hp. apply andb_prop in Hp. apply Hp.
  - cbn [rest with_caps]. intros c t Ht. rewrite Ht in Hp. cbn [all_chars] in Hp.
    apply andb_prop in Hp. destruct Hp as [Hc _]. now apply negb_true_iff in Hc.
Qed.

Lemma all_chars_rev_onto (p : ascii -> bool) (s : string) :
  forall acc, all_chars p (rev_onto s acc) = all_chars p s && all_chars p acc.
Proof.
  induction s as [| c s IH]; intros acc; [ reflexivity | ].
  cbn [rev_onto all_chars]. rewrite IH. cbn [all_chars].
  destruct (p c), (all_chars p s), (all_chars p acc); reflexivity.
Qed.

Lemma all_chars_lstrip (p : ascii -> bool) (s : string) :
  all_chars p s = true -> all_chars p (lstrip s) = true.
Proof.
  induction s as [| c s IH]; intros H; [ reflexivity | ]. cbn [lstrip].
  destruct (is_space c); [ | exact H ].
  cbn [all_chars] in H. apply andb_prop in H. apply IH, H.
Qed.

Lemma all_chars_strip (p : ascii -> bool) (s : string) :
  all_chars p s = true -> all_chars p (strip s) = true.
Proof.
  intros H. unfold strip, rstrip, rev.
  rewrite all_chars_rev_onto, andb_true_r. apply all_chars_lstrip.
  rewrite all_chars_rev_onto, andb_true_r. apply all_chars_lstrip. exact H.
Qed.

End NoMatch.

Section NoMatchClaims.

Import PyStr Re PyDate ForecastCorruptionDetector ForecastPeriodConverter.
Import NWSForecastProcessor ConverterSpec TextSpec.




Lemma timestamp_needs_digit (fl : flags) : needs fl timestamp_pattern is_digit.
Proof.
  unfold timestamp_pattern. cbn [seqs]. apply needs_seq. unfold times.
  apply needs_rep. apply needs_cls.
Qed.

(** X16. A block that is not blank and holds no digit holds no time stamp:
    it is written back with its surrounding white space stripped, whatever
    the recorded time stamps are, and it is not handed to
    [convert_forecast_periods], even when it holds period headers. *)
Theorem digit_free_block_kept (corrupted_timestamps : list string) (block : string) :
  strip block <> "" ->
  all_chars (fun c => negb (is_digit c)) block = true ->
  let o := process_block corrupted_timestamps block in
  o = NoTimestamp (strip block) /\ appended o = [strip block] /\ conversion_call o = None.
Proof.
  intros Hne Hd. cbv zeta.
  assert (H : process_block corrupted_timestamps block = NoTimestamp (strip block)).
  { unfold process_block.
    destruct (strip block =? "")%string eqn:E;
      [ apply String.eqb_eq in E; contradiction | ].
    unfold search, finditer.
    rewrite (scan_needs no_flags timestamp_pattern is_digit (timestamp_needs_digit no_flags));
      [ reflexivity | ].
    cbn [rest start_of]. apply all_chars_strip. exact Hd. }
  rewrite H. repeat split.
Qed.

Lemma digit_free_block_kept_witness :
  process_block [] (nl ++ ".TODAY...N wind light." ++ nl)
  = NoTimestamp ".TODAY...N wind light.".
Proof.
  refine (eq_trans (proj1 (digit_free_block_kept [] (nl ++ ".TODAY...N wind light." ++ nl)
                             _ _)) _).
  - vm_compute. discriminate.
  - vm_compute. reflexivity.
  - vm_compute. reflexivity.
Defined.

End NoMatchClaims.

(** * The clean-up of a period content *)

Section Collapse.

Import PyStr Re ForecastPeriodConverter TextSpec.

Variable fl : flags.

Lemma word_parts (w : string) :
  word w = true ->
  all_chars (fun c => negb (is_space c)) w = true
  /\ exists c t, w = String c t /\ is_space c = false.
Proof.
  unfold word. intros H. apply andb_prop in H. destruct H as [Hne Ha].
  split; [ exact Ha | ].
  destruct w as [| c t]; [ simpl in Hne; discriminate | ].
  exists c, t. split; [ reflexivity | ].
  cbn [all_chars] in Ha. apply andb_prop in Ha. destruct Ha as [Hc _].
  now apply negb_true_iff in Hc.
Qed.

Lemma gap_parts (g : string) :
  gap g = true -> all_chars is_space g = true /\ 1 <= String.length g.
Proof.
  unfold gap. intros H. apply andb_prop in H. destruct H as [Hne Ha].
  split; [ exact Ha | ].
  destruct g as [| c t]; [ simpl in Hne; discriminate | simpl; lia ].
Qed.

Lemma word_not_starting (w x : string) : word w = true -> not_starting is_space (w ++ x).
Proof.
  intros H. destruct (word_parts w H) as (_ & c & t & -> & Hc).
  intros a u Hu. simpl in Hu. injection Hu as <- _. exact Hc.
Qed.

(** An unbounded greedy repetition of a class reads a whole run. *)
Lemma rep_first_unbounded (p : ascii -> bool) (s : string) :
  forall lo fuel st t k,
    all_chars p s = true -> rest st = (s ++ t)%string -> not_starting p t ->
    lo <= String.length s -> String.length s < fuel ->
    exists st', rest st' = t /\ pos st' = pos st + String.length s
                /\ caps st' = caps st
                /\ forall x, k st' = Some x ->
                     rep_loop (rmatch fl (Cls p)) true lo None fuel st k = Some x.
Proof.
  induction s as [| c s IH]; intros lo fuel st t k Hp Hr Ht Hl Hf;
    (destruct fuel as [| f]; [ simpl in Hf; lia | ]).
  - simpl in Hr, Hl. assert (lo = 0) by lia. subst lo.
    exists st. repeat split; [ assumption | simpl; lia | ].
    intros x Hx. cbn [rep_loop rmatch].
    assert (Hmiss : forall K, one_char p st K = None)
      by (intros K; apply one_char_miss; rewrite Hr; exact Ht).
    rewrite Hmiss. exact Hx.
  - simpl in Hp, Hr, Hl, Hf. apply andb_prop in Hp. destruct Hp as [Hc Hp].
    destruct (IH (Nat.pred lo) f
                {| pos := S (pos st); prev := Some c; rest := (s ++ t)%string;
                   caps := caps st |} t k Hp eq_refl Ht) as (st' & Hr' & Hp' & Hc' & Hk');
      [ lia | lia | ].
    exists st'. simpl in Hp', Hc'. repeat split; [ assumption | simpl; lia | assumption | ].
    intros x Hx. specialize (Hk' x Hx).
    assert (Hmore :
              rmatch fl (Cls p) st
                (fun st1 => if pos st <? pos st1
                            then rep_loop (rmatch fl (Cls p)) true (Nat.pred lo)
                                   (option_map Nat.pred None) f st1 k
                            else None) = Some x).
    { cbn [rmatch option_map]. unfold one_char, advance. rewrite Hr, Hc. cbn [pos].
      replace (pos st <? S (pos st)) with true by (symmetry; apply Nat.ltb_lt; lia).
      exact Hk'. }
    cbn [rep_loop]. destruct lo as [| lo]; [ | exact Hmore ].
    now rewrite Hmore.
Qed.

Lemma plus_space_miss (st : mstate) (k : cont) :
  not_starting is_space (rest st) -> rmatch fl (plus s_) st k = None.
Proof. apply (needs_plus fl s_ is_space (needs_cls fl is_space)). Qed.

(** The scan for [\s+] passes over a word without finding anything. *)
Lemma scan_skip (w : string) :
  forall fuel st t,
    all_chars (fun c => negb (is_space c)) w = true -> rest st = (w ++ t)%string ->
    exists st', rest st' = t /\ pos st' = pos st + String.length w
                /\ scan fl (plus s_) (String.length w + fuel) false st
                   = scan fl (plus s_) fuel false st'.
Proof.
  induction w as [| c w IH]; intros fuel st t Hw Hr.
  - exists st. repeat split; [ exact Hr | simpl; lia ].
  - cbn [all_chars] in Hw. apply andb_prop in Hw. destruct Hw as [Hc Hw].
    apply negb_true_iff in Hc. simpl in Hr.
    destruct (IH fuel {| pos := S (pos st); prev := Some c; rest := (w ++ t)%string;
                         caps := caps st |} t Hw eq_refl) as (st' & Hr' & Hp' & Hs).
    exists st'. cbn [pos] in Hp'. repeat split; [ exact Hr' | simpl; lia | ].
    cbn [String.length Nat.add scan]. unfold match_here.
    rewrite plus_space_miss.
    + unfold advance. rewrite Hr. exact Hs.
    + cbn [rest with_caps]. rewrite Hr. intros a u Hu. injection Hu as <- _. exact Hc.
Qed.

Lemma scan_at_end (fuel : nat) (st : mstate) :
  rest st = "" -> scan fl (plus s_) fuel false st = [].
Proof.
  intros Hr. destruct fuel as [| f]; [ reflexivity | ].
  cbn [scan]. unfold match_here. rewrite plus_space_miss.
  - unfold advance. now rewrite Hr.
  - cbn [rest with_caps]. rewrite Hr. intros a u Hu. discriminate Hu.
Qed.

(** [re.sub(r'\s+', ' ', ...)] on words separated by gaps: every gap becomes
    one space. *)
Lemma sub_spaced (more : list (string * string)) :
  forall first fuel st,
    word first = true -> gaps_and_words more = true ->
    rest st = (first ++ spaced more)%string -> 2 * String.length (rest st) < fuel ->
    sub_from (scan fl (plus s_) fuel false st) " " (pos st) (rest st)
    = join " " (first :: map snd more).
Proof.
  induction more as [| [g w] r IH]; intros first fuel st Hf Hm Hr Hfuel;
    destruct (word_parts first Hf) as [Ha _].
  - cbn [spaced] in Hr.
    destruct (scan_skip first (fuel - String.length first) st "" Ha Hr)
      as (st' & Hr' & _ & Hs).
    replace (String.length first + (fuel - String.length first)) with fuel in Hs
      by (rewrite Hr, length_append in Hfuel; lia).
    rewrite Hs, (scan_at_end _ st' Hr'). cbn [sub_from map join].
    rewrite Hr. apply append_nil_r.
  - unfold gaps_and_words in Hm. cbn [forallb fst snd] in Hm.
    apply andb_prop in Hm. destruct Hm as [Hgw Hm].
    apply andb_prop in Hgw. destruct Hgw as [Hg Hw].
    destruct (gap_parts g Hg) as [Hga Hgl].
    cbn [spaced] in Hr.
    assert (Hlen : String.length (rest st)
                   = String.length first
                     + (String.length g + String.length (w ++ spaced r)))
      by (rewrite Hr, !length_append; reflexivity).
    destruct (scan_skip first (fuel - String.length first) st (g ++ w ++ spaced r) Ha Hr)
      as (st1 & Hr1 & Hp1 & Hs).
    replace (String.length first + (fuel - String.length first)) with fuel in Hs by lia.
    rewrite Hs.
    destruct (fuel - String.length first) as [| f2] eqn:Ef; [ lia | ].
    cbn [scan]. unfold match_here.
    set (K := fun st' : mstate => if false && (pos st' =? pos st1) then None else Some st').
    destruct (rep_first_unbounded is_space g 1
                (S (String.length (rest (with_caps st1 [])))) (with_caps st1 [])
                (w ++ spaced r) K Hga Hr1 (word_not_starting w _ Hw))
      as (st2 & Hr2 & Hp2 & _ & Hk);
      [ lia | cbn [rest with_caps]; rewrite Hr1, length_append; lia | ].
    change (rmatch fl (plus s_) (with_caps st1 []) K)
      with (rep_loop (rmatch fl (Cls is_space)) true 1 None
              (S (String.length (rest (with_caps st1 [])))) (with_caps st1 []) K).
    rewrite (Hk st2 eq_refl). cbn [pos with_caps] in Hp2.
    replace (pos st2 =? pos st1) with false by (symmetry; apply Nat.eqb_neq; lia).
    cbn [sub_from mk_match m_start m_end].
    replace (pos st1 - pos st) with (String.length first) by lia.
    replace (pos st2 - pos st) with (String.length (first ++ g))
      by (rewrite length_append; lia).
    assert (Htake : take (String.length first) (rest st) = first)
      by (rewrite Hr; apply take_append).
    assert (Hdrop : drop (String.length (first ++ g)) (rest st) = rest st2)
      by (rewrite Hr, Hr2, <- append_assoc; apply drop_append).
    rewrite Htake, Hdrop.
    rewrite (IH w f2 st2 Hw Hm Hr2);
      [ reflexivity | rewrite Hr2; lia ].
Qed.

Lemma rev_onto_append (s : string) :
  forall acc, rev_onto s acc = (rev s ++ acc)%string.
Proof.
  unfold rev. induction s as [| c s IH]; intros acc; [ reflexivity | ].
  cbn [rev_onto]. rewrite (IH (String c acc)), (IH (String c "")), append_assoc.
  reflexivity.
Qed.

Lemma rev_cons (c : ascii) (s : string) : rev (String c s) = (rev s ++ String c "")%string.
Proof. unfold rev at 1. cbn [rev_onto]. apply rev_onto_append. Qed.

Lemma rev_append (a b : string) : rev (a ++ b) = (rev b ++ rev a)%string.
Proof.
  induction a as [| c a IH].
  - cbn [append]. change (rev "") with "". now rewrite append_nil_r.
  - cbn [append]. rewrite !rev_cons, IH, append_assoc. reflexivity.
Qed.

Lemma rev_involutive (s : string) : rev (rev s) = s.
Proof.
  induction s as [| c s IH]; [ reflexivity | ].
  rewrite rev_cons, rev_append, IH. reflexivity.
Qed.

Lemma all_chars_rev (p : ascii -> bool) (s : string) : all_chars p (rev s) = all_chars p s.
Proof. unfold rev. rewrite all_chars_rev_onto. apply andb_true_r. Qed.

Lemma lstrip_blank (lead x : string) :
  all_chars is_space lead = true -> lstrip (lead ++ x) = lstrip x.
Proof.
  induction lead as [| c lead IH]; intros H; [ reflexivity | ].
  cbn [all_chars] in H. apply andb_prop in H. destruct H as [Hc H].
  cbn [append lstrip]. rewrite Hc. apply IH. exact H.
Qed.

Lemma lstrip_fixed (c : ascii) (t : string) :
  is_space c = false -> lstrip (String c t) = String c t.
Proof. intros H. cbn [lstrip]. now rewrite H. Qed.

(** A text of words and gaps ends with a character of a word. *)
Lemma rev_spaced_starts (more : list (string * string)) :
  forall first x,
    word first = true -> gaps_and_words more = true ->
    exists c t, (rev (first ++ spaced more) ++ x)%string = String c t /\ is_space c = false.
Proof.
  induction more as [| [g w] r IH]; intros first x Hf Hm.
  - cbn [spaced]. rewrite append_nil_r.
    assert (Hw : word (rev first) = true).
    { unfold word. destruct (word_parts first Hf) as [Ha _].
      rewrite all_chars_rev, Ha, andb_true_r.
      destruct (rev first) as [| a u] eqn:E; [ | reflexivity ].
      apply (f_equal rev) in E. rewrite rev_involutive in E. subst first. discriminate Hf. }
    destruct (word_parts _ Hw) as (_ & c & t & -> & Hc).
    exists c, (t ++ x)%string. split; [ reflexivity | exact Hc ].
  - unfold gaps_and_words in Hm. cbn [forallb fst snd] in Hm.
    apply andb_prop in Hm. destruct Hm as [Hgw Hm].
    apply andb_prop in Hgw. destruct Hgw as [_ Hw].
    cbn [spaced].
    replace (first ++ g ++ w ++ spaced r)%string
      with ((first ++ g) ++ (w ++ spaced r))%string by (now rewrite append_assoc).
    rewrite rev_append, append_assoc. apply IH; assumption.
Qed.

(** [strip] removes the white space around a text of words and gaps. *)
Lemma strip_spaced (lead first trail : string) (more : list (string * string)) :
  all_chars is_space lead = true -> word first = true -> gaps_and_words more = true ->
  all_chars is_space trail = true ->
  strip (lead ++ first ++ spaced more ++ trail) = (first ++ spaced more)%string.
Proof.
  intros Hl Hf Hm Ht. unfold strip. rewrite (lstrip_blank lead _ Hl).
  destruct (word_parts first Hf) as (_ & c & t & E & Hc).
  assert (Hfix : lstrip (first ++ spaced more ++ trail) = (first ++ spaced more ++ trail)%string)
    by (rewrite E; cbn [append]; apply lstrip_fixed; exact Hc).
  rewrite Hfix. unfold rstrip.
  replace (first ++ spaced more ++ trail)%string
    with ((first ++ spaced more) ++ trail)%string by (now rewrite append_assoc).
  rewrite rev_append, lstrip_blank by (rewrite all_chars_rev; exact Ht).
  destruct (rev_spaced_starts more first "" Hf Hm) as (a & u & Ea & Hsp).
  rewrite append_nil_r in Ea. rewrite Ea, (lstrip_fixed a u Hsp), <- Ea.
  apply rev_involutive.
Qed.

End Collapse.

Section CollapseExtras.

Import PyStr Re ForecastPeriodConverter TextSpec.

(** X21. The clean-up of a period content: for a content made of words
    separated by runs of white space (spaces, tabs, newlines), with any white
    space before the first word and after the last one, [collapse] returns
    the words joined by single spaces, in which every [Wave Detail:] is then
    replaced by [Waves:]. *)
Theorem collapse_joins_words (lead first trail : string) (more : list (string * string)) :
  all_chars is_space lead = true -> word first = true -> gaps_and_words more = true ->
  all_chars is_space trail = true ->
  collapse (lead ++ first ++ spaced more ++ trail)
  = replace (join " " (first :: map snd more)) "Wave Detail:" "Waves:".
Proof.
  intros Hl Hf Hm Ht. unfold collapse.
  rewrite (strip_spaced lead first trail more Hl Hf Hm Ht).
  unfold sub, finditer.
  rewrite (sub_spaced no_flags more first _ (start_of (first ++ spaced more)) Hf Hm eq_refl);
    [ reflexivity | cbn [rest start_of]; lia ].
Qed.

Lemma collapse_joins_words_witness :
  collapse (nl ++ "Wave" ++ "  " ++ "Detail:" ++ nl ++ "3" ++ " " ++ "ft." ++ " ")
  = "Waves: 3 ft.".
Proof.
  refine (eq_trans (collapse_joins_words nl "Wave" " "
                      [("  ", "Detail:"); (nl, "3"); (" ", "ft.")] _ _ _ _) _).
  - reflexivity.
  - reflexivity.
  - reflexivity.
  - reflexivity.
  - vm_compute. reflexivity.
Defined.

End CollapseExtras.
